(** * autoencounter: the combat engine (entity.py, board.py, game.py, utils.py)

    A shallow embedding of the simulation engine of the repository and the
    properties of its specification.

    Conventions of the embedding.
    - Python integers are [Z]; object identities ([id(agent)]) are [Z] and an
      object reference is the identity of the object it points to.  The
      entities live in a store [objs : gmap Z Entity]; a method that mutates
      [self] is a function on the record, applied in the store.
    - Dictionaries whose order is never observed are [gmap]s, the set [dead]
      is a [gset]; [agents] and [initial_position], which are iterated, are
      insertion-ordered association lists.
    - A Python exception is the outcome [Raise e]; [assert] raises
      [AssertionError], a missing key [KeyError], [list.remove] of an absent
      element and the decoder [ValueError], numpy indexing [IndexError].
    - Randomness is an explicit source: [entropy k] is the k-th raw draw and
      the state carries the position [rng] of the next draw. *)

From stdpp Require Import gmap strings list fin_maps.
From Stdlib Require Import ZArith Lia.

Local Open Scope Z_scope.

(** ** Outcomes of a call *)

Inductive exn : Type :=
| AssertionError
| KeyError
| ValueError
| IndexError
| UnboundLocalError
| DanglingReference. (* a reference outside the store; Python has none *)

Inductive result (A : Type) : Type :=
| Ok (a : A)
| Raise (e : exn).
Arguments Ok {A} a.
Arguments Raise {A} e.

#[global] Instance result_bind : MBind result := λ A B k m,
  match m with
  | Ok a => k a
  | Raise e => Raise e
  end.

(** [assert b] *)
Definition assert (b : bool) : result unit :=
  if b then Ok tt else Raise AssertionError.

(** [d[k]] on a dictionary *)
Definition getitem `{Countable K} {V} (d : gmap K V) (k : K) : result V :=
  match d !! k with
  | Some v => Ok v
  | None => Raise KeyError
  end.

(** [del d[k]] *)
Definition delitem `{Countable K} {V} (d : gmap K V) (k : K) : result (gmap K V) :=
  match d !! k with
  | Some _ => Ok (delete k d)
  | None => Raise KeyError
  end.

(** [k in d] *)
Definition contains `{Countable K} {V} (d : gmap K V) (k : K) : bool :=
  bool_decide (is_Some (d !! k)).

(** ** utils.py *)

Module Utils.
Section Source.
(** The raw draws of the random source. *)
Variable entropy : nat → Z.

(** [random.randint(lo, hi)]: a draw in [lo..hi], taken at position [k] of
    the source; an empty range raises. *)
Definition randint (lo hi : Z) (k : nat) : result (Z * nat) :=
  if hi <? lo then Raise ValueError
  else Ok (lo + entropy k `mod` (hi - lo + 1), S k).

(** [sum(random.randint(1, dice) for _ in range(n))] *)
Fixpoint roll_from (dice : Z) (n : nat) (k : nat) : result (Z * nat) :=
  match n with
  | O => Ok (0, k)
  | S n' =>
      '(v, k1) ← randint 1 dice k;
      '(s, k2) ← roll_from dice n' k1;
      Ok (v + s, k2)
  end.

Definition roll (dice n : Z) (k : nat) : result (Z * nat) :=
  roll_from dice (Z.to_nat n) k.
End Source.
End Utils.

(** ** entity.py *)

Module Entity.

(** The concrete class of an entity: [Player] and [Enemy] are the two
    subclasses of the abstract [Entity]. *)
Inductive Kind : Type := Player | Enemy.

#[global] Instance Kind_eq_dec : EqDecision Kind.
Proof. solve_decision. Defined.

Record t : Type := mk {
  amod : Z;
  dmod : Z;
  hp : Z;
  max_hp : Z;
  ac : Z;
  potions : Z;
  ranged : bool;
  n_agents : Z;
  action_dim : Z;
  label : string;
  alive : bool;
  kind : Kind
}.

(** [Entity.__init__], called through the constructor of class [k]. *)
Definition init (k : Kind) (amod dmod hp ac potions : Z) (ranged : bool)
    (n_agents : Z) (label : string) : t :=
  {| amod := amod; dmod := dmod; hp := hp; max_hp := hp; ac := ac;
     potions := potions; ranged := ranged; n_agents := n_agents;
     action_dim := 4 + 2 * n_agents; label := label; alive := true;
     kind := k |}.

Definition set_hp (e : t) (h : Z) : t :=
  {| amod := amod e; dmod := dmod e; hp := h; max_hp := max_hp e;
     ac := ac e; potions := potions e; ranged := ranged e;
     n_agents := n_agents e; action_dim := action_dim e; label := label e;
     alive := alive e; kind := kind e |}.

Definition set_alive (e : t) (a : bool) : t :=
  {| amod := amod e; dmod := dmod e; hp := hp e; max_hp := max_hp e;
     ac := ac e; potions := potions e; ranged := ranged e;
     n_agents := n_agents e; action_dim := action_dim e; label := label e;
     alive := a; kind := kind e |}.

Definition set_potions (e : t) (p : Z) : t :=
  {| amod := amod e; dmod := dmod e; hp := hp e; max_hp := max_hp e;
     ac := ac e; potions := p; ranged := ranged e;
     n_agents := n_agents e; action_dim := action_dim e; label := label e;
     alive := alive e; kind := kind e |}.

Definition is_alive (e : t) : bool := alive e.

(** [take_damage]: [self.hp -= points; self.alive = self.hp > 0] *)
Definition take_damage (e : t) (points : Z) : t :=
  let e1 := set_hp e (hp e - points) in
  set_alive e1 (0 <? hp e1).

(** [heal]: [if self.alive: self.hp = min(self.max_hp, self.hp + points)] *)
Definition heal (e : t) (points : Z) : t :=
  if alive e then set_hp e (Z.min (max_hp e) (hp e + points)) else e.

(** [ally(e1, e2)]: [type(e1) == type(e2)] *)
Definition ally (e1 e2 : t) : bool := bool_decide (kind e1 = kind e2).

Definition enemy (e1 e2 : t) : bool := negb (ally e1 e2).

Section Dice.
Variable entropy : nat → Z.

(** [roll_attack]: [utils.roll(20) + self.amod] *)
Definition roll_attack (e : t) (k : nat) : result (Z * nat) :=
  '(v, k') ← Utils.roll entropy 20 1 k;
  Ok (v + amod e, k').

(** [roll_damage]: [utils.roll(6, 2) + self.dmod] *)
Definition roll_damage (e : t) (k : nat) : result (Z * nat) :=
  '(v, k') ← Utils.roll entropy 6 2 k;
  Ok (v + dmod e, k').

(** [use_potion]: the points rolled, the entity after the call and the
    position of the random source after the call. *)
Definition use_potion (e : t) (k : nat) : result (Z * t * nat) :=
  if 0 <? potions e then
    let e1 := set_potions e (potions e - 1) in
    '(v, k') ← Utils.roll entropy 4 2 k;
    Ok (v + 2, e1, k')
  else Ok (0, e, k).
End Dice.

(** A sequence of [take_damage] and [heal] calls on one entity. *)
Inductive op : Type :=
| TakeDamage (points : Z)
| Heal (points : Z).

Definition points_of (o : op) : Z :=
  match o with TakeDamage p | Heal p => p end.

Definition apply (e : t) (o : op) : t :=
  match o with
  | TakeDamage p => take_damage e p
  | Heal p => heal e p
  end.

Definition run (ops : list op) (e : t) : t := foldl apply e ops.

(** The health invariant the code maintains: hit points never exceed the
    maximum and the flag [alive] says whether they are positive. *)
Definition health_ok (e : t) : Prop :=
  hp e ≤ max_hp e ∧ alive e = (0 <? hp e).

End Entity.

(** ** board.py *)

Module Board.

(** The grid [np.full((rows, cols), False)] is a dense boolean matrix; it
    is kept as the set of its cells that hold [True]. *)
Record t : Type := mk {
  grid : gset (Z * Z);
  rows : Z;
  cols : Z;
  ents : gmap (Z * Z) Z; (* (row, col) -> eid *)
  loc : gmap Z (Z * Z)   (* eid -> (row, col) *)
}.

(** numpy's treatment of one index on an axis of length [n]: a negative
    index counts from the end, anything outside raises. *)
Definition np_index (n i : Z) : result Z :=
  if (0 <=? i) && (i <? n) then Ok i
  else if (- n <=? i) && (i <? 0) then Ok (i + n)
  else Raise IndexError.

(** [Board.__init__]; numpy refuses negative dimensions. *)
Definition init (rows cols : Z) : result t :=
  if (rows <? 0) || (cols <? 0) then Raise ValueError
  else Ok {| grid := ∅; rows := rows; cols := cols; ents := ∅; loc := ∅ |}.

(** [self.grid[x, y]] *)
Definition grid_get (b : t) (x y : Z) : result bool :=
  i ← np_index (rows b) x;
  j ← np_index (cols b) y;
  Ok (bool_decide ((i, j) ∈ grid b)).

(** [self.grid[x, y] = v] *)
Definition grid_set (b : t) (x y : Z) (v : bool) : result t :=
  i ← np_index (rows b) x;
  j ← np_index (cols b) y;
  Ok {| grid := if v then {[ (i, j) ]} ∪ grid b else grid b ∖ {[ (i, j) ]};
          rows := rows b; cols := cols b; ents := ents b; loc := loc b |}.

Definition set_maps (b : t) (e : gmap (Z * Z) Z) (l : gmap Z (Z * Z)) : t :=
  {| grid := grid b; rows := rows b; cols := cols b; ents := e; loc := l |}.

Definition inbounds (b : t) (x y : Z) : bool :=
  (0 <=? x) && (x <? rows b) && (0 <=? y) && (y <? cols b).

Definition free (b : t) (x y : Z) : result bool :=
  _ ← assert (inbounds b x y);
  v ← grid_get b x y;
  Ok (negb v).

Definition used (b : t) (x y : Z) : result bool :=
  _ ← assert (inbounds b x y);
  f ← free b x y;
  Ok (negb f).

Definition add (b : t) (eid x y : Z) : result t :=
  f ← free b x y;
  _ ← assert f;
  _ ← assert (inbounds b x y);
  b1 ← grid_set b x y true;
  Ok (set_maps b1 (<[(x, y) := eid]> (ents b1)) (<[eid := (x, y)]> (loc b1))).

Definition query (b : t) (eid : Z) : result (Z * Z) :=
  _ ← assert (contains (loc b) eid);
  getitem (loc b) eid.

Definition remove (b : t) (eid : Z) : result t :=
  _ ← assert (contains (loc b) eid);
  '(x, y) ← query b eid;
  b1 ← grid_set b x y false;
  ents1 ← delitem (ents b1) (x, y);
  loc1 ← delitem (loc b1) eid;
  Ok (set_maps b1 ents1 loc1).

Definition move (b : t) (x y xf yf : Z) : result t :=
  _ ← assert (inbounds b x y);
  _ ← assert (inbounds b xf yf);
  _ ← assert (contains (ents b) (x, y));
  u ← used b x y;
  _ ← assert u;
  f ← free b xf yf;
  _ ← assert f;
  b1 ← grid_set b x y false;
  b2 ← grid_set b1 xf yf true;
  eid ← getitem (ents b2) (x, y);
  ents1 ← delitem (ents b2) (x, y);
  loc1 ← delitem (loc b2) eid;
  Ok (set_maps b2 (<[(xf, yf) := eid]> ents1) (<[eid := (xf, yf)]> loc1)).

Definition lquery (b : t) (x y : Z) : result Z :=
  _ ← assert (contains (ents b) (x, y));
  getitem (ents b) (x, y).

Definition belongs (b : t) (eid : Z) : bool := contains (loc b) eid.

Definition near (b : t) (eid1 eid2 : Z) : result bool :=
  _ ← assert (contains (loc b) eid1);
  if negb (contains (loc b) eid2) then Ok false
  else if bool_decide (eid1 = eid2) then Ok true
  else
    '(x1, y1) ← query b eid1;
    '(x2, y2) ← query b eid2;
    Ok (bool_decide (x1 + 1 = x2) && bool_decide (y1 = y2)
          || bool_decide (x1 - 1 = x2) && bool_decide (y1 = y2)
          || bool_decide (x1 = x2) && bool_decide (y1 + 1 = y2)
          || bool_decide (x1 = x2) && bool_decide (y1 - 1 = y2)).

(** A sequence of calls on one board. *)
Inductive op : Type :=
| Add (eid x y : Z)
| Remove (eid : Z)
| Move (x y xf yf : Z).

Definition apply (b : t) (o : op) : result t :=
  match o with
  | Add eid x y => add b eid x y
  | Remove eid => remove b eid
  | Move x y xf yf => move b x y xf yf
  end.

Fixpoint run (ops : list op) (b : t) : result t :=
  match ops with
  | [] => Ok b
  | o :: ops' => b1 ← apply b o; run ops' b1
  end.

(** Every [Add] of the sequence is applied to a handle that is not on the
    board at that moment. *)
Fixpoint fresh_adds (ops : list op) (b : t) : bool :=
  match ops with
  | [] => true
  | o :: ops' =>
      match o with Add eid _ _ => negb (belongs b eid) | _ => true end
      && match apply b o with
         | Ok b1 => fresh_adds ops' b1
         | Raise _ => true
         end
  end.

Definition is_add (o : op) : bool :=
  match o with Add _ _ _ => true | _ => false end.

Definition is_remove (o : op) : bool :=
  match o with Remove _ => true | _ => false end.

Fixpoint count (f : op → bool) (ops : list op) : Z :=
  match ops with
  | [] => 0
  | o :: ops' => (if f o then 1 else 0) + count f ops'
  end.

(** The two maps are inverses of each other, the grid marks exactly the
    cells that hold an entity, and every stored coordinate is on the
    board. *)
Record inv (b : t) : Prop := {
  inv_inverse : ∀ e p, loc b !! e = Some p ↔ ents b !! p = Some e;
  inv_grid : ∀ p, p ∈ grid b ↔ is_Some (ents b !! p);
  inv_bounds : ∀ e x y, loc b !! e = Some (x, y) →
                        0 ≤ x < rows b ∧ 0 ≤ y < cols b
}.

End Board.

(** ** game.py *)

Module Game.

(** The observation: a dense tensor of zeros and ones, kept as its shape
    and the set of the cells that hold a one. *)
Record tensor : Type := mk_tensor {
  shape : Z * Z * Z * Z;
  ones : gset (Z * Z * Z * Z)
}.

(** [np.zeros((d1, d2, d3, d4))] *)
Definition zeros (d1 d2 d3 d4 : Z) : result tensor :=
  if (d1 <? 0) || (d2 <? 0) || (d3 <? 0) || (d4 <? 0) then Raise ValueError
  else Ok {| shape := (d1, d2, d3, d4); ones := ∅ |}.

(** [state[x, y, i, c] = 1] *)
Definition tensor_set (s : tensor) (x y i c : Z) : result tensor :=
  let '(d1, d2, d3, d4) := shape s in
  x' ← Board.np_index d1 x;
  y' ← Board.np_index d2 y;
  i' ← Board.np_index d3 i;
  c' ← Board.np_index d4 c;
  Ok {| shape := shape s; ones := {[ (x', y', i', c') ]} ∪ ones s |}.

(** The [Game] object, together with the two pieces of ambient state its
    methods act on: the store of the entities and the position of the
    random source. *)
Record t : Type := mk {
  silence : bool;
  board : Board.t;
  rows : Z;
  cols : Z;
  agents : list (Z * Z);                 (* id(agent) -> agent *)
  order : list Z;
  initial_position : list (Z * (Z * Z)); (* id(agent) -> (x, y) *)
  agent_index : gmap Z Z;                (* id(agent) -> index *)
  index_to_agent : gmap Z Z;             (* index -> agent *)
  n_agents : Z;
  cell_dim : Z;
  label_map : gmap Z string;             (* id(agent) -> label *)
  dead : gset Z;
  objs : gmap Z Entity.t;
  rng : nat
}.

Definition set_board (g : t) (b : Board.t) : t :=
  {| silence := silence g; board := b; rows := rows g; cols := cols g;
     agents := agents g; order := order g;
     initial_position := initial_position g; agent_index := agent_index g;
     index_to_agent := index_to_agent g; n_agents := n_agents g;
     cell_dim := cell_dim g; label_map := label_map g; dead := dead g;
     objs := objs g; rng := rng g |}.

Definition set_order (g : t) (o : list Z) : t :=
  {| silence := silence g; board := board g; rows := rows g; cols := cols g;
     agents := agents g; order := o;
     initial_position := initial_position g; agent_index := agent_index g;
     index_to_agent := index_to_agent g; n_agents := n_agents g;
     cell_dim := cell_dim g; label_map := label_map g; dead := dead g;
     objs := objs g; rng := rng g |}.

Definition set_dead (g : t) (d : gset Z) : t :=
  {| silence := silence g; board := board g; rows := rows g; cols := cols g;
     agents := agents g; order := order g;
     initial_position := initial_position g; agent_index := agent_index g;
     index_to_agent := index_to_agent g; n_agents := n_agents g;
     cell_dim := cell_dim g; label_map := label_map g; dead := d;
     objs := objs g; rng := rng g |}.

Definition set_objs (g : t) (h : gmap Z Entity.t) : t :=
  {| silence := silence g; board := board g; rows := rows g; cols := cols g;
     agents := agents g; order := order g;
     initial_position := initial_position g; agent_index := agent_index g;
     index_to_agent := index_to_agent g; n_agents := n_agents g;
     cell_dim := cell_dim g; label_map := label_map g; dead := dead g;
     objs := h; rng := rng g |}.

Definition set_rng (g : t) (k : nat) : t :=
  {| silence := silence g; board := board g; rows := rows g; cols := cols g;
     agents := agents g; order := order g;
     initial_position := initial_position g; agent_index := agent_index g;
     index_to_agent := index_to_agent g; n_agents := n_agents g;
     cell_dim := cell_dim g; label_map := label_map g; dead := dead g;
     objs := objs g; rng := k |}.

(** [Game.__init__], in the store [h] with the random source at [k]. *)
Definition init (rows cols : Z) (silence : bool)
    (h : gmap Z Entity.t) (k : nat) : result t :=
  b ← Board.init rows cols;
  Ok {| silence := silence; board := b; rows := rows; cols := cols;
          agents := []; order := []; initial_position := [];
          agent_index := ∅; index_to_agent := ∅; n_agents := 0;
          cell_dim := 5; label_map := ∅; dead := ∅; objs := h; rng := k |}.

(** [d[k] = v] on an insertion-ordered dictionary: a present key keeps its
    place, a new key goes to the end. *)
Fixpoint od_set {V} (k : Z) (v : V) (d : list (Z * V)) : list (Z * V) :=
  match d with
  | [] => [(k, v)]
  | (k', v') :: d' =>
      if bool_decide (k' = k) then (k, v) :: d' else (k', v') :: od_set k v d'
  end.

Definition od_mem {V} (k : Z) (d : list (Z * V)) : bool :=
  bool_decide (k ∈ d.*1).

(** Following a reference into the store. *)
Definition deref (g : t) (r : Z) : result Entity.t :=
  match objs g !! r with
  | Some e => Ok e
  | None => Raise DanglingReference
  end.

(** The label lookups of the message a handler prints unless the game is
    silenced; the printing itself is not modelled. *)
Fixpoint labels_of (m : gmap Z string) (ids : list Z) : result (list string) :=
  match ids with
  | [] => Ok []
  | i :: ids' => l ← getitem m i; ls ← labels_of m ids'; Ok (l :: ls)
  end.

Definition announce (g : t) (ids : list Z) : result unit :=
  if silence g then Ok tt else _ ← labels_of (label_map g) ids; Ok tt.

(** [l.remove(x)] *)
Fixpoint list_remove (x : Z) (l : list Z) : result (list Z) :=
  match l with
  | [] => Raise ValueError
  | y :: l' =>
      if bool_decide (y = x) then Ok l'
      else l'' ← list_remove x l'; Ok (y :: l'')
  end.

Definition add (g : t) (agent x y : Z) (label : string) : result t :=
  _ ← assert (bool_decide (String.length label = 2%nat));
  let eid := agent in
  _ ← assert (negb (od_mem eid (agents g)));
  b ← Board.add (board g) eid x y;
  Ok {| silence := silence g; board := b; rows := rows g; cols := cols g;
          agents := od_set eid agent (agents g); order := order g;
          initial_position := od_set eid (x, y) (initial_position g);
          agent_index := <[eid := n_agents g]> (agent_index g);
          index_to_agent := <[n_agents g := agent]> (index_to_agent g);
          n_agents := n_agents g + 1; cell_dim := cell_dim g;
          label_map := <[eid := label]> (label_map g); dead := dead g;
          objs := objs g; rng := rng g |}.

(** A registration: the calls [g.add(agent, x, y, label)] in sequence. *)
Fixpoint add_all (regs : list (Z * Z * Z * string)) (g : t) : result t :=
  match regs with
  | [] => Ok g
  | (agent, x, y, label) :: regs' => g1 ← add g agent x y label; add_all regs' g1
  end.

Definition pop (g : t) : result (Z * t) :=
  _ ← assert (bool_decide (0 < length (order g))%nat);
  match order g with
  | agent :: rest => Ok (agent, set_order g (rest ++ [agent]))
  | [] => Raise IndexError
  end.

Section Engine.
(** The random source: its raw draws, and [random.shuffle] as a function
    of the list and of the position of the source. *)
Variable entropy : nat → Z.
Variable shuffle : list Z → nat → list Z * nat.

(** [initiative] *)
Definition initiative (g : t) : t :=
  let agent_list := (agents g).*2 in
  let '(shuffled, k) := shuffle agent_list (rng g) in
  set_rng (set_order g shuffled) k.

(** [agent.ranged or self.board.near(id(agent), id(target))] *)
Definition reachable (g : t) (a : Entity.t) (agent target : Z) : result bool :=
  if Entity.ranged a then Ok true else Board.near (board g) agent target.

Definition handle_attack (g : t) (agent action : Z) : result (Z * t) :=
  target ← getitem (index_to_agent g) action;
  _ ← announce g [agent; target];
  a ← deref g agent;
  tg ← deref g target;
  '(attack, k1) ← Entity.roll_attack entropy a (rng g);
  let hit := bool_decide (Entity.ac tg ≤ attack) in
  reach ← reachable g a agent target;
  '(damage, k2) ← Entity.roll_damage entropy a k1;
  let is_self := bool_decide (target = agent) in
  let is_ally := Entity.ally a tg in
  let is_enemy := negb (Entity.ally a tg) in
  let g := set_rng g k2 in
  if bool_decide (target ∈ dead g) then Ok (-1, g)
  else if negb reach then Ok (-1, g)
  else if hit then
    let tg1 := Entity.take_damage tg damage in
    let g1 := set_objs g (<[target := tg1]> (objs g)) in
    reward ← (if is_self then Ok (-2 * damage)
              else if is_ally then Ok (- damage)
              else if is_enemy then Ok damage
              else Raise UnboundLocalError);
    if negb (Entity.is_alive tg1) then
      let reward := reward * 2 in
      let g2 := set_dead g1 ({[ target ]} ∪ dead g1) in
      order1 ← list_remove target (order g2);
      let g3 := set_order g2 order1 in
      b ← Board.remove (board g3) target;
      Ok (reward, set_board g3 b)
    else Ok (reward, g1)
  else Ok (-1, g).

Definition handle_heal (g : t) (agent action : Z) : result (Z * t) :=
  target ← getitem (index_to_agent g) action;
  _ ← announce g [agent; target];
  reach ← Board.near (board g) agent target;
  a ← deref g agent;
  '(points, a1, k) ← Entity.use_potion entropy a (rng g);
  let g := set_rng (set_objs g (<[agent := a1]> (objs g))) k in
  tg ← deref g target;
  let is_self := bool_decide (target = agent) in
  let is_ally := Entity.ally a1 tg in
  let is_enemy := negb (Entity.ally a1 tg) in
  if points =? 0 then Ok (-1, g)
  else if negb (Entity.is_alive tg) then Ok (-1, g)
  else if negb reach then Ok (-1, g)
  else
    reward ← (if is_self then Ok points
              else if is_ally then Ok points
              else if is_enemy then Ok (- points)
              else Raise UnboundLocalError);
    Ok (reward, set_objs g (<[target := Entity.heal tg points]> (objs g))).

(** The common body of the four move handlers; [dest] gives [(xf, yf)]. *)
Definition handle_dir (g : t) (agent : Z) (dest : Z → Z → Z * Z)
    : result (Z * t) :=
  _ ← announce g [agent];
  '(x, y) ← Board.query (board g) agent;
  let xf := (dest x y).1 in
  let yf := (dest x y).2 in
  ok ← (if Board.inbounds (board g) xf yf then Board.free (board g) xf yf
        else Ok false);
  if ok : bool then
    b ← Board.move (board g) x y xf yf;
    Ok (0, set_board g b)
  else Ok (-1, g).

Definition handle_up (g : t) (agent : Z) := handle_dir g agent (λ x y, (x - 1, y)).
Definition handle_down (g : t) (agent : Z) := handle_dir g agent (λ x y, (x + 1, y)).
Definition handle_left (g : t) (agent : Z) := handle_dir g agent (λ x y, (x, y - 1)).
Definition handle_right (g : t) (agent : Z) := handle_dir g agent (λ x y, (x, y + 1)).

(** The body of the loop of [generate_state] for one agent of the order. *)
Definition encode_agent (g : t) (current : Z) (state : tensor) (agent : Z)
    : result tensor :=
  let eid := agent in
  '(x, y) ← Board.query (board g) eid;
  index ← getitem (agent_index g) eid;
  if bool_decide (eid = current) then tensor_set state x y index 0
  else
    a ← deref g agent;
    c ← deref g current;
    if negb (Entity.ranged a) && Entity.ally a c then tensor_set state x y index 1
    else if Entity.ranged a && Entity.ally a c then tensor_set state x y index 2
    else if negb (Entity.ranged a) && negb (Entity.ally a c) then
      tensor_set state x y index 3
    else if Entity.ranged a && negb (Entity.ally a c) then
      tensor_set state x y index 4
    else Raise ValueError.

Fixpoint encode_agents (g : t) (current : Z) (state : tensor) (l : list Z)
    : result tensor :=
  match l with
  | [] => Ok state
  | agent :: l' =>
      state1 ← encode_agent g current state agent;
      encode_agents g current state1 l'
  end.

Definition generate_state (g : t) (current_agent : Z) : result tensor :=
  state ← zeros (rows g) (cols g) (n_agents g) (cell_dim g);
  encode_agents g current_agent state (order g).

Definition apply_action (g : t) (agent action : Z) : result (tensor * Z * t) :=
  '(reward, g1) ←
    (if (0 <=? action) && (action <? n_agents g) then
       handle_attack g agent action
     else if (n_agents g <=? action) && (action <? 2 * n_agents g) then
       handle_heal g agent (action - n_agents g)
     else if action =? 2 * n_agents g then handle_up g agent
     else if action =? 2 * n_agents g + 1 then handle_down g agent
     else if action =? 2 * n_agents g + 2 then handle_left g agent
     else if action =? 2 * n_agents g + 3 then handle_right g agent
     else Raise ValueError);
  outcome_state ← generate_state g1 agent;
  Ok (outcome_state, reward, g1).

(** [all(ally(x, y) for x in self.order for y in self.order)], over the
    pairs in the order the generator yields them. *)
Fixpoint all_ally (g : t) (pairs : list (Z * Z)) : result bool :=
  match pairs with
  | [] => Ok true
  | (x, y) :: pairs' =>
      ex ← deref g x;
      ey ← deref g y;
      if Entity.ally ex ey then all_ally g pairs' else Ok false
  end.

Definition order_pairs (g : t) : list (Z * Z) :=
  x ← order g; y ← order g; [(x, y)].

Record step_result : Type := mk_step {
  outcome_state : tensor;
  reward : Z;
  done : bool;
  next_state : tensor;
  next_agent : Z
}.

Definition step (g : t) (agent action : Z) : result (step_result * t) :=
  '(outcome, reward, g1) ← apply_action g agent action;
  done ← all_ally g1 (order_pairs g1);
  '(next, g2) ← pop g1;
  next_st ← generate_state g2 next;
  Ok ({| outcome_state := outcome; reward := reward; done := done;
           next_state := next_st; next_agent := next |}, g2).

(** The game loop of driver.py without the agents' choices: a sequence of
    [step] calls, each with the acting entity and its action. *)
Fixpoint play (g : t) (moves : list (Z * Z)) : result t :=
  match moves with
  | [] => Ok g
  | (agent, action) :: moves' => r ← step g agent action; play r.2 moves'
  end.

(** The loop of [reset]: [self.board.add(eid, x, y)] for every recorded
    initial position. *)
Fixpoint place_all (b : Board.t) (l : list (Z * (Z * Z))) : result Board.t :=
  match l with
  | [] => Ok b
  | (eid, (x, y)) :: l' => b1 ← Board.add b eid x y; place_all b1 l'
  end.

Definition reset (g : t) : result (tensor * Z * t) :=
  let g1 := initiative g in
  b0 ← Board.init (rows g1) (cols g1);
  let g2 := set_dead (set_board g1 b0) ∅ in
  b ← place_all (board g2) (initial_position g2);
  let g3 := set_board g2 b in
  '(starting_agent, g4) ← pop g3;
  state ← generate_state g4 starting_agent;
  Ok (state, starting_agent, g4).

End Engine.

(** Every entity of the list [l] is of one and the same kind. *)
Definition same_faction (g : t) (l : list Z) : Prop :=
  ∃ k, ∀ x, x ∈ l → ∃ e, objs g !! x = Some e ∧ Entity.kind e = k.

(** The entity [e] is in the store, on the board within the bounds of the
    game, and has an index below the number of registered entities. *)
Definition seated (g : t) (e : Z) : Prop :=
  ∃ x y i, Board.loc (board g) !! e = Some (x, y) ∧
           0 ≤ x < rows g ∧ 0 ≤ y < cols g ∧
           agent_index g !! e = Some i ∧ 0 ≤ i < n_agents g ∧
           is_Some (objs g !! e).

(** A state in which every entity of the order can be rendered. *)
Definition playable (g : t) : Prop :=
  0 ≤ rows g ∧ 0 ≤ cols g ∧ 0 ≤ n_agents g ∧ cell_dim g = 5 ∧
  Forall (seated g) (order g).

(** Two states of a game with the same registrations. *)
Definition same_registry (g g' : t) : Prop :=
  rows g = rows g' ∧ cols g = cols g' ∧ agents g = agents g' ∧
  initial_position g = initial_position g' ∧ agent_index g = agent_index g' ∧
  n_agents g = n_agents g' ∧ cell_dim g = cell_dim g' ∧
  index_to_agent g = index_to_agent g'.

(** What holds while the entities are being registered: the registry is
    in order and the board is the one [reset] will rebuild. *)
Record registering (g : t) : Prop := {
  rg_dims : cell_dim g = 5 ∧ n_agents g = Z.of_nat (length (agents g));
  rg_agents : (agents g).*2 = (agents g).*1 ∧ NoDup (agents g).*1 ∧
              (initial_position g).*1 = (agents g).*1;
  rg_index : ∀ e, e ∈ (agents g).*1 →
                  ∃ i, agent_index g !! e = Some i ∧ 0 ≤ i < n_agents g;
  rg_board : ∃ b0, Board.init (rows g) (cols g) = Ok b0 ∧
                   place_all b0 (initial_position g) = Ok (board g);
  rg_targets : ∀ i a, index_to_agent g !! i = Some a → a ∈ (agents g).*1
}.

(** What holds of the state during an episode: the board is consistent,
    the order has no repetition and only entities that are on the board,
    every registered entity outside the dead set is in the order, and the
    indices of the action space point to registered entities. *)
Record episode_ok (g : t) : Prop := {
  ep_board : Board.inv (board g);
  ep_nodup : NoDup (order g);
  ep_seated : ∀ e, e ∈ order g → Board.belongs (board g) e = true;
  ep_living : ∀ e, e ∈ (agents g).*1 → e ∉ dead g → e ∈ order g;
  ep_targets : ∀ i a, index_to_agent g !! i = Some a → a ∈ (agents g).*1
}.

(** The part of the state that only a kill or a move changes. *)
Definition same_arena (g g' : t) : Prop :=
  board g = board g' ∧ order g = order g' ∧ dead g = dead g'.

(** The sign of the reward of a hit: -2 on the attacker itself, -1 on
    another entity of its kind, +1 on an entity of the other kind. *)
Definition attack_factor (agent target : Z) (a tg : Entity.t) : Z :=
  if bool_decide (target = agent) then -2
  else if bool_decide (Entity.kind a = Entity.kind tg) then -1
  else 1.

(** What the specification calls the decoded action. *)
Inductive action : Type :=
| Attack (index : Z)
| Heal (index : Z)
| MoveUp
| MoveDown
| MoveLeft
| MoveRight.

(** The decoding as the specification words it, for [n] registered
    entities: [0..n) attack, [n..2n) heal, then up, down, left, right. *)
Definition spec_decode (n a : Z) : option action :=
  if bool_decide (0 ≤ a < n) then Some (Attack a)
  else if bool_decide (n ≤ a < 2 * n) then Some (Heal (a - n))
  else if bool_decide (a = 2 * n) then Some MoveUp
  else if bool_decide (a = 2 * n + 1) then Some MoveDown
  else if bool_decide (a = 2 * n + 2) then Some MoveLeft
  else if bool_decide (a = 2 * n + 3) then Some MoveRight
  else None.

(** The handler the specification attaches to a decoded action. *)
Definition resolve (entropy : nat → Z) (g : t) (agent : Z) (act : action)
    : result (Z * t) :=
  match act with
  | Attack i => handle_attack entropy g agent i
  | Heal i => handle_heal entropy g agent i
  | MoveUp => handle_up g agent
  | MoveDown => handle_down g agent
  | MoveLeft => handle_left g agent
  | MoveRight => handle_right g agent
  end.

(** The category [generate_state] gives an entity [a] of the order, seen by
    the entity [c]: 0 for the observer itself, 1 and 2 for a melee and a
    ranged entity of its kind, 3 and 4 for a melee and a ranged entity of
    the other kind. *)
Definition category (a c : Entity.t) (is_self : bool) : Z :=
  if is_self then 0
  else if Entity.ally a c then (if Entity.ranged a then 2 else 1)
  else (if Entity.ranged a then 4 else 3).

(** The entry [generate_state] sets for the entity [e] of the order. *)
Definition cell_of (g : t) (current e : Z) : Z * Z * Z * Z :=
  match Board.loc (board g) !! e, agent_index g !! e,
        objs g !! e, objs g !! current with
  | Some (x, y), Some i, Some a, Some c =>
      (x, y, i, category a c (bool_decide (e = current)))
  | _, _, _, _ => (0, 0, 0, 0)
  end.

(** [n] calls of [pop] in a row, with the entities they return. *)
Fixpoint pop_many (n : nat) (g : t) : result (list Z * t) :=
  match n with
  | O => Ok ([], g)
  | S n' =>
      '(agent, g1) ← pop g;
      '(agents, g2) ← pop_many n' g1;
      Ok (agent :: agents, g2)
  end.

(** Every entity of the store is in good health, deals no negative damage
    and holds no negative number of potions. *)
Definition store_health (g : t) : Prop :=
  ∀ e ent, objs g !! e = Some ent →
    Entity.health_ok ent ∧ -2 ≤ Entity.dmod ent ∧ 0 ≤ Entity.potions ent.

(** What can have become of an entity in the course of a game. *)
Definition evolves (ent ent' : Entity.t) : Prop :=
  Entity.max_hp ent' = Entity.max_hp ent ∧ Entity.kind ent' = Entity.kind ent ∧
  Entity.amod ent' = Entity.amod ent ∧ Entity.dmod ent' = Entity.dmod ent ∧
  Entity.ac ent' = Entity.ac ent ∧ Entity.ranged ent' = Entity.ranged ent ∧
  Entity.potions ent' ≤ Entity.potions ent.

(** ... and, for an entity in good health hit by no negative damage: it is
    never revived. *)
Definition ages (ent ent' : Entity.t) : Prop :=
  evolves ent ent' ∧ (Entity.alive ent = false → Entity.alive ent' = false).

(** The bookkeeping of an episode: every registered entity is either in the
    order or in the dead set, and the board holds the order. *)
Record census_ok (g : t) : Prop := {
  cs_count : Z.of_nat (length (order g)) + Z.of_nat (size (dead g)) = n_agents g;
  cs_apart : ∀ e, e ∈ order g → e ∉ dead g;
  cs_board : ∀ e, Board.belongs (board g) e = true → e ∈ order g
}.

(** What a step needs of the state besides [episode_ok]: the sizes of the
    game are those of its board, every registered entity has an index, an
    entity in the store and (unless the game is silenced) a label, every
    index below [n_agents] points to a registered entity, and the order
    holds registered entities only. *)
Record wired (g : t) : Prop := {
  wr_dims : 0 ≤ rows g ∧ 0 ≤ cols g ∧ 0 ≤ n_agents g ∧ cell_dim g = 5 ∧
            Board.rows (board g) = rows g ∧ Board.cols (board g) = cols g;
  wr_index : ∀ e, e ∈ (agents g).*1 →
                  ∃ i, agent_index g !! e = Some i ∧ 0 ≤ i < n_agents g;
  wr_actions : ∀ i, 0 ≤ i < n_agents g →
                    ∃ a, index_to_agent g !! i = Some a ∧ a ∈ (agents g).*1;
  wr_store : ∀ e, e ∈ (agents g).*1 → is_Some (objs g !! e);
  wr_labels : silence g = false →
              ∀ e, e ∈ (agents g).*1 → is_Some (label_map g !! e);
  wr_order : ∀ e, e ∈ order g → e ∈ (agents g).*1
}.

(** The state [g'] has the registrations, labels and board sizes of [g],
    at least its entities in the store and at most its entities in the
    order. *)
Definition same_wiring (g' g : t) : Prop :=
  same_registry g' g ∧ silence g' = silence g ∧ label_map g' = label_map g ∧
  Board.rows (board g') = Board.rows (board g) ∧
  Board.cols (board g') = Board.cols (board g) ∧
  (∀ e, is_Some (objs g !! e) → is_Some (objs g' !! e)) ∧
  (∀ e, e ∈ order g' → e ∈ order g).

(** The action [a] is resolved by the handler call [h]: [apply_action]
    is that call followed by the observation of the acting entity. *)
Definition resolved_by (entropy : nat → Z) (g : t) (agent a : Z)
    (h : result (Z * t)) : Prop :=
  apply_action entropy g agent a =
    ('(reward, g1) ← h;
     outcome_state ← generate_state g1 agent;
     Ok (outcome_state, reward, g1)).

End Game.

(** ** player.py *)

Module Player.

(** A [Player] is an [Entity] with a strategy. *)
Record t : Type := mk {
  entity : Entity.t;
  strategy : string
}.

(** How a read of the keyboard ends when it gives no answer: the input is
    exhausted ([input] raises EOFError), or an exception of the game's own
    list is raised. *)
Inductive fault : Type :=
| EOFError
| Exception (e : exn).

(** The result of code that reads lines from the keyboard: the answer with
    the lines that are left, or the fault.  What the code prints is not
    modelled. *)
Inductive reply (A : Type) : Type :=
| Answer (a : A) (rest : list string)
| Fails (f : fault).
Arguments Answer {A} a rest.
Arguments Fails {A} f.

Definition VALID_INPUTS : list string := ["w"; "a"; "s"; "d"; "q"; "e"].

Section Keyboard.
(** [str.lower], and [int] on a line ([None] when it raises ValueError). *)
Variable lower : string → string.
Variable int : string → option Z.

(** The first [input] and the loop [while not valid]: lines are read until
    the lowered line is one of [VALID_INPUTS]. *)
Fixpoint read_key (lines : list string) : reply string :=
  match lines with
  | [] => Fails EOFError
  | line :: rest =>
      let ain := lower line in
      if bool_decide (ain ∈ VALID_INPUTS) then Answer ain rest
      else read_key rest
  end.

(** The first [int(input(...))] and the loop that repeats it until the
    target is in [0, n). *)
Fixpoint read_target (n : Z) (lines : list string) : reply Z :=
  match lines with
  | [] => Fails EOFError
  | line :: rest =>
      match int line with
      | None => Fails (Exception ValueError)
      | Some target =>
          if (0 <=? target) && (target <? n) then Answer target rest
          else read_target n rest
      end
  end.

Definition get_manual_action (p : Entity.t) (lines : list string)
    : reply (option Z) :=
  match read_key lines with
  | Fails f => Fails f
  | Answer ain rest =>
      if bool_decide (ain = "w") then Answer (Some (Entity.action_dim p - 1)) rest
      else if bool_decide (ain = "s") then
        Answer (Some (Entity.action_dim p - 2)) rest
      else if bool_decide (ain = "a") then
        Answer (Some (Entity.action_dim p - 3)) rest
      else if bool_decide (ain = "d") then
        Answer (Some (Entity.action_dim p - 4)) rest
      else if bool_decide (ain = "q") then
        match read_target (Entity.n_agents p) rest with
        | Fails f => Fails f
        | Answer target rest' => Answer (Some target) rest'
        end
      else if bool_decide (ain = "e") then
        match read_target (Entity.n_agents p) rest with
        | Fails f => Fails f
        | Answer target rest' => Answer (Some (Entity.n_agents p + target)) rest'
        end
      else Answer None rest
  end.

Variable entropy : nat → Z.

(** [random.randint(0, self.action_dim-1)] *)
Definition get_random_action (p : Entity.t) (k : nat) : result (Z * nat) :=
  Utils.randint entropy 0 (Entity.action_dim p - 1) k.

(** [get_action]: the action ([None] when the strategy yields none) with
    the position of the random source, and the lines that are left.
    [get_nearest_action] and [get_flee_action] have the body [pass]. *)
Definition get_action (p : t) (lines : list string) (k : nat)
    : reply (option Z * nat) :=
  if bool_decide (strategy p = "manual") then
    match get_manual_action (entity p) lines with
    | Fails f => Fails f
    | Answer a rest => Answer (a, k) rest
    end
  else if bool_decide (strategy p = "random") then
    match get_random_action (entity p) k with
    | Raise e => Fails (Exception e)
    | Ok (a, k') => Answer (Some a, k') lines
    end
  else if bool_decide (strategy p = "nearest") then Answer (None, k) lines
  else if bool_decide (strategy p = "flee") then Answer (None, k) lines
  else Answer (None, k) lines.

End Keyboard.

End Player.

(** ** Concrete boards and games *)

Module Scenario.

Definition value {A} (d : A) (r : result A) : A :=
  match r with Ok a => a | Raise _ => d end.

(** [Board(3, 3)] *)
Definition board3 : Board.t :=
  {| Board.grid := ∅; Board.rows := 3; Board.cols := 3;
     Board.ents := ∅; Board.loc := ∅ |}.

(** Two entities side by side, one moves down, the other is removed. *)
Definition pair_ops : list Board.op :=
  [Board.Add 1 0 0; Board.Add 2 0 1; Board.Move 0 1 1 1; Board.Remove 1].

Definition board_after_pair_ops : Board.t :=
  value board3 (Board.run pair_ops board3).

(** Handles 1 and 2 next to each other on the top row. *)
Definition board_pair : Board.t :=
  value board3 (Board.run [Board.Add 1 0 0; Board.Add 2 0 1] board3).

(** The same handle added to two free cells. *)
Definition twice_ops : list Board.op := [Board.Add 1 0 0; Board.Add 1 0 1].

(** A random source that replays the list [l] and then yields zeros. *)
Definition tape (l : list Z) : nat → Z := λ k, nth k l 0.

(** A shuffle that reverses the list and takes one draw. *)
Definition reversal (l : list Z) (k : nat) : list Z * nat := (rev l, S k).

(** Three entities built as in driver.py, with smaller hit points for the
    enemies; the second enemy is ranged and has no potion. *)
Definition p1 : Entity.t := Entity.init Entity.Player 3 3 20 10 1 false 3 "Player 1".
Definition e1 : Entity.t := Entity.init Entity.Enemy 3 3 6 10 1 false 3 "Enemy 1".
Definition e2 : Entity.t := Entity.init Entity.Enemy 3 3 15 10 0 true 3 "Enemy 2".

Definition store : gmap Z Entity.t := {[ 101 := p1; 201 := e1; 202 := e2 ]}.

Definition blank : Game.t :=
  {| Game.silence := false; Game.board := board3; Game.rows := 3; Game.cols := 3;
     Game.agents := []; Game.order := []; Game.initial_position := [];
     Game.agent_index := ∅; Game.index_to_agent := ∅; Game.n_agents := 0;
     Game.cell_dim := 5; Game.label_map := ∅; Game.dead := ∅;
     Game.objs := store; Game.rng := 0 |}.

Definition registrations : list (Z * Z * Z * string) :=
  [(101, 0, 0, "P1"); (201, 0, 1, "E1"); (202, 2, 2, "E2")].

(** The game after [g.add] of the three entities. *)
Definition registered : Game.t := value blank (Game.add_all registrations blank).

(** The game after [g.reset()]; the random source hits with every attack
    (d20 = 20), rolls 2d6 = 7 and 2d4 = 4. *)
Definition dice : nat → Z := tape [0; 19; 2; 3; 1; 1; 19; 2; 3; 19; 2; 3].

Definition started : Game.t :=
  value blank (r ← Game.reset reversal registered; Ok r.2).

(** A game with a single entity of five hit points, after [reset]. *)
Definition loner : Entity.t := Entity.init Entity.Player 3 3 5 10 1 false 1 "Player 1".

Definition solo_blank : Game.t := Game.set_objs blank {[ 101 := loner ]}.

Definition solo : Game.t :=
  value blank (g ← Game.add solo_blank 101 0 0 "P1";
               r ← Game.reset reversal g; Ok r.2).

(** The three entities again, the player down to five hit points. *)
Definition finale : Game.t :=
  value blank (r ← Game.reset reversal
                     (Game.set_objs registered (<[101 := loner]> store));
               Ok r.2).

(** The state after the ranged enemy has killed the player in [finale]. *)
Definition aftermath : Game.t :=
  value blank (r ← Game.step dice finale 202 0; Ok r.2).

Definition no_tensor : Game.tensor :=
  {| Game.shape := (0, 0, 0, 0); Game.ones := ∅ |}.

Definition no_step : Game.step_result :=
  {| Game.outcome_state := no_tensor; Game.reward := 0; Game.done := false;
     Game.next_state := no_tensor; Game.next_agent := 0 |}.

(** A keyboard whose [lower] knows the capital W and whose [int] knows the
    digits 0, 1, 2 and 7. *)
Definition lower_w (s : string) : string :=
  if bool_decide (s = "W") then "w" else s.

Definition digit (s : string) : option Z :=
  if bool_decide (s = "0") then Some 0
  else if bool_decide (s = "1") then Some 1
  else if bool_decide (s = "2") then Some 2
  else if bool_decide (s = "7") then Some 7
  else None.

Definition manual_p1 : Player.t := {| Player.entity := p1; Player.strategy := "manual" |}.

End Scenario.

(** * Properties *)

(** ** Outcomes: inversion of a successful sequence *)

Lemma bind_Ok {A B} (m : result A) (k : A → result B) (b : B) :
  m ≫= k = Ok b ↔ ∃ a, m = Ok a ∧ k a = Ok b.
Proof.
  destruct m as [a|e]; simpl; split.
  - eauto.
  - by intros (a' & [= ->] & ?).
  - done.
  - by intros (a' & ? & ?).
Qed.

Ltac ret := cbn [mbind result_bind].

Lemma assert_Ok (c : bool) (u : unit) : assert c = Ok u ↔ c = true.
Proof. destruct c, u; simpl; split; congruence. Qed.


(** ** Entity: hit points and the alive flag *)

Section EntityHealth.
Import Entity.

Lemma take_damage_health (e : t) (p : Z) :
  0 ≤ p → health_ok e → health_ok (take_damage e p).
Proof.
  intros Hp [Hmax Hal]. unfold health_ok, take_damage. simpl. split; [lia|done].
Qed.

Lemma heal_health (e : t) (p : Z) :
  0 ≤ p → health_ok e → health_ok (heal e p).
Proof.
  intros Hp [Hmax Hal]. unfold health_ok, heal.
  destruct (alive e) eqn:Ea; simpl; [|by rewrite Ea].
  rewrite Ea. symmetry in Hal. apply Z.ltb_lt in Hal.
  split; [lia|]. symmetry. apply Z.ltb_lt. lia.
Qed.

Lemma apply_health (e : t) (o : op) :
  0 ≤ points_of o → health_ok e → health_ok (apply e o).
Proof. destruct o; simpl; auto using take_damage_health, heal_health. Qed.

Lemma apply_max_hp (e : t) (o : op) : max_hp (apply e o) = max_hp e.
Proof. destruct o as [p|p]; simpl; [done|]. unfold heal. by destruct (alive e). Qed.

Lemma apply_stays_dead (e : t) (o : op) :
  0 ≤ points_of o → health_ok e → alive e = false → alive (apply e o) = false.
Proof.
  intros Hp [_ Hal] Hdead. rewrite Hdead in Hal. symmetry in Hal.
  apply Z.ltb_ge in Hal. destruct o as [p|p]; simpl in *.
  - apply Z.ltb_ge. lia.
  - unfold heal. by rewrite Hdead.
Qed.

Lemma run_health (ops : list op) (e : t) :
  Forall (λ o, 0 ≤ points_of o) ops → health_ok e →
  health_ok (run ops e) ∧ max_hp (run ops e) = max_hp e ∧
  (alive e = false → alive (run ops e) = false).
Proof.
  unfold run. intros Hops. revert e.
  induction Hops as [|o ops Ho Hops IH]; intros e He; simpl; [done|].
  destruct (IH (apply e o) (apply_health e o Ho He)) as (H1 & H2 & H3).
  split_and!; [done|by rewrite H2, apply_max_hp|].
  intros Hdead. apply H3. by apply apply_stays_dead.
Qed.

Lemma init_health_ok k am dm h a pt r n l :
  0 < h → health_ok (init k am dm h a pt r n l).
Proof.
  intros Hh. split; simpl; [lia|]. symmetry. by apply Z.ltb_lt.
Qed.

(** C6, as the code has it.  For an entity whose hit points are at most
    its maximum and whose alive flag says whether they are positive (a
    freshly built entity with positive hit points is such), and for every
    sequence of [take_damage] and [heal] calls with non-negative amounts:
    the hit points stay at most [max_hp] (they may go below zero), the
    alive flag equals [hp > 0], an entity that is not alive after a prefix
    of the sequence is not alive at its end, and [heal] leaves an entity
    that is not alive unchanged. *)
Theorem entity_health_invariant (e : t) (ops : list op) :
  health_ok e →
  Forall (λ o, 0 ≤ points_of o) ops →
  hp (run ops e) ≤ max_hp e ∧
  alive (run ops e) = (0 <? hp (run ops e)) ∧
  (∀ ops1 ops2, ops = ops1 ++ ops2 →
     alive (run ops1 e) = false → alive (run ops e) = false) ∧
  (∀ p, alive (run ops e) = false → heal (run ops e) p = run ops e).
Proof.
  intros He Hops.
  destruct (run_health ops e Hops He) as ([Hmax Hal] & Hm & _).
  split_and!.
  - by rewrite <- Hm.
  - done.
  - intros ops1 ops2 -> Hdead. apply Forall_app in Hops as [Hops1 Hops2].
    destruct (run_health ops1 e Hops1 He) as (He1 & _ & _).
    destruct (run_health ops2 (run ops1 e) Hops2 He1) as (_ & _ & Hstay).
    unfold run in *. rewrite foldl_app. by apply Hstay.
  - intros p Hdead. unfold heal. by rewrite Hdead.
Qed.

Lemma entity_health_invariant_witness :
  let e := init Player 3 3 20 10 1 false 2 "P1" in
  let ops := [TakeDamage 7; Heal 4; TakeDamage 30; Heal 5] in
  hp (run ops e) = -13 ∧
  hp (run ops e) ≤ max_hp e ∧
  alive (run ops e) = (0 <? hp (run ops e)).
Proof.
  intros e ops.
  assert (He : health_ok e) by (apply init_health_ok; lia).
  assert (Hops : Forall (λ o, 0 ≤ points_of o) ops)
    by (repeat constructor; simpl; lia).
  destruct (entity_health_invariant e ops He Hops) as (H1 & H2 & _).
  split_and!; [reflexivity|exact H1|exact H2].
Defined.

(** C6 as stated fails: damage beyond the remaining hit points leaves the
    hit points negative. *)
Lemma entity_hp_below_zero :
  let e := init Player 3 3 5 10 1 false 2 "P1" in
  health_ok e ∧
  hp (run [TakeDamage 7] e) = -2 ∧
  ¬ (0 ≤ hp (run [TakeDamage 7] e) ≤ max_hp (run [TakeDamage 7] e)).
Proof.
  split_and!; [by apply init_health_ok|reflexivity|]. simpl. lia.
Qed.

End EntityHealth.

(** ** Board: the adjacency query *)

Section BoardNear.
Import Board.

Lemma contains_true `{Countable K} {V} (d : gmap K V) (k : K) :
  contains d k = true ↔ ∃ v, d !! k = Some v.
Proof. unfold contains. rewrite bool_decide_eq_true. done. Qed.

Lemma contains_false `{Countable K} {V} (d : gmap K V) (k : K) :
  contains d k = false ↔ d !! k = None.
Proof.
  unfold contains. rewrite bool_decide_eq_false, <- eq_None_not_Some. done.
Qed.

Lemma query_Some (b : t) (e : Z) (p : Z * Z) :
  loc b !! e = Some p → query b e = Ok p.
Proof.
  intros Hl. unfold query, getitem.
  assert (contains (loc b) e = true) as -> by (apply contains_true; eauto).
  simpl. by rewrite Hl.
Qed.

Lemma near_on_board (b : t) (e1 e2 : Z) (x1 y1 x2 y2 : Z) :
  loc b !! e1 = Some (x1, y1) → loc b !! e2 = Some (x2, y2) → e1 ≠ e2 →
  near b e1 e2 =
    Ok (bool_decide (x1 + 1 = x2) && bool_decide (y1 = y2)
        || bool_decide (x1 - 1 = x2) && bool_decide (y1 = y2)
        || bool_decide (x1 = x2) && bool_decide (y1 + 1 = y2)
        || bool_decide (x1 = x2) && bool_decide (y1 - 1 = y2)).
Proof.
  intros H1 H2 Hne. unfold near.
  assert (contains (loc b) e1 = true) as -> by (apply contains_true; eauto).
  assert (contains (loc b) e2 = true) as -> by (apply contains_true; eauto).
  simpl. rewrite bool_decide_eq_false_2 by done.
  rewrite (query_Some _ _ _ H1). simpl. by rewrite (query_Some _ _ _ H2).
Qed.

Lemma near_self (b : t) (e : Z) :
  belongs b e = true → near b e e = Ok true.
Proof.
  unfold belongs, near. intros ->. simpl. by rewrite bool_decide_eq_true_2.
Qed.

Lemma near_first_absent (b : t) (e1 e2 : Z) :
  belongs b e1 = false → near b e1 e2 = Raise AssertionError.
Proof. unfold belongs, near. by intros ->. Qed.

Lemma near_second_absent (b : t) (e1 e2 : Z) :
  belongs b e1 = true → belongs b e2 = false → near b e1 e2 = Ok false.
Proof. unfold belongs, near. by intros -> ->. Qed.

Lemma adjacent_cells_sym (x1 y1 x2 y2 : Z) :
  (bool_decide (x1 + 1 = x2) && bool_decide (y1 = y2)
   || bool_decide (x1 - 1 = x2) && bool_decide (y1 = y2)
   || bool_decide (x1 = x2) && bool_decide (y1 + 1 = y2)
   || bool_decide (x1 = x2) && bool_decide (y1 - 1 = y2))
  = (bool_decide (x2 + 1 = x1) && bool_decide (y2 = y1)
     || bool_decide (x2 - 1 = x1) && bool_decide (y2 = y1)
     || bool_decide (x2 = x1) && bool_decide (y2 + 1 = y1)
     || bool_decide (x2 = x1) && bool_decide (y2 - 1 = y1)).
Proof.
  repeat case_bool_decide; simpl; try reflexivity; lia.
Qed.

(** C8, as the code has it.  [near(h, h)] returns true exactly when [h] is
    on the board; for two distinct handles that are both on the board
    [near(a, c)] equals [near(c, a)]; [near] returns false when the first
    handle is on the board and the second is not; and when the first
    handle is off the board [near] fails its assertion instead of
    returning false (also in the self case). *)
Theorem near_cases (b : t) (a c : Z) :
  (near b a a = Ok true ↔ belongs b a = true) ∧
  (a ≠ c → belongs b a = true → belongs b c = true →
     near b a c = near b c a ∧ ∃ r, near b a c = Ok r) ∧
  (belongs b a = true → belongs b c = false → near b a c = Ok false) ∧
  (belongs b a = false → near b a c = Raise AssertionError).
Proof.
  split_and!.
  - split; [|apply near_self].
    destruct (belongs b a) eqn:E; [done|].
    by rewrite (near_first_absent b a a E).
  - intros Hne [[x1 y1] H1]%contains_true [[x2 y2] H2]%contains_true.
    rewrite (near_on_board b a c x1 y1 x2 y2 H1 H2 Hne).
    rewrite (near_on_board b c a x2 y2 x1 y1 H2 H1) by done.
    rewrite adjacent_cells_sym. eauto.
  - apply near_second_absent.
  - apply near_first_absent.
Qed.

End BoardNear.

(** ** Board: the invariant under [add], [remove] and [move] *)

Section BoardInvariant.
Import Board.

Lemma inbounds_true b x y : inbounds b x y = true ↔ 0 ≤ x < rows b ∧ 0 ≤ y < cols b.
Proof. unfold inbounds. rewrite !andb_true_iff, !Z.leb_le, !Z.ltb_lt. lia. Qed.

Lemma np_index_in (n i : Z) : 0 ≤ i < n → np_index n i = Ok i.
Proof.
  intros Hi. unfold np_index.
  assert ((0 <=? i) && (i <? n) = true) as ->; [|done].
  apply andb_true_iff. rewrite Z.leb_le, Z.ltb_lt. lia.
Qed.

Lemma free_Ok b x y f : free b x y = Ok f ↔ inbounds b x y = true ∧ f = negb (bool_decide ((x,y) ∈ grid b)).
Proof.
  unfold free, grid_get. split.
  - intros (u & Hin%assert_Ok & H)%bind_Ok. split; [done|].
    apply inbounds_true in Hin as [Hx Hy].
    rewrite (np_index_in _ _ Hx), (np_index_in _ _ Hy) in H. simpl in H. congruence.
  - intros [Hin ->]. rewrite Hin. simpl.
    apply inbounds_true in Hin as [Hx Hy].
    by rewrite (np_index_in _ _ Hx), (np_index_in _ _ Hy).
Qed.

Lemma board_add_Ok b eid x y b' :
  add b eid x y = Ok b' ↔
  inbounds b x y = true ∧ ((x, y) ∉ grid b) ∧
  b' = {| grid := {[ (x, y) ]} ∪ grid b; rows := rows b; cols := cols b;
          ents := <[(x, y) := eid]> (ents b); loc := <[eid := (x, y)]> (loc b) |}.
Proof.
  unfold add. split.
  - intros (f & [Hin ->]%free_Ok & H)%bind_Ok.
    apply bind_Ok in H as (u & Hf%assert_Ok & H).
    apply negb_true_iff, bool_decide_eq_false in Hf.
    rewrite Hin in H. simpl in H. unfold grid_set in H.
    pose proof Hin as [Hx Hy]%inbounds_true.
    rewrite (np_index_in _ _ Hx), (np_index_in _ _ Hy) in H. simpl in H.
    injection H as <-. done.
  - intros (Hin & Hg & ->).
    assert (free b x y = Ok true) as ->.
    { apply free_Ok. split; [done|]. by rewrite bool_decide_eq_false_2. }
    simpl. rewrite Hin. simpl. unfold grid_set.
    pose proof Hin as [Hx Hy]%inbounds_true.
    by rewrite (np_index_in _ _ Hx), (np_index_in _ _ Hy).
Qed.

Lemma board_remove_Ok b eid b' :
  inv b →
  remove b eid = Ok b' ↔
  ∃ x y, loc b !! eid = Some (x, y) ∧
  b' = {| grid := grid b ∖ {[ (x, y) ]}; rows := rows b; cols := cols b;
          ents := delete (x, y) (ents b); loc := delete eid (loc b) |}.
Proof.
  intros Hinv. unfold remove. split.
  - intros (u & [[x y] Hl]%assert_Ok%contains_true & H)%bind_Ok.
    rewrite (query_Some _ _ _ Hl) in H. simpl in H. unfold grid_set in H.
    destruct (inv_bounds b Hinv _ _ _ Hl) as [Hx Hy].
    rewrite (np_index_in _ _ Hx), (np_index_in _ _ Hy) in H. simpl in H.
    unfold delitem in H.
    rewrite (proj1 (inv_inverse b Hinv _ _) Hl) in H. simpl in H. rewrite Hl in H.
    simpl in H. injection H as <-. eauto.
  - intros (x & y & Hl & ->).
    assert (contains (loc b) eid = true) as -> by (apply contains_true; eauto).
    simpl. rewrite (query_Some _ _ _ Hl). simpl. unfold grid_set.
    destruct (inv_bounds b Hinv _ _ _ Hl) as [Hx Hy].
    rewrite (np_index_in _ _ Hx), (np_index_in _ _ Hy). simpl. unfold delitem.
    rewrite (proj1 (inv_inverse b Hinv _ _) Hl). simpl. by rewrite Hl.
Qed.

Lemma used_Ok b x y u :
  used b x y = Ok u ↔ inbounds b x y = true ∧ u = bool_decide ((x, y) ∈ grid b).
Proof.
  unfold used. split.
  - intros (? & Hin%assert_Ok & (f & [_ ->]%free_Ok & H)%bind_Ok)%bind_Ok.
    rewrite negb_involutive in H. split; congruence.
  - intros [Hin ->]. rewrite Hin. simpl.
    assert (free b x y = Ok (negb (bool_decide ((x, y) ∈ grid b)))) as ->
      by by apply free_Ok.
    simpl. by rewrite negb_involutive.
Qed.

Lemma board_move_Ok b x y xf yf b' :
  inv b →
  move b x y xf yf = Ok b' ↔
  ∃ eid, ents b !! (x, y) = Some eid ∧ inbounds b xf yf = true ∧
         ((xf, yf) ∉ grid b) ∧
  b' = {| grid := {[ (xf, yf) ]} ∪ grid b ∖ {[ (x, y) ]};
          rows := rows b; cols := cols b;
          ents := <[(xf, yf) := eid]> (delete (x, y) (ents b));
          loc := <[eid := (xf, yf)]> (delete eid (loc b)) |}.
Proof.
  intros Hinv. unfold move. split.
  - intros (? & Hin%assert_Ok & H)%bind_Ok.
    apply bind_Ok in H as (? & Hinf%assert_Ok & H).
    apply bind_Ok in H as (? & [eid He]%assert_Ok%contains_true & H).
    apply bind_Ok in H as (u & [_ ->]%used_Ok & H).
    apply bind_Ok in H as (? & Hu%assert_Ok%bool_decide_eq_true & H).
    apply bind_Ok in H as (f & [_ ->]%free_Ok & H).
    apply bind_Ok in H as (? & Hf%assert_Ok%negb_true_iff%bool_decide_eq_false & H).
    unfold grid_set in H. simpl in H.
    pose proof Hin as [Hx Hy]%inbounds_true.
    pose proof Hinf as [Hxf Hyf]%inbounds_true.
    rewrite (np_index_in _ _ Hx), (np_index_in _ _ Hy) in H. simpl in H.
    rewrite (np_index_in _ _ Hxf), (np_index_in _ _ Hyf) in H. simpl in H.
    unfold getitem, delitem in H. rewrite He in H. simpl in H.
    rewrite (proj2 (inv_inverse b Hinv _ _) He) in H. simpl in H.
    injection H as <-. eauto.
  - intros (eid & He & Hinf & Hf & ->).
    pose proof (proj2 (inv_inverse b Hinv _ _) He) as Hl.
    pose proof (inv_bounds b Hinv _ _ _ Hl) as Hxy.
    pose proof Hxy as Hin%inbounds_true. rewrite Hin, Hinf. simpl.
    assert (contains (ents b) (x, y) = true) as -> by (apply contains_true; eauto).
    simpl.
    assert ((x, y) ∈ grid b) as Hg by (apply (inv_grid b Hinv); eauto).
    assert (used b x y = Ok true) as ->.
    { apply used_Ok. by rewrite bool_decide_eq_true_2. }
    simpl.
    assert (free b xf yf = Ok true) as ->.
    { apply free_Ok. by rewrite bool_decide_eq_false_2. }
    simpl. unfold grid_set. simpl.
    destruct Hxy as [Hx Hy]. pose proof Hinf as [Hxf Hyf]%inbounds_true.
    rewrite (np_index_in _ _ Hx), (np_index_in _ _ Hy). simpl.
    rewrite (np_index_in _ _ Hxf), (np_index_in _ _ Hyf). simpl.
    unfold getitem, delitem. rewrite He. simpl. by rewrite Hl.
Qed.

Lemma board_init_Ok r c b : init r c = Ok b → inv b ∧ grid b = ∅ ∧ rows b = r ∧ cols b = c.
Proof.
  unfold init. destruct ((r <? 0) || (c <? 0)); [done|]. intros [= <-]. simpl.
  split_and!; try done. split; simpl.
  - intros e p. by rewrite !lookup_empty.
  - intros p. rewrite lookup_empty. split; [set_solver|by intros [? ?]].
  - intros e x y. by rewrite lookup_empty.
Qed.

Lemma board_add_inv b eid x y b' :
  inv b → belongs b eid = false → add b eid x y = Ok b' →
  inv b' ∧ size (grid b') = S (size (grid b)) ∧ rows b' = rows b ∧ cols b' = cols b.
Proof.
  intros Hinv Hfresh%contains_false (Hin & Hg & ->)%board_add_Ok. simpl.
  assert (ents b !! (x, y) = None) as Hcell.
  { apply eq_None_not_Some. by rewrite <- (inv_grid b Hinv). }
  split_and!; try done.
  - split; simpl.
    + intros e p. destruct (decide (e = eid)) as [->|He], (decide (p = (x, y))) as [->|Hp];
        simplify_map_eq; try done.
      * split; [congruence|]. intros Hp'%(inv_inverse b Hinv). congruence.
      * split; [|congruence]. intros Hp'%(inv_inverse b Hinv). congruence.
      * apply (inv_inverse b Hinv).
    + intros p. rewrite elem_of_union, elem_of_singleton, (inv_grid b Hinv).
      destruct (decide (p = (x, y))) as [->|Hp]; simplify_map_eq; [split; eauto|].
      tauto.
    + intros e x0 y0. destruct (decide (e = eid)) as [->|He]; simplify_map_eq.
      * intros [= <- <-]. by apply inbounds_true.
      * apply (inv_bounds b Hinv).
  - rewrite size_union by set_solver. by rewrite size_singleton.
Qed.

Lemma board_remove_inv b eid b' :
  inv b → remove b eid = Ok b' →
  inv b' ∧ S (size (grid b')) = size (grid b) ∧ rows b' = rows b ∧ cols b' = cols b.
Proof.
  intros Hinv H. apply (board_remove_Ok _ _ _ Hinv) in H as (x & y & Hl & ->). simpl.
  pose proof (proj1 (inv_inverse b Hinv _ _) Hl) as He.
  split_and!; try done.
  - split; simpl.
    + intros e p. destruct (decide (e = eid)) as [->|Hne], (decide (p = (x, y))) as [->|Hp];
        simplify_map_eq; try done.
      * split; [done|]. intros Hp'%(inv_inverse b Hinv). congruence.
      * split; [|done]. intros Hp'%(inv_inverse b Hinv). congruence.
      * apply (inv_inverse b Hinv).
    + intros p. rewrite elem_of_difference, elem_of_singleton, (inv_grid b Hinv).
      destruct (decide (p = (x, y))) as [->|Hp]; simplify_map_eq.
      * split; [tauto|by intros [? ?]].
      * tauto.
    + intros e x0 y0. destruct (decide (e = eid)) as [->|Hne]; simplify_map_eq; [done|].
      apply (inv_bounds b Hinv).
  - assert ((x, y) ∈ grid b) as Hg by (apply (inv_grid b Hinv); eauto).
    assert (size (grid b) ≠ 0%nat) by (intros ?%size_empty_inv; set_solver).
    rewrite size_difference by set_solver. rewrite size_singleton. lia.
Qed.

Lemma board_move_inv b x y xf yf b' :
  inv b → move b x y xf yf = Ok b' →
  inv b' ∧ size (grid b') = size (grid b) ∧ rows b' = rows b ∧ cols b' = cols b.
Proof.
  intros Hinv H. apply (board_move_Ok _ _ _ _ _ _ Hinv) in H as (eid & He & Hinf & Hf & ->).
  simpl.
  pose proof (proj2 (inv_inverse b Hinv _ _) He) as Hl.
  assert (ents b !! (xf, yf) = None) as Hcell.
  { apply eq_None_not_Some. by rewrite <- (inv_grid b Hinv). }
  assert ((x, y) ∈ grid b) as Hg by (apply (inv_grid b Hinv); eauto).
  assert ((x, y) ≠ (xf, yf)) as Hne by (intros [= <- <-]; done).
  split_and!; try done.
  - split; simpl.
    + intros e p. destruct (decide (e = eid)) as [->|Hn].
      * rewrite lookup_insert_eq.
        destruct (decide (p = (xf, yf))) as [->|Hp]; simplify_map_eq; [done|].
        split; [congruence|].
        destruct (decide (p = (x, y))) as [->|Hp']; simplify_map_eq; [done|].
        intros Hp''%(inv_inverse b Hinv). congruence.
      * rewrite lookup_insert_ne, lookup_delete_ne by done.
        destruct (decide (p = (xf, yf))) as [->|Hp]; simplify_map_eq.
        { split; [|congruence]. intros Hp'%(inv_inverse b Hinv). congruence. }
        destruct (decide (p = (x, y))) as [->|Hp']; simplify_map_eq.
        { split; [|done]. intros Hp''%(inv_inverse b Hinv). congruence. }
        apply (inv_inverse b Hinv).
    + intros p. rewrite elem_of_union, elem_of_difference, !elem_of_singleton.
      rewrite (inv_grid b Hinv).
      destruct (decide (p = (xf, yf))) as [->|Hp]; simplify_map_eq; [split; eauto|].
      destruct (decide (p = (x, y))) as [->|Hp']; simplify_map_eq.
      * split; [tauto|by intros [? ?]].
      * tauto.
    + intros e x0 y0. destruct (decide (e = eid)) as [->|Hn]; simplify_map_eq.
      * intros [= <- <-]. by apply inbounds_true.
      * apply (inv_bounds b Hinv).
  - rewrite size_union
      by (apply disjoint_singleton_l; by intros [? _]%elem_of_difference).
    rewrite size_singleton.
    assert (size (grid b) ≠ 0%nat) by (intros ?%size_empty_inv; set_solver).
    rewrite size_difference by set_solver. rewrite size_singleton. lia.
Qed.

Lemma board_run_inv (ops : list op) (b b' : t) :
  inv b → run ops b = Ok b' → fresh_adds ops b = true →
  inv b' ∧
  Z.of_nat (size (grid b')) =
    Z.of_nat (size (grid b)) + count is_add ops - count is_remove ops ∧
  rows b' = rows b ∧ cols b' = cols b.
Proof.
  revert b. induction ops as [|o ops IH]; intros b Hinv Hrun Hfresh; simpl in *.
  - injection Hrun as <-. split_and!; [done|lia|done|done].
  - apply bind_Ok in Hrun as (b1 & Hb1 & Hrun).
    apply andb_true_iff in Hfresh as [Ho Hfresh]. rewrite Hb1 in Hfresh.
    destruct o as [eid x y|eid|x y xf yf]; simpl in *.
    + apply negb_true_iff in Ho.
      destruct (board_add_inv _ _ _ _ _ Hinv Ho Hb1) as (Hinv1 & Hsz & Hr & Hc).
      destruct (IH b1 Hinv1 Hrun Hfresh) as (? & Hsz' & -> & ->).
      split_and!; [done|lia|done|done].
    + destruct (board_remove_inv _ _ _ Hinv Hb1) as (Hinv1 & Hsz & Hr & Hc).
      destruct (IH b1 Hinv1 Hrun Hfresh) as (? & Hsz' & -> & ->).
      split_and!; [done|lia|done|done].
    + destruct (board_move_inv _ _ _ _ _ _ Hinv Hb1) as (Hinv1 & Hsz & Hr & Hc).
      destruct (IH b1 Hinv1 Hrun Hfresh) as (? & Hsz' & -> & ->).
      split_and!; [done|lia|done|done].
Qed.

Lemma inv_dom_ents (b : t) : inv b → dom (ents b) = grid b.
Proof.
  intros Hinv. apply set_eq. intros p.
  by rewrite elem_of_dom, (inv_grid b Hinv).
Qed.

(** C7, as the code has it.  On a board built by [Board(rows, cols)], for
    every sequence of [add], [remove] and [move] calls that all pass their
    assertions and in which [add] is never called for a handle that is on
    the board at that moment: [loc] and [ents] are inverses of each other,
    every marked cell of the grid holds exactly one entity, every stored
    coordinate is within the board, and the number of occupied cells is
    the number of [add] calls minus the number of [remove] calls. *)
Theorem board_invariant (r c : Z) (ops : list op) (b0 b : t) :
  init r c = Ok b0 →
  run ops b0 = Ok b →
  fresh_adds ops b0 = true →
  (∀ e p, loc b !! e = Some p ↔ ents b !! p = Some e) ∧
  (∀ p, p ∈ grid b →
     ∃ e, ents b !! p = Some e ∧ ∀ e', loc b !! e' = Some p → e' = e) ∧
  (∀ e x y, loc b !! e = Some (x, y) → 0 ≤ x < r ∧ 0 ≤ y < c) ∧
  Z.of_nat (size (grid b)) = count is_add ops - count is_remove ops ∧
  size (ents b) = size (grid b).
Proof.
  intros (Hinv0 & Hg0 & Hr0 & Hc0)%board_init_Ok Hrun Hfresh.
  destruct (board_run_inv ops b0 b Hinv0 Hrun Hfresh) as (Hinv & Hsz & Hr & Hc).
  rewrite Hg0, size_empty in Hsz. split_and!.
  - apply (inv_inverse b Hinv).
  - intros p [e He]%(inv_grid b Hinv). exists e. split; [done|].
    intros e' He'%(inv_inverse b Hinv). congruence.
  - intros e x y Hl. rewrite <- Hr0, <- Hc0, <- Hr, <- Hc.
    by apply (inv_bounds b Hinv e).
  - lia.
  - by rewrite <- (inv_dom_ents b Hinv), size_dom.
Qed.

End BoardInvariant.

Section BoardExamples.
Import Board Scenario.

Lemma board_pair_run :
  run [Add 1 0 0; Add 2 0 1] board3 = Ok board_pair.
Proof. vm_compute. reflexivity. Qed.

Lemma board_invariant_witness :
  init 3 3 = Ok board3 ∧
  run pair_ops board3 = Ok board_after_pair_ops ∧
  fresh_adds pair_ops board3 = true ∧
  loc board_after_pair_ops !! 2 = Some (1, 1) ∧
  Z.of_nat (size (grid board_after_pair_ops)) = 1 ∧
  (∀ e p, loc board_after_pair_ops !! e = Some p ↔
          ents board_after_pair_ops !! p = Some e).
Proof.
  assert (H0 : init 3 3 = Ok board3) by reflexivity.
  assert (H1 : run pair_ops board3 = Ok board_after_pair_ops)
    by (vm_compute; reflexivity).
  assert (H2 : fresh_adds pair_ops board3 = true) by (vm_compute; reflexivity).
  destruct (board_invariant 3 3 pair_ops board3 board_after_pair_ops H0 H1 H2)
    as (Hinverse & _ & _ & Hcount & _).
  split_and!; [exact H0|exact H1|exact H2|vm_compute; reflexivity|exact Hcount|
               exact Hinverse].
Defined.

(** C7 as stated fails: [add] asserts only that the cell is free, so a
    handle that is already on the board can be added to a second cell;
    both cells then point to the handle and the maps are no longer
    inverses of each other. *)
Lemma board_add_twice_breaks_inverse :
  ∃ b, init 3 3 = Ok board3 ∧
       run twice_ops board3 = Ok b ∧
       ents b !! (0, 0) = Some 1 ∧
       loc b !! 1 = Some (0, 1) ∧
       ¬ (∀ e p, loc b !! e = Some p ↔ ents b !! p = Some e).
Proof.
  exists (value board3 (run twice_ops board3)).
  assert (He : ents (value board3 (run twice_ops board3)) !! (0, 0) = Some 1)
    by (vm_compute; reflexivity).
  assert (Hl : loc (value board3 (run twice_ops board3)) !! 1 = Some (0, 1))
    by (vm_compute; reflexivity).
  split_and!; [reflexivity|vm_compute; reflexivity|exact He|exact Hl|].
  intros Hinv. apply Hinv in He. rewrite Hl in He. discriminate He.
Qed.

Lemma near_cases_witness :
  belongs board_pair 1 = true ∧ belongs board_pair 2 = true ∧
  belongs board_pair 7 = false ∧
  near board_pair 1 1 = Ok true ∧
  near board_pair 1 2 = near board_pair 2 1 ∧
  near board_pair 1 7 = Ok false ∧
  near board_pair 7 1 = Raise AssertionError.
Proof.
  assert (H1 : belongs board_pair 1 = true) by (vm_compute; reflexivity).
  assert (H2 : belongs board_pair 2 = true) by (vm_compute; reflexivity).
  assert (H7 : belongs board_pair 7 = false) by (vm_compute; reflexivity).
  destruct (near_cases board_pair 1 2) as (Hself & Hsym & _ & _).
  destruct (near_cases board_pair 1 7) as (_ & _ & Hsecond & _).
  destruct (near_cases board_pair 7 1) as (_ & _ & _ & Hfirst).
  split_and!; [exact H1|exact H2|exact H7|by apply Hself| |by apply Hsecond|
               by apply Hfirst].
  assert (Hne : (1 : Z) ≠ 2) by lia.
  exact (proj1 (Hsym Hne H1 H2)).
Defined.

(** C8 as stated fails: when the first handle is off the board [near]
    fails its assertion instead of returning false, also in the self
    case, and the query is then not symmetric. *)
Lemma near_first_off_board_raises :
  belongs board_pair 7 = false ∧
  near board_pair 7 1 = Raise AssertionError ∧
  near board_pair 7 1 ≠ Ok false ∧
  near board_pair 7 7 ≠ Ok false ∧
  near board_pair 1 7 ≠ near board_pair 7 1.
Proof. vm_compute. split_and!; (reflexivity || discriminate). Qed.

End BoardExamples.

(** ** Game: decoding of the action *)

Section Decoding.
Import Game.
Variable entropy : nat → Z.

Lemma spec_decode_ranges (n a : Z) :
  0 ≤ n →
  (0 ≤ a < n → spec_decode n a = Some (Attack a)) ∧
  (n ≤ a < 2 * n → spec_decode n a = Some (Heal (a - n)) ∧ 0 ≤ a - n < n) ∧
  (a = 2 * n → spec_decode n a = Some MoveUp) ∧
  (a = 2 * n + 1 → spec_decode n a = Some MoveDown) ∧
  (a = 2 * n + 2 → spec_decode n a = Some MoveLeft) ∧
  (a = 2 * n + 3 → spec_decode n a = Some MoveRight) ∧
  (a < 0 ∨ 2 * n + 4 ≤ a → spec_decode n a = None).
Proof.
  intros Hn. unfold spec_decode.
  split_and!; intros Ha; repeat case_bool_decide; try done; try lia.
  split; [done|lia].
Qed.

Lemma apply_action_dispatch (g : t) (agent a : Z) :
  apply_action entropy g agent a =
    match spec_decode (n_agents g) a with
    | Some act =>
        '(reward, g1) ← resolve entropy g agent act;
        outcome_state ← generate_state g1 agent;
        Ok (outcome_state, reward, g1)
    | None => Raise ValueError
    end.
Proof.
  unfold apply_action, spec_decode.
  destruct (0 <=? a) eqn:E0; destruct (a <? n_agents g) eqn:E1; simpl;
    [rewrite bool_decide_eq_true_2 by lia; done
    |rewrite bool_decide_eq_false_2 by lia
    |rewrite bool_decide_eq_false_2 by lia
    |rewrite bool_decide_eq_false_2 by lia].
  all: destruct (n_agents g <=? a) eqn:E2; destruct (a <? 2 * n_agents g) eqn:E3;
    simpl;
    [rewrite bool_decide_eq_true_2 by lia; done
    |rewrite bool_decide_eq_false_2 by lia
    |rewrite bool_decide_eq_false_2 by lia
    |rewrite bool_decide_eq_false_2 by lia].
  all: destruct (Z.eqb_spec a (2 * n_agents g));
    [rewrite bool_decide_eq_true_2 by lia; done
    |rewrite bool_decide_eq_false_2 by lia].
  all: destruct (Z.eqb_spec a (2 * n_agents g + 1));
    [rewrite bool_decide_eq_true_2 by lia; done
    |rewrite bool_decide_eq_false_2 by lia].
  all: destruct (Z.eqb_spec a (2 * n_agents g + 2));
    [rewrite bool_decide_eq_true_2 by lia; done
    |rewrite bool_decide_eq_false_2 by lia].
  all: destruct (Z.eqb_spec a (2 * n_agents g + 3));
    [rewrite bool_decide_eq_true_2 by lia; done
    |rewrite bool_decide_eq_false_2 by lia; done].
Qed.

(** C4.  With [n >= 1] registered entities, [apply_action] resolves an
    action value exactly as the decoding of the specification says: a value
    in [0, n) is an attack on the entity of that index, a value in [n, 2n) a
    heal on the entity of index [a - n], the values [2n], [2n+1], [2n+2],
    [2n+3] are the moves up, down, left and right, and any value outside
    [0, 2n+4) raises [ValueError] (so it never yields a reward).  The
    seven ranges cover the integers and are pairwise disjoint. *)
Theorem apply_action_partition (g : t) (agent a : Z) :
  1 ≤ n_agents g →
  let n := n_agents g in
  let finish (r : result (Z * t)) : result (tensor * Z * t) :=
    '(reward, g1) ← r;
    outcome_state ← generate_state g1 agent;
    Ok (outcome_state, reward, g1) in
  (0 ≤ a < n →
     apply_action entropy g agent a = finish (handle_attack entropy g agent a)) ∧
  (n ≤ a < 2 * n →
     apply_action entropy g agent a = finish (handle_heal entropy g agent (a - n))
     ∧ 0 ≤ a - n < n) ∧
  (a = 2 * n → apply_action entropy g agent a = finish (handle_up g agent)) ∧
  (a = 2 * n + 1 → apply_action entropy g agent a = finish (handle_down g agent)) ∧
  (a = 2 * n + 2 → apply_action entropy g agent a = finish (handle_left g agent)) ∧
  (a = 2 * n + 3 → apply_action entropy g agent a = finish (handle_right g agent)) ∧
  (a < 0 ∨ 2 * n + 4 ≤ a →
     apply_action entropy g agent a = Raise ValueError ∧
     ∀ st r g', apply_action entropy g agent a ≠ Ok (st, r, g')) ∧
  (0 ≤ a < 2 * n + 4 ↔ is_Some (spec_decode n a)).
Proof.
  intros Hn n finish.
  assert (H0 : 0 ≤ n) by (unfold n; lia).
  destruct (spec_decode_ranges n a H0) as (Hat & Hhe & Hu & Hd & Hl & Hr & Hout).
  split_and!.
  - intros Ha. rewrite apply_action_dispatch. fold n. by rewrite (Hat Ha).
  - intros Ha. destruct (Hhe Ha) as [Hdec Hidx]. split; [|done].
    rewrite apply_action_dispatch. fold n. by rewrite Hdec.
  - intros Ha. rewrite apply_action_dispatch. fold n. by rewrite (Hu Ha).
  - intros Ha. rewrite apply_action_dispatch. fold n. by rewrite (Hd Ha).
  - intros Ha. rewrite apply_action_dispatch. fold n. by rewrite (Hl Ha).
  - intros Ha. rewrite apply_action_dispatch. fold n. by rewrite (Hr Ha).
  - intros Ha. rewrite apply_action_dispatch. fold n. rewrite (Hout Ha).
    split; [done|]. intros st r g'. discriminate.
  - split.
    + intros Ha.
      destruct (decide (a < n)); [rewrite Hat by lia; eauto|].
      destruct (decide (a < 2 * n)); [rewrite (proj1 (Hhe ltac:(lia))); eauto|].
      destruct (decide (a = 2 * n)); [rewrite Hu by lia; eauto|].
      destruct (decide (a = 2 * n + 1)); [rewrite Hd by lia; eauto|].
      destruct (decide (a = 2 * n + 2)); [rewrite Hl by lia; eauto|].
      rewrite Hr by lia; eauto.
    + intros Hs. destruct (decide (0 ≤ a < 2 * n + 4)) as [|Hno]; [done|].
      rewrite Hout in Hs by lia. by destruct Hs.
Qed.

End Decoding.

(** ** Game: registration *)

Section Registration.
Import Game.

Lemma od_set_fresh {V} (k : Z) (v : V) (d : list (Z * V)) :
  k ∉ d.*1 → od_set k v d = d ++ [(k, v)].
Proof.
  induction d as [|[k' v'] d IH]; simpl; [done|].
  intros [Hne Hd]%not_elem_of_cons.
  rewrite bool_decide_eq_false_2 by done. by rewrite IH.
Qed.

Lemma od_set_keys {V} (k : Z) (v : V) (d : list (Z * V)) :
  k ∈ (od_set k v d).*1 ∧ ∀ k', k' ∈ d.*1 → k' ∈ (od_set k v d).*1.
Proof.
  induction d as [|[k0 v0] d [IH1 IH2]]; simpl.
  - split; [apply list_elem_of_here|]. by intros k' ?%elem_of_nil.
  - case_bool_decide as Hk; simpl.
    + subst k0. split; [apply list_elem_of_here|]. done.
    + split; [by apply list_elem_of_further|].
      intros k' [->|Hk']%elem_of_cons;
        [apply list_elem_of_here|by apply list_elem_of_further, IH2].
Qed.

Lemma game_add_Ok (g g' : t) (agent x y : Z) (label : string) :
  add g agent x y label = Ok g' ↔
  String.length label = 2%nat ∧ (agent ∉ (agents g).*1) ∧
  ∃ b, Board.add (board g) agent x y = Ok b ∧
  g' = {| silence := silence g; board := b; rows := rows g; cols := cols g;
          agents := od_set agent agent (agents g); order := order g;
          initial_position := od_set agent (x, y) (initial_position g);
          agent_index := <[agent := n_agents g]> (agent_index g);
          index_to_agent := <[n_agents g := agent]> (index_to_agent g);
          n_agents := n_agents g + 1; cell_dim := cell_dim g;
          label_map := <[agent := label]> (label_map g); dead := dead g;
          objs := objs g; rng := rng g |}.
Proof.
  unfold add, od_mem. split.
  - intros (? & Hl%assert_Ok%bool_decide_eq_true & H)%bind_Ok.
    apply bind_Ok in H as (? & Ha%assert_Ok%negb_true_iff%bool_decide_eq_false & H).
    apply bind_Ok in H as (b & Hb & [= <-]). eauto 10.
  - intros (Hl & Ha & b & Hb & ->).
    rewrite (bool_decide_eq_true_2 (String.length label = 2%nat)) by done.
    rewrite (bool_decide_eq_false_2 (agent ∈ (agents g).*1)) by done.
    simpl. by rewrite Hb.
Qed.

Lemma game_add_index_stable (g g' : t) (agent x y : Z) (label : string) (a : Z) :
  add g agent x y label = Ok g' → a ∈ (agents g).*1 →
  agent_index g' !! a = agent_index g !! a ∧ a ∈ (agents g').*1.
Proof.
  intros (_ & Hfresh & b & _ & ->)%game_add_Ok Ha. simpl. split.
  - apply lookup_insert_ne. by intros ->.
  - by apply od_set_keys.
Qed.

Lemma add_all_index_stable (regs : list (Z * Z * Z * string)) (g g' : t) (a : Z) :
  add_all regs g = Ok g' → a ∈ (agents g).*1 →
  agent_index g' !! a = agent_index g !! a.
Proof.
  revert g. induction regs as [|[[[agent x] y] label] regs IH]; intros g; simpl.
  - by intros [= <-].
  - intros (g1 & Hadd & Hall)%bind_Ok Ha.
    destruct (game_add_index_stable _ _ _ _ _ _ a Hadd Ha) as [<- Ha1]. by apply IH.
Qed.

Lemma add_all_count (regs : list (Z * Z * Z * string)) (g g' : t) :
  add_all regs g = Ok g' → n_agents g' = n_agents g + Z.of_nat (length regs).
Proof.
  revert g. induction regs as [|[[[agent x] y] label] regs IH]; intros g; simpl.
  - intros [= <-]. lia.
  - intros (g1 & (_ & _ & b & _ & ->)%game_add_Ok & Hall)%bind_Ok.
    rewrite (IH _ Hall). simpl. lia.
Qed.

Lemma game_init_Ok (r c : Z) (s : bool) (h : gmap Z Entity.t) (k : nat) (g : t) :
  init r c s h k = Ok g →
  ∃ b, Board.init r c = Ok b ∧
  g = {| silence := s; board := b; rows := r; cols := c;
         agents := []; order := []; initial_position := [];
         agent_index := ∅; index_to_agent := ∅; n_agents := 0;
         cell_dim := 5; label_map := ∅; dead := ∅; objs := h; rng := k |}.
Proof. unfold init. intros (b & Hb & [= <-])%bind_Ok. eauto. Qed.

(** C9, as the code has it.  In a game built by [Game(rows, cols)] and a
    sequence of successful [add] calls, [add(agent, x, y, label)] fails its
    assertion when the label is not two characters long, when the entity is
    already registered, when the position is out of bounds or occupied; in
    every other case, whatever labels are already in use, it succeeds and
    gives the entity the index equal to the number of entities registered
    before it, and later registrations leave that index unchanged. *)
Theorem add_registers (r c : Z) (s : bool) (h : gmap Z Entity.t) (k : nat)
    (regs : list (Z * Z * Z * string)) (g0 g : t)
    (agent x y : Z) (label : string) :
  init r c s h k = Ok g0 →
  add_all regs g0 = Ok g →
  (String.length label ≠ 2%nat → add g agent x y label = Raise AssertionError) ∧
  (agent ∈ (agents g).*1 → add g agent x y label = Raise AssertionError) ∧
  (Board.inbounds (board g) x y = false →
     add g agent x y label = Raise AssertionError) ∧
  ((x, y) ∈ Board.grid (board g) → add g agent x y label = Raise AssertionError) ∧
  (String.length label = 2%nat → agent ∉ (agents g).*1 →
   Board.inbounds (board g) x y = true → (x, y) ∉ Board.grid (board g) →
   ∃ g', add g agent x y label = Ok g' ∧
         agent_index g' !! agent = Some (Z.of_nat (length regs)) ∧
         index_to_agent g' !! Z.of_nat (length regs) = Some agent ∧
         label_map g' !! agent = Some label ∧
         n_agents g' = Z.of_nat (length regs) + 1 ∧
         ∀ regs' g'', add_all regs' g' = Ok g'' →
                      agent_index g'' !! agent = Some (Z.of_nat (length regs))).
Proof.
  intros (b0 & _ & ->)%game_init_Ok Hall.
  pose proof (add_all_count _ _ _ Hall) as Hn. simpl in Hn.
  split_and!.
  - intros Hl. unfold add. by rewrite bool_decide_eq_false_2.
  - intros Ha. unfold add, od_mem.
    destruct (bool_decide (String.length label = 2%nat)); [simpl|done].
    by rewrite bool_decide_eq_true_2.
  - intros Hin. unfold add, Board.add, Board.free. rewrite Hin.
    destruct (bool_decide (String.length label = 2%nat)); [simpl|done].
    by destruct (negb (od_mem agent (agents g))).
  - intros Hocc. unfold add.
    destruct (bool_decide (String.length label = 2%nat)); [simpl|done].
    destruct (negb (od_mem agent (agents g))); [simpl|done].
    destruct (Board.add (board g) agent x y) as [b|e] eqn:Hb.
    + by apply board_add_Ok in Hb as (_ & Hfree & _).
    + unfold Board.add in Hb. destruct (Board.free (board g) x y) as [f|e'] eqn:Hf.
      * apply free_Ok in Hf as [_ ->]. rewrite bool_decide_eq_true_2 in Hb by done.
        simpl in Hb. by injection Hb as <-.
      * unfold Board.free in Hf.
        destruct (Board.inbounds (board g) x y) eqn:Hin; simpl in *.
        -- apply inbounds_true in Hin as [Hx Hy]. unfold Board.grid_get in Hf.
           by rewrite (np_index_in _ _ Hx), (np_index_in _ _ Hy) in Hf.
        -- injection Hf as <-. simpl in Hb. by injection Hb as <-.
  - intros Hl Ha Hin Hfree.
    eexists. split.
    { apply game_add_Ok. split_and!; [done|done|]. eexists. split; [|done].
      by apply board_add_Ok. }
    simpl. rewrite Hn, !Z.add_0_l. split_and!.
    + apply lookup_insert_eq.
    + apply lookup_insert_eq.
    + apply lookup_insert_eq.
    + done.
    + intros regs' g'' Hall'.
      rewrite (add_all_index_stable _ _ _ agent Hall'); simpl.
      * apply lookup_insert_eq.
      * apply (proj1 (od_set_keys _ _ _)).
Qed.

End Registration.

Section RegistrationExamples.
Import Game Scenario.

Lemma registered_run : add_all registrations blank = Ok registered.
Proof. vm_compute. reflexivity. Qed.

Lemma add_registers_witness :
  init 3 3 false store 0 = Ok blank ∧
  add_all registrations blank = Ok registered ∧
  label_map registered !! 201 = Some "E1" ∧
  ∃ g', add registered 301 1 1 "E1" = Ok g' ∧
        agent_index g' !! 301 = Some 3 ∧
        add registered 301 0 1 "E3" = Raise AssertionError.
Proof.
  assert (H0 : init 3 3 false store 0 = Ok blank) by reflexivity.
  assert (H1 : add_all registrations blank = Ok registered)
    by (vm_compute; reflexivity).
  destruct (add_registers 3 3 false store 0 registrations blank registered
              301 1 1 "E1" H0 H1) as (_ & _ & _ & _ & Hok).
  destruct (add_registers 3 3 false store 0 registrations blank registered
              301 0 1 "E3" H0 H1) as (_ & _ & _ & Hocc & _).
  destruct Hok as (g' & Hadd & Hidx & _).
  - reflexivity.
  - apply (bool_decide_unpack _). vm_compute. exact I.
  - vm_compute. reflexivity.
  - apply (bool_decide_unpack _). vm_compute. exact I.
  - split_and!; [exact H0|exact H1|vm_compute; reflexivity|].
    exists g'. split_and!; [exact Hadd|exact Hidx|].
    apply Hocc. apply (bool_decide_unpack _). vm_compute. exact I.
Defined.

(** C9 as stated fails: no label is compared with the labels already
    registered, so a second entity can take the label of the first. *)
Lemma add_accepts_label_collision :
  ∃ g1 g2, init 3 3 false store 0 = Ok blank ∧
           add blank 101 0 0 "P1" = Ok g1 ∧
           label_map g1 !! 101 = Some "P1" ∧
           add g1 201 0 1 "P1" = Ok g2 ∧
           label_map g2 !! 201 = Some "P1" ∧
           label_map g2 !! 101 = Some "P1".
Proof.
  exists (value blank (add blank 101 0 0 "P1")).
  exists (value blank (g1 ← add blank 101 0 0 "P1"; add g1 201 0 1 "P1")).
  vm_compute. split_and!; reflexivity.
Qed.

End RegistrationExamples.

(** ** Game: the dice *)

Section Dice.
Variable entropy : nat → Z.

Lemma randint_range (lo hi : Z) (k : nat) :
  lo ≤ hi →
  ∃ v, Utils.randint entropy lo hi k = Ok (v, S k) ∧ lo ≤ v ≤ hi.
Proof.
  intros Hle. unfold Utils.randint.
  assert ((hi <? lo) = false) as -> by (apply Z.ltb_ge; lia).
  eexists. split; [done|].
  pose proof (Z.mod_pos_bound (entropy k) (hi - lo + 1)). lia.
Qed.

Lemma roll_d20 (k : nat) :
  ∃ v, Utils.roll entropy 20 1 k = Ok (v, S k) ∧ 1 ≤ v ≤ 20.
Proof.
  destruct (randint_range 1 20 k) as (v & Hv & Hr); [lia|].
  exists (v + 0). unfold Utils.roll. change (Z.to_nat 1) with 1%nat.
  cbn -[Utils.randint]. rewrite Hv.
  split; [done|lia].
Qed.

Lemma roll_2d6 (k : nat) :
  ∃ v, Utils.roll entropy 6 2 k = Ok (v, S (S k)) ∧ 2 ≤ v ≤ 12.
Proof.
  destruct (randint_range 1 6 k) as (v1 & Hv1 & Hr1); [lia|].
  destruct (randint_range 1 6 (S k)) as (v2 & Hv2 & Hr2); [lia|].
  exists (v1 + (v2 + 0)). unfold Utils.roll. change (Z.to_nat 2) with 2%nat.
  cbn -[Utils.randint]. rewrite Hv1. cbn -[Utils.randint]. rewrite Hv2. split; [done|lia].
Qed.

Lemma roll_2d4 (k : nat) :
  ∃ v, Utils.roll entropy 4 2 k = Ok (v, S (S k)) ∧ 2 ≤ v ≤ 8.
Proof.
  destruct (randint_range 1 4 k) as (v1 & Hv1 & Hr1); [lia|].
  destruct (randint_range 1 4 (S k)) as (v2 & Hv2 & Hr2); [lia|].
  exists (v1 + (v2 + 0)). unfold Utils.roll. change (Z.to_nat 2) with 2%nat.
  cbn -[Utils.randint]. rewrite Hv1. cbn -[Utils.randint]. rewrite Hv2. split; [done|lia].
Qed.

Lemma use_potion_none (e : Entity.t) (k : nat) :
  Entity.potions e ≤ 0 → Entity.use_potion entropy e k = Ok (0, e, k).
Proof.
  intros Hp. unfold Entity.use_potion.
  by assert ((0 <? Entity.potions e) = false) as -> by (apply Z.ltb_ge; lia).
Qed.

Lemma use_potion_some (e : Entity.t) (k : nat) :
  0 < Entity.potions e →
  ∃ v, Utils.roll entropy 4 2 k = Ok (v, S (S k)) ∧ 2 ≤ v ≤ 8 ∧
       Entity.use_potion entropy e k =
         Ok (v + 2, Entity.set_potions e (Entity.potions e - 1), S (S k)).
Proof.
  intros Hp. unfold Entity.use_potion.
  assert ((0 <? Entity.potions e) = true) as -> by (apply Z.ltb_lt; lia).
  destruct (roll_2d4 k) as (v & Hv & Hr). exists v. rewrite Hv. done.
Qed.

End Dice.

(** ** Game: the handlers *)

Section Handlers.
Import Game.
Variable entropy : nat → Z.

Lemma near_total (b : Board.t) (e1 e2 : Z) :
  Board.belongs b e1 = true → ∃ r, Board.near b e1 e2 = Ok r.
Proof.
  intros H1. destruct (Board.belongs b e2) eqn:H2.
  - destruct (decide (e1 = e2)) as [->|Hne].
    + exists true. by apply near_self.
    + apply contains_true in H1 as [[x1 y1] H1].
      apply contains_true in H2 as [[x2 y2] H2].
      rewrite (near_on_board b e1 e2 x1 y1 x2 y2 H1 H2 Hne). eauto.
  - exists false. by apply near_second_absent.
Qed.

Lemma deref_Some (g : t) (r : Z) (e : Entity.t) :
  objs g !! r = Some e → deref g r = Ok e.
Proof. unfold deref. by intros ->. Qed.

Lemma getitem_Some `{Countable K} {V} (d : gmap K V) (k : K) (v : V) :
  d !! k = Some v → getitem d k = Ok v.
Proof. unfold getitem. by intros ->. Qed.

(** C2.  A heal by a healer that is on the board, on the entity of a
    registered index (both in the store, their labels known unless the game
    is silenced).  With no potion the reward is -1 and nothing changes,
    whatever the state of the target.  Otherwise one potion is consumed and
    2d4 + 2 points are rolled; if the target is not alive or not adjacent
    (the ranged flag plays no part) the reward is -1 and the points are not
    applied; otherwise the target's hit points become
    [min(max_hp, hp + points)] and the reward is the points for the healer
    itself or an entity of the same kind, minus the points for an entity
    of the other kind. *)
Theorem handle_heal_outcomes (g : t) (agent action target : Z) (a tg : Entity.t) :
  index_to_agent g !! action = Some target →
  announce g [agent; target] = Ok tt →
  Board.belongs (board g) agent = true →
  objs g !! agent = Some a →
  objs g !! target = Some tg →
  ∃ reach, Board.near (board g) agent target = Ok reach ∧
  (Entity.potions a ≤ 0 → handle_heal entropy g agent action = Ok (-1, g)) ∧
  (0 < Entity.potions a →
   ∃ r, Utils.roll entropy 4 2 (rng g) = Ok (r, S (S (rng g))) ∧ 2 ≤ r ≤ 8 ∧
   let points := r + 2 in
   let a1 := Entity.set_potions a (Entity.potions a - 1) in
   let g1 := set_rng (set_objs g (<[agent := a1]> (objs g))) (S (S (rng g))) in
   let tg1 := if bool_decide (target = agent) then a1 else tg in
   (Entity.alive tg = false ∨ reach = false →
      handle_heal entropy g agent action = Ok (-1, g1)) ∧
   (Entity.alive tg = true → reach = true →
      handle_heal entropy g agent action =
        Ok (if bool_decide (target = agent) || Entity.ally a tg
            then points else - points,
            set_objs g1
              (<[target := Entity.set_hp tg1
                             (Z.min (Entity.max_hp tg) (Entity.hp tg + points))]>
                 (objs g1))))).
Proof.
  intros Hidx Hann Hloc Ha Ht.
  destruct (near_total _ _ target Hloc) as [reach Hnear].
  exists reach. split; [done|].
  unfold handle_heal. rewrite (getitem_Some _ _ _ Hidx). simpl.
  rewrite Hann. simpl. rewrite Hnear. simpl. rewrite (deref_Some _ _ _ Ha). simpl.
  split.
  - intros Hp. rewrite (use_potion_none entropy a (rng g) Hp). simpl.
    assert (Hsame : set_rng (set_objs g (<[agent:=a]> (objs g))) (rng g) = g).
    { destruct g. unfold set_rng, set_objs. simpl in *. f_equal. by apply insert_id. }
    rewrite Hsame, (deref_Some _ _ _ Ht). done.
  - intros Hp. destruct (use_potion_some entropy a (rng g) Hp) as (r & Hr & Hrange & ->).
    exists r. split; [done|]. split; [lia|]. simpl.
    assert (Htg1 : deref (set_rng (set_objs g
               (<[agent:=Entity.set_potions a (Entity.potions a - 1)]> (objs g)))
               (S (S (rng g)))) target
            = Ok (if bool_decide (target = agent)
                  then Entity.set_potions a (Entity.potions a - 1) else tg)).
    { unfold deref. simpl. case_bool_decide as Hself.
      - subst target. by rewrite lookup_insert_eq.
      - by rewrite lookup_insert_ne, Ht. }
    rewrite Htg1. simpl.
    assert (Halive : Entity.is_alive (if bool_decide (target = agent)
                  then Entity.set_potions a (Entity.potions a - 1) else tg)
                  = Entity.alive tg).
    { case_bool_decide as Hself; [|done]. subst target.
      rewrite Ha in Ht. by injection Ht as <-. }
    assert (Hally : Entity.ally (Entity.set_potions a (Entity.potions a - 1))
                  (if bool_decide (target = agent)
                   then Entity.set_potions a (Entity.potions a - 1) else tg)
                  = Entity.ally a tg).
    { case_bool_decide as Hself; [|done]. subst target.
      rewrite Ha in Ht. by injection Ht as <-. }
    assert ((r + 2 =? 0) = false) as -> by (apply Z.eqb_neq; lia).
    rewrite Halive, Hally. split.
    + intros [-> | ->]; [done|]. simpl. by destruct (Entity.alive tg).
    + intros Hal ->. rewrite Hal. simpl.
      assert (Hheal : Entity.heal (if bool_decide (target = agent)
                  then Entity.set_potions a (Entity.potions a - 1) else tg) (r + 2)
                = Entity.set_hp (if bool_decide (target = agent)
                  then Entity.set_potions a (Entity.potions a - 1) else tg)
                    (Z.min (Entity.max_hp tg) (Entity.hp tg + (r + 2)))).
      { unfold Entity.heal. unfold Entity.is_alive in Halive. rewrite Halive, Hal.
        case_bool_decide as Hself; [|done]. subst target.
        rewrite Ha in Ht. by injection Ht as <-. }
      rewrite Hheal.
      destruct (bool_decide (target = agent)); simpl; [done|].
      by destruct (Entity.ally a tg).
Qed.

Lemma list_remove_elem (x : Z) (l : list Z) :
  x ∈ l → ∃ l', list_remove x l = Ok l' ∧ l ≡ₚ x :: l'.
Proof.
  induction l as [|y l IH]; [by intros ?%elem_of_nil|].
  intros Hx. simpl. case_bool_decide as Hy.
  - subst y. eauto.
  - apply elem_of_cons in Hx as [->|Hx]; [done|].
    destruct (IH Hx) as (l' & -> & Hperm). exists (y :: l'). split; [done|].
    rewrite Hperm. apply Permutation_swap.
Qed.

Lemma roll_attack_value (a : Entity.t) (k : nat) :
  ∃ d20, Utils.roll entropy 20 1 k = Ok (d20, S k) ∧ 1 ≤ d20 ≤ 20 ∧
         Entity.roll_attack entropy a k = Ok (d20 + Entity.amod a, S k).
Proof.
  destruct (roll_d20 entropy k) as (v & Hv & Hr). exists v.
  unfold Entity.roll_attack. by rewrite Hv.
Qed.

Lemma roll_damage_value (a : Entity.t) (k : nat) :
  ∃ r, Utils.roll entropy 6 2 k = Ok (r, S (S k)) ∧ 2 ≤ r ≤ 12 ∧
       Entity.roll_damage entropy a k = Ok (r + Entity.dmod a, S (S k)).
Proof.
  destruct (roll_2d6 entropy k) as (v & Hv & Hr). exists v.
  unfold Entity.roll_damage. by rewrite Hv.
Qed.

(** C1.  An attack on the entity of a registered index that is not in the
    dead set, is still in the initiative order and on the board (whose maps
    are consistent), and is reachable (the attacker is ranged or [near] says
    so).  The attack hits exactly when d20 + attack modifier is at least the
    armor class of the target.  On a miss the reward is -1 and nothing but
    the random source changes.  On a hit the damage 2d6 + damage modifier is
    subtracted from the hit points of the target and the reward is the
    damage times -2 (the attacker itself), -1 (another entity of its kind)
    or +1 (the other kind); if the target is then not alive the reward is
    doubled, and the target is put in the dead set, taken out of the
    initiative order and off the board.  The d20 is in 1..20 and the 2d6 in
    2..12.  (In every state of an episode a target outside the dead set is
    in the order and on a consistent board: [episode_living_target].) *)
Theorem handle_attack_outcomes (g : t) (agent action target : Z) (a tg : Entity.t) :
  index_to_agent g !! action = Some target →
  announce g [agent; target] = Ok tt →
  objs g !! agent = Some a →
  objs g !! target = Some tg →
  target ∉ dead g →
  target ∈ order g →
  Board.belongs (board g) target = true →
  Board.inv (board g) →
  reachable g a agent target = Ok true →
  ∃ d20 r,
    Utils.roll entropy 20 1 (rng g) = Ok (d20, S (rng g)) ∧
    Utils.roll entropy 6 2 (S (rng g)) = Ok (r, S (S (S (rng g)))) ∧
    1 ≤ d20 ≤ 20 ∧ 2 ≤ r ≤ 12 ∧
    let damage := r + Entity.dmod a in
    let factor := attack_factor agent target a tg in
    let g0 := set_rng g (S (S (S (rng g)))) in
    let tg1 := Entity.take_damage tg damage in
    let g1 := set_objs g0 (<[target := tg1]> (objs g)) in
    Entity.hp tg1 = Entity.hp tg - damage ∧
    (d20 + Entity.amod a < Entity.ac tg →
       handle_attack entropy g agent action = Ok (-1, g0)) ∧
    (Entity.ac tg ≤ d20 + Entity.amod a → 0 < Entity.hp tg - damage →
       handle_attack entropy g agent action = Ok (factor * damage, g1)) ∧
    (Entity.ac tg ≤ d20 + Entity.amod a → Entity.hp tg - damage ≤ 0 →
       ∃ order1 b1,
         list_remove target (order g) = Ok order1 ∧
         Board.remove (board g) target = Ok b1 ∧
         handle_attack entropy g agent action =
           Ok (factor * damage * 2,
               set_board (set_order (set_dead g1 ({[ target ]} ∪ dead g)) order1) b1) ∧
         Entity.alive tg1 = false ∧
         order g ≡ₚ target :: order1 ∧
         (NoDup (order g) → target ∉ order1) ∧
         Board.belongs b1 target = false ∧
         Board.inv b1).
Proof.
  intros Hidx Hann Ha Ht Hdead Horder Hboard Hinv Hreach.
  destruct (roll_attack_value a (rng g)) as (d20 & Hd20 & Hd20r & Hatt).
  destruct (roll_damage_value a (S (rng g))) as (r & Hr & Hrr & Hdmg).
  exists d20, r. split; [done|]. split; [done|].
  split; [done|]. split; [done|]. cbv zeta.
  split; [done|].
  unfold handle_attack. rewrite (getitem_Some _ _ _ Hidx). ret.
  rewrite Hann. ret. rewrite (deref_Some _ _ _ Ha). ret.
  rewrite (deref_Some _ _ _ Ht). ret. rewrite Hatt. ret.
  rewrite Hreach. ret. rewrite Hdmg. ret. cbv zeta. simpl dead.
  rewrite (bool_decide_eq_false_2 (target ∈ dead g)) by done.
  assert (Hfactor :
    (if bool_decide (target = agent) then Ok (-2 * (r + Entity.dmod a))
     else if Entity.ally a tg then Ok (- (r + Entity.dmod a))
     else if negb (Entity.ally a tg) then Ok (r + Entity.dmod a)
     else Raise UnboundLocalError)
    = Ok (attack_factor agent target a tg * (r + Entity.dmod a))).
  { unfold attack_factor, Entity.ally.
    destruct (bool_decide (target = agent)); [done|].
    destruct (bool_decide (Entity.kind a = Entity.kind tg)); simpl; f_equal; lia. }
  rewrite Hfactor. simpl. unfold Entity.is_alive. simpl.
  split_and!.
  - intros Hmiss. by rewrite bool_decide_eq_false_2 by lia.
  - intros Hhit Hhp. rewrite bool_decide_eq_true_2 by lia.
    by assert ((0 <? Entity.hp tg - (r + Entity.dmod a)) = true) as ->
      by (apply Z.ltb_lt; lia).
  - intros Hhit Hhp. rewrite bool_decide_eq_true_2 by lia.
    assert ((0 <? Entity.hp tg - (r + Entity.dmod a)) = false) as ->
      by (apply Z.ltb_ge; lia).
    simpl.
    destruct (list_remove_elem target (order g) Horder) as (order1 & Hrem & Hperm).
    apply contains_true in Hboard as [[x y] Hl].
    assert (Hb1 : Board.remove (board g) target =
              Ok {| Board.grid := Board.grid (board g) ∖ {[ (x, y) ]};
                    Board.rows := Board.rows (board g);
                    Board.cols := Board.cols (board g);
                    Board.ents := delete (x, y) (Board.ents (board g));
                    Board.loc := delete target (Board.loc (board g)) |}).
    { apply (board_remove_Ok _ _ _ Hinv). eauto. }
    eexists order1, _. split; [done|]. split; [exact Hb1|].
    rewrite Hrem. simpl. rewrite Hb1. simpl.
    split_and!; [done|done|done| | |].
    + intros Hnd Hin. rewrite Hperm in Hnd. by apply NoDup_cons in Hnd as [? _].
    + apply contains_false. simpl. apply lookup_delete_eq.
    + by destruct (board_remove_inv _ _ _ Hinv Hb1).
Qed.

Lemma handle_dir_blocked (g : t) (agent x y : Z) (dest : Z → Z → Z * Z) :
  announce g [agent] = Ok tt →
  Board.loc (board g) !! agent = Some (x, y) →
  Board.inbounds (board g) (dest x y).1 (dest x y).2 = false
  ∨ ((dest x y).1, (dest x y).2) ∈ Board.grid (board g) →
  handle_dir g agent dest = Ok (-1, g).
Proof.
  intros Hann Hl Hblocked. unfold handle_dir. rewrite Hann. ret.
  rewrite (query_Some _ _ _ Hl). ret. cbv zeta.
  destruct (Board.inbounds (board g) (dest x y).1 (dest x y).2) eqn:Hin; [|done].
  destruct Hblocked as [?|Hocc]; [done|].
  assert (Board.free (board g) (dest x y).1 (dest x y).2 = Ok false) as ->; [|done].
  apply free_Ok. split; [done|]. by rewrite bool_decide_eq_true_2.
Qed.

Lemma handle_heal_penalty (g : t) (agent action target : Z) (a tg : Entity.t)
    (reach : bool) :
  index_to_agent g !! action = Some target →
  announce g [agent; target] = Ok tt →
  Board.near (board g) agent target = Ok reach →
  objs g !! agent = Some a →
  objs g !! target = Some tg →
  (Entity.potions a ≤ 0 → handle_heal entropy g agent action = Ok (-1, g)) ∧
  (0 < Entity.potions a → Entity.alive tg = false ∨ reach = false →
     handle_heal entropy g agent action
     = Ok (-1, set_rng
                 (set_objs g (<[agent := Entity.set_potions a
                                           (Entity.potions a - 1)]> (objs g)))
                 (S (S (rng g))))).
Proof.
  intros Hidx Hann Hnear Ha Ht.
  unfold handle_heal. rewrite (getitem_Some _ _ _ Hidx). ret.
  rewrite Hann. ret. rewrite Hnear. ret. rewrite (deref_Some _ _ _ Ha). ret.
  split.
  - intros Hp. rewrite (use_potion_none entropy a (rng g) Hp). ret. cbv zeta.
    unfold deref. simpl objs. rewrite (insert_id _ _ _ Ha), Ht. ret.
    simpl. by destruct g.
  - intros Hp Hcase.
    destruct (use_potion_some entropy a (rng g) Hp) as (r & _ & Hr & ->).
    ret. cbv zeta. unfold deref. simpl objs.
    assert ((r + 2 =? 0) = false) as Hnz by (apply Z.eqb_neq; lia).
    destruct (decide (target = agent)) as [->|Hne].
    + rewrite lookup_insert_eq. ret. rewrite Hnz.
      rewrite Ha in Ht. injection Ht as <-. unfold Entity.is_alive. simpl.
      destruct Hcase as [-> | ->]; [done|]. by destruct (Entity.alive a).
    + rewrite lookup_insert_ne, Ht by done. ret. rewrite Hnz.
      unfold Entity.is_alive.
      destruct Hcase as [-> | ->]; [done|]. by destruct (Entity.alive tg).
Qed.

(** C5, as the code has it.  For an acting entity that is on the board:
    attacking a target of the dead set, attacking a target that is out of
    reach, healing without a potion, and moving into a wall or an occupied
    cell all return the reward -1 without raising and leave the board, the
    entities and the dead set as they were (the attacks only advance the
    random source by their three draws).  Healing a target that is not
    alive or not adjacent, with a potion in hand, also returns -1 without
    raising and leaves board, hit points and dead set as they were, but it
    takes one potion from the healer. *)
Theorem penalty_outcomes (g : t) (agent : Z) (a : Entity.t) :
  Board.belongs (board g) agent = true →
  objs g !! agent = Some a →
  (∀ action target tg,
     index_to_agent g !! action = Some target →
     announce g [agent; target] = Ok tt →
     objs g !! target = Some tg →
     ∃ reach, Board.near (board g) agent target = Ok reach ∧
       (target ∈ dead g →
          handle_attack entropy g agent action
          = Ok (-1, set_rng g (S (S (S (rng g)))))) ∧
       (Entity.ranged a = false → reach = false →
          handle_attack entropy g agent action
          = Ok (-1, set_rng g (S (S (S (rng g)))))) ∧
       (Entity.potions a ≤ 0 → handle_heal entropy g agent action = Ok (-1, g)) ∧
       (0 < Entity.potions a → Entity.alive tg = false ∨ reach = false →
          handle_heal entropy g agent action
          = Ok (-1, set_rng
                      (set_objs g (<[agent := Entity.set_potions a
                                                (Entity.potions a - 1)]> (objs g)))
                      (S (S (rng g)))))) ∧
  (announce g [agent] = Ok tt →
   ∀ x y, Board.loc (board g) !! agent = Some (x, y) →
     let blocked xf yf :=
       Board.inbounds (board g) xf yf = false ∨ (xf, yf) ∈ Board.grid (board g) in
     (blocked (x - 1) y → handle_up g agent = Ok (-1, g)) ∧
     (blocked (x + 1) y → handle_down g agent = Ok (-1, g)) ∧
     (blocked x (y - 1) → handle_left g agent = Ok (-1, g)) ∧
     (blocked x (y + 1) → handle_right g agent = Ok (-1, g))).
Proof.
  intros Hloc Ha. split.
  - intros action target tg Hidx Hann Ht.
    destruct (near_total _ _ target Hloc) as [reach Hnear].
    destruct (handle_heal_penalty g agent action target a tg reach
                Hidx Hann Hnear Ha Ht) as (Hnone & Hsome).
    exists reach. split; [done|].
    assert (Hattack : ∀ reach',
      reachable g a agent target = Ok reach' →
      (target ∈ dead g ∨ reach' = false) →
      handle_attack entropy g agent action = Ok (-1, set_rng g (S (S (S (rng g)))))).
    { intros reach' Hreach Hcase.
      destruct (roll_attack_value a (rng g)) as (d20 & _ & _ & Hatt).
      destruct (roll_damage_value a (S (rng g))) as (r & _ & _ & Hdmg).
      unfold handle_attack. rewrite (getitem_Some _ _ _ Hidx). ret.
      rewrite Hann. ret. rewrite (deref_Some _ _ _ Ha). ret.
      rewrite (deref_Some _ _ _ Ht). ret. rewrite Hatt. ret.
      rewrite Hreach. ret. rewrite Hdmg. ret. cbv zeta. simpl dead.
      destruct (decide (target ∈ dead g)) as [Hd|Hd].
      - by rewrite bool_decide_eq_true_2.
      - rewrite bool_decide_eq_false_2 by done.
        destruct Hcase as [?| ->]; done. }
    split_and!.
    + intros Hd. unfold reachable in Hattack. destruct (Entity.ranged a).
      * apply (Hattack true); [done|by left].
      * apply (Hattack reach); [done|by left].
    + intros Hranged ->. apply (Hattack false); [|by right].
      unfold reachable. by rewrite Hranged.
    + done.
    + done.
  - intros Hann x y Hl blocked. unfold blocked.
    split_and!; intros Hb; by apply (handle_dir_blocked g agent x y).
Qed.

End Handlers.

(** ** Game: the observation can be rendered *)

Section Encoding.
Import Game.

Lemma tensor_set_ok (s : tensor) (x y i c d1 d2 d3 d4 : Z) :
  shape s = (d1, d2, d3, d4) →
  0 ≤ x < d1 → 0 ≤ y < d2 → 0 ≤ i < d3 → 0 ≤ c < d4 →
  ∃ s', tensor_set s x y i c = Ok s' ∧ shape s' = shape s.
Proof.
  intros Hs Hx Hy Hi Hc. unfold tensor_set. rewrite Hs.
  rewrite (np_index_in _ _ Hx), (np_index_in _ _ Hy). ret.
  rewrite (np_index_in _ _ Hi), (np_index_in _ _ Hc). ret. eauto.
Qed.

Lemma encode_agent_ok (g : t) (c : Z) (s : tensor) (e : Z) :
  shape s = (rows g, cols g, n_agents g, cell_dim g) → cell_dim g = 5 →
  seated g e → is_Some (objs g !! c) →
  ∃ s', encode_agent g c s e = Ok s' ∧ shape s' = shape s.
Proof.
  intros Hs Hdim (x & y & i & Hl & Hx & Hy & Hi & Hir & [ee He]) [ec Hc].
  unfold encode_agent. cbv zeta. rewrite (query_Some _ _ _ Hl). ret.
  unfold getitem. rewrite Hi. ret.
  assert (Hset : ∀ cat, 0 ≤ cat < 5 →
            ∃ s', tensor_set s x y i cat = Ok s' ∧ shape s' = shape s).
  { intros cat Hcat. apply (tensor_set_ok s x y i cat _ _ _ _ Hs); lia. }
  case_bool_decide; [apply Hset; lia|].
  unfold deref. rewrite He, Hc. ret.
  destruct (Entity.ranged ee), (Entity.ally ee ec); simpl; apply Hset; lia.
Qed.

Lemma encode_agents_ok (g : t) (c : Z) (l : list Z) (s : tensor) :
  shape s = (rows g, cols g, n_agents g, cell_dim g) → cell_dim g = 5 →
  Forall (seated g) l → is_Some (objs g !! c) →
  ∃ s', encode_agents g c s l = Ok s'.
Proof.
  intros Hs Hdim Hl Hc. revert s Hs.
  induction Hl as [|e l He Hl IH]; intros s Hs; simpl; [by eauto|].
  destruct (encode_agent_ok g c s e Hs Hdim He Hc) as (s1 & -> & Hs1). ret.
  apply IH. congruence.
Qed.

Lemma generate_state_ok (g : t) (c : Z) :
  0 ≤ rows g → 0 ≤ cols g → 0 ≤ n_agents g → cell_dim g = 5 →
  Forall (seated g) (order g) → is_Some (objs g !! c) →
  ∃ s, generate_state g c = Ok s.
Proof.
  intros Hr Hc Hn Hdim Hseated Hcur. unfold generate_state, zeros.
  assert ((rows g <? 0) || (cols g <? 0) || (n_agents g <? 0) || (cell_dim g <? 0)
          = false) as ->.
  { rewrite !orb_false_iff, !Z.ltb_ge. lia. }
  ret. by apply encode_agents_ok.
Qed.

End Encoding.

(** ** Game: the end of an episode *)

Section Termination.
Import Game.
Variable entropy : nat → Z.

Lemma elem_of_order_pairs (g : t) (x y : Z) :
  (x, y) ∈ order_pairs g ↔ x ∈ order g ∧ y ∈ order g.
Proof.
  unfold order_pairs. rewrite list_elem_of_bind. split.
  - intros (x' & (y' & [= -> ->]%list_elem_of_singleton & Hy)%list_elem_of_bind & Hx).
    done.
  - intros [Hx Hy]. exists x. split; [|done].
    apply list_elem_of_bind. exists y. split; [|done]. apply list_elem_of_here.
Qed.

Lemma all_ally_true (g : t) (pairs : list (Z * Z)) :
  all_ally g pairs = Ok true ↔
  ∀ x y, (x, y) ∈ pairs →
    ∃ ex ey, objs g !! x = Some ex ∧ objs g !! y = Some ey ∧
             Entity.kind ex = Entity.kind ey.
Proof.
  induction pairs as [|[x y] pairs IH]; simpl.
  - split; [|done]. by intros _ x y ?%elem_of_nil.
  - unfold deref. split.
    + intros H x' y' Hin.
      destruct (objs g !! x) as [ex|] eqn:Ex; [|done].
      destruct (objs g !! y) as [ey|] eqn:Ey; [|done]. simpl in H.
      unfold Entity.ally in H. case_bool_decide as Hk; [|done].
      apply elem_of_cons in Hin as [[= -> ->]|Hin]; [by eauto|].
      by apply IH.
    + intros H.
      destruct (H x y) as (ex & ey & -> & -> & Hk); [apply list_elem_of_here|].
      simpl. unfold Entity.ally. rewrite bool_decide_eq_true_2 by done.
      apply IH. intros x' y' Hin. apply H. by apply list_elem_of_further.
Qed.

Lemma all_ally_false (g : t) (pairs : list (Z * Z)) :
  all_ally g pairs = Ok false →
  ∃ x y ex ey, (x, y) ∈ pairs ∧ objs g !! x = Some ex ∧ objs g !! y = Some ey ∧
               Entity.kind ex ≠ Entity.kind ey.
Proof.
  induction pairs as [|[x y] pairs IH]; simpl; [done|].
  unfold deref.
  destruct (objs g !! x) as [ex|] eqn:Ex; [|done].
  destruct (objs g !! y) as [ey|] eqn:Ey; [|done]. simpl.
  unfold Entity.ally. case_bool_decide as Hk.
  - intros (x' & y' & ex' & ey' & Hin & ?)%IH.
    exists x', y', ex', ey'. split; [by apply list_elem_of_further|done].
  - intros _. exists x, y, ex, ey. split; [apply list_elem_of_here|done].
Qed.

Lemma all_ally_total (g : t) (pairs : list (Z * Z)) :
  (∀ x y, (x, y) ∈ pairs → is_Some (objs g !! x) ∧ is_Some (objs g !! y)) →
  ∃ d, all_ally g pairs = Ok d.
Proof.
  induction pairs as [|[x y] pairs IH]; intros Hall; simpl; [by eauto|].
  destruct (Hall x y) as [[ex Hx] [ey Hy]]; [apply list_elem_of_here|].
  unfold deref. rewrite Hx, Hy. ret.
  destruct (Entity.ally ex ey); [|by eauto].
  apply IH. intros x' y' Hin. apply Hall. by apply list_elem_of_further.
Qed.

Lemma all_ally_same_faction (g : t) (d : bool) :
  all_ally g (order_pairs g) = Ok d → (d = true ↔ same_faction g (order g)).
Proof.
  intros Hd. destruct d.
  - split; [intros _|done].
    pose proof (proj1 (all_ally_true g _) Hd) as Hall.
    destruct (order g) as [|x0 l] eqn:Eo.
    + exists Entity.Player. by intros x ?%elem_of_nil.
    + destruct (Hall x0 x0) as (e0 & _ & He0 & _ & _).
      { apply elem_of_order_pairs. rewrite Eo. split; apply list_elem_of_here. }
      exists (Entity.kind e0). intros x Hx.
      destruct (Hall x x0) as (ex & ey & Hex & Hey & Hk).
      { apply elem_of_order_pairs. rewrite Eo. split; [done|apply list_elem_of_here]. }
      exists ex. split; [done|]. congruence.
  - split; [done|]. intros [k Hk].
    destruct (all_ally_false g _ Hd) as (x & y & ex & ey & Hin & Hx & Hy & Hne).
    apply elem_of_order_pairs in Hin as [Hxo Hyo].
    destruct (Hk x Hxo) as (ex' & Hx' & <-). destruct (Hk y Hyo) as (ey' & Hy' & Heq).
    congruence.
Qed.

Lemma pop_Ok (g g' : t) (a : Z) :
  pop g = Ok (a, g') ↔ ∃ rest, order g = a :: rest ∧ g' = set_order g (rest ++ [a]).
Proof.
  unfold pop. destruct (order g) as [|a' rest]; simpl.
  - split; [done|]. by intros (? & ? & _).
  - split.
    + intros [= -> <-]. eauto.
    + by intros (rest' & [= -> ->] & ->).
Qed.

Lemma pop_empty (g : t) : order g = [] → pop g = Raise AssertionError.
Proof. unfold pop. by intros ->. Qed.

(** C3, as the code has it.  When the action has been resolved, leaving the
    game in state [g1]: if the initiative order of [g1] is empty, the test
    the code makes is (vacuously) true but [step] fails the assertion of
    [pop] and reports nothing; and whenever [step] returns, it reports the
    reward of the action, leaves the same entities in the order, and its
    [done] is true if and only if every entity remaining in the order is of
    one and the same kind (a lone survivor and a remainder of one faction
    both end the episode).  [step] does return when the order of [g1] is
    not empty and every entity in it can be rendered. *)
Theorem step_done (g : t) (agent action : Z) (st : tensor) (r : Z) (g1 : t) :
  apply_action entropy g agent action = Ok (st, r, g1) →
  (order g1 = [] →
     same_faction g1 (order g1) ∧
     step entropy g agent action = Raise AssertionError) ∧
  (∀ res g', step entropy g agent action = Ok (res, g') →
     order g1 ≠ [] ∧ order g' ≡ₚ order g1 ∧ objs g' = objs g1 ∧
     reward res = r ∧ outcome_state res = st ∧
     (done res = true ↔ same_faction g1 (order g1))) ∧
  (order g1 ≠ [] → playable g1 →
     ∃ res g', step entropy g agent action = Ok (res, g')).
Proof.
  intros Hact. unfold step. rewrite Hact. ret. split_and!.
  - intros Hempty. split.
    + exists Entity.Player. rewrite Hempty. by intros x ?%elem_of_nil.
    + unfold order_pairs. rewrite Hempty. simpl. ret. by rewrite pop_empty.
  - intros res g' (d & Hd & H)%bind_Ok.
    apply bind_Ok in H as ([next g2] & Hpop & H).
    apply bind_Ok in H as (ns & Hns & [= <- <-]).
    apply pop_Ok in Hpop as (rest & Horder & ->). simpl.
    split_and!; try done.
    + by rewrite Horder.
    + rewrite Horder. by rewrite (Permutation_app_comm rest [next]).
    + by apply all_ally_same_faction.
  - intros Hne (Hr & Hc & Hn & Hdim & Hseated).
    destruct (all_ally_total g1 (order_pairs g1)) as [d ->].
    { intros x y [Hx Hy]%elem_of_order_pairs.
      rewrite Forall_forall in Hseated.
      destruct (Hseated x Hx) as (? & ? & ? & _ & _ & _ & _ & _ & ?).
      by destruct (Hseated y Hy) as (? & ? & ? & _ & _ & _ & _ & _ & ?). }
    ret. destruct (order g1) as [|next rest] eqn:Horder; [done|].
    unfold pop. rewrite Horder. simpl. ret.
    destruct (generate_state_ok (set_order g1 (rest ++ [next])) next)
      as [ns ->]; simpl; try done.
    + apply Forall_cons in Hseated as [Hnext Hrest].
      apply Forall_app. split; [done|]. by apply Forall_singleton.
    + apply Forall_cons in Hseated as [Hnext _].
      by destruct Hnext as (? & ? & ? & _ & _ & _ & _ & _ & ?).
    + ret. eauto.
Qed.

End Termination.

Section TerminationExamples.
Import Game Scenario.

Lemma step_done_witness :
  let out := value (no_tensor, 0, blank) (apply_action dice finale 202 0) in
  let fin := value (no_step, blank) (step dice finale 202 0) in
  apply_action dice finale 202 0 = Ok out ∧
  step dice finale 202 0 = Ok fin ∧
  reward fin.1 = 20 ∧
  order fin.2 = [202; 201] ∧
  done fin.1 = true ∧
  same_faction out.2 (order out.2).
Proof.
  intros out fin.
  assert (Hact : apply_action dice finale 202 0 = Ok (out.1.1, out.1.2, out.2))
    by (vm_compute; reflexivity).
  assert (Hstep : step dice finale 202 0 = Ok (fin.1, fin.2))
    by (vm_compute; reflexivity).
  destruct (step_done dice finale 202 0 _ _ _ Hact) as (_ & Hret & _).
  destruct (Hret _ _ Hstep) as (_ & _ & _ & _ & _ & Hdone).
  assert (Hd : done fin.1 = true) by (vm_compute; reflexivity).
  split_and!; [vm_compute; reflexivity|vm_compute; reflexivity|
               vm_compute; reflexivity|vm_compute; reflexivity|exact Hd|].
  by apply Hdone.
Defined.

(** A lone survivor that moves ends the episode, and an order with both
    kinds does not. *)
Lemma step_done_examples :
  (∃ res g', step dice solo 101 3 = Ok (res, g') ∧ order g' = [101] ∧
             done res = true) ∧
  (∃ res g', step dice started 202 0 = Ok (res, g') ∧
             order g' = [101; 202; 201] ∧ reward res = 10 ∧ done res = false).
Proof.
  split.
  - exists (value (no_step, blank) (step dice solo 101 3)).1,
           (value (no_step, blank) (step dice solo 101 3)).2.
    vm_compute. split_and!; reflexivity.
  - exists (value (no_step, blank) (step dice started 202 0)).1,
           (value (no_step, blank) (step dice started 202 0)).2.
    vm_compute. split_and!; reflexivity.
Qed.

(** C3 as stated fails on an empty order: the last entity kills itself, the
    order is empty, every entity remaining in it is trivially of one kind,
    and yet [step] reports nothing because [pop] asserts a non-empty
    order. *)
Lemma step_empty_order_raises :
  let out := value (no_tensor, 0, blank) (apply_action dice solo 101 0) in
  apply_action dice solo 101 0 = Ok out ∧
  order out.2 = [] ∧
  same_faction out.2 (order out.2) ∧
  step dice solo 101 0 = Raise AssertionError ∧
  ¬ (∃ res g', step dice solo 101 0 = Ok (res, g') ∧ done res = true).
Proof.
  intros out.
  assert (Hstep : step dice solo 101 0 = Raise AssertionError)
    by (vm_compute; reflexivity).
  split_and!; [vm_compute; reflexivity|vm_compute; reflexivity| |exact Hstep|].
  - exists Entity.Player. intros x Hx. vm_compute in Hx. by apply elem_of_nil in Hx.
  - intros (res & g' & H & _). rewrite Hstep in H. discriminate H.
Qed.

End TerminationExamples.

Section HandlerExamples.
Import Game Scenario.

Lemma board3_inv : Board.inv board3.
Proof. by destruct (board_init_Ok 3 3 board3) as (? & _). Qed.

Lemma finale_board_inv : Board.inv (board finale).
Proof.
  assert (Hrun : Board.run [Board.Add 101 0 0; Board.Add 201 0 1; Board.Add 202 2 2]
                   board3 = Ok (board finale)) by (vm_compute; reflexivity).
  by destruct (board_run_inv _ _ _ board3_inv Hrun) as (? & _).
Qed.

Lemma handle_attack_outcomes_witness :
  ∃ g', handle_attack dice finale 202 0 = Ok (20, g') ∧
        objs g' !! 101 = Some (Entity.take_damage loner 10) ∧
        101 ∈ dead g' ∧ (101 ∉ order g') ∧ Board.belongs (board g') 101 = false.
Proof.
  assert (Hidx : index_to_agent finale !! 0 = Some 101) by (vm_compute; reflexivity).
  assert (Hann : announce finale [202; 101] = Ok tt) by (vm_compute; reflexivity).
  assert (Ha : objs finale !! 202 = Some e2) by (vm_compute; reflexivity).
  assert (Ht : objs finale !! 101 = Some loner) by (vm_compute; reflexivity).
  assert (Hdead : 101 ∉ dead finale)
    by (apply (bool_decide_unpack _); vm_compute; exact I).
  assert (Horder : 101 ∈ order finale)
    by (apply (bool_decide_unpack _); vm_compute; exact I).
  assert (Hnd : NoDup (order finale))
    by (apply (bool_decide_unpack _); vm_compute; exact I).
  assert (Hboard : Board.belongs (board finale) 101 = true)
    by (vm_compute; reflexivity).
  assert (Hreach : reachable finale e2 202 101 = Ok true) by (vm_compute; reflexivity).
  destruct (handle_attack_outcomes dice finale 202 0 101 e2 loner
              Hidx Hann Ha Ht Hdead Horder Hboard finale_board_inv Hreach)
    as (d20 & r & Hd20 & Hr & _ & _ & _ & _ & _ & Hkill).
  vm_compute in Hd20. injection Hd20 as <-.
  vm_compute in Hr. injection Hr as <-.
  destruct Hkill as (order1 & b1 & _ & _ & Hatt & _ & _ & Hout & Hoff & _).
  - vm_compute. discriminate.
  - vm_compute. discriminate.
  - eexists. split; [exact Hatt|]. simpl. split_and!.
    + apply lookup_insert_eq.
    + set_solver.
    + by apply Hout.
    + exact Hoff.
Defined.

Lemma handle_heal_outcomes_witness :
  ∃ g', handle_heal dice started 101 0 = Ok (9, g') ∧
        (Entity.potions <$> objs g' !! 101) = Some 0 ∧
        (Entity.hp <$> objs g' !! 101) = Some 20.
Proof.
  assert (Hidx : index_to_agent started !! 0 = Some 101) by (vm_compute; reflexivity).
  assert (Hann : announce started [101; 101] = Ok tt) by (vm_compute; reflexivity).
  assert (Hloc : Board.belongs (board started) 101 = true) by (vm_compute; reflexivity).
  assert (Ha : objs started !! 101 = Some p1) by (vm_compute; reflexivity).
  destruct (handle_heal_outcomes dice started 101 0 101 p1 p1 Hidx Hann Hloc Ha Ha)
    as (reach & Hnear & _ & Hsome).
  vm_compute in Hnear. injection Hnear as <-.
  destruct Hsome as (r & Hr & _ & _ & Hheal); [vm_compute; reflexivity|].
  vm_compute in Hr. injection Hr as <-.
  pose proof (Hheal eq_refl eq_refl) as Heq.
  eexists. split; [rewrite Heq; reflexivity|].
  simpl. rewrite lookup_insert_eq. split; reflexivity.
Defined.

Lemma apply_action_partition_witness :
  n_agents started = 3 ∧
  apply_action dice started 101 5 =
    ('(reward, g1) ← handle_heal dice started 101 2;
     outcome_state ← generate_state g1 101;
     Ok (outcome_state, reward, g1)) ∧
  apply_action dice started 101 10 = Raise ValueError ∧
  apply_action dice started 101 (-1) = Raise ValueError.
Proof.
  assert (Hn : 1 ≤ n_agents started) by (vm_compute; discriminate).
  destruct (apply_action_partition dice started 101 5 Hn)
    as (_ & Hheal & _).
  destruct (apply_action_partition dice started 101 10 Hn)
    as (_ & _ & _ & _ & _ & _ & Hhigh & _).
  destruct (apply_action_partition dice started 101 (-1) Hn)
    as (_ & _ & _ & _ & _ & _ & Hlow & _).
  assert (Hn3 : n_agents started = 3) by (vm_compute; reflexivity).
  split_and!.
  - exact Hn3.
  - apply Hheal. rewrite Hn3. lia.
  - apply Hhigh. right. rewrite Hn3. lia.
  - apply Hlow. left. lia.
Defined.

Lemma penalty_outcomes_witness :
  handle_up started 101 = Ok (-1, started) ∧
  handle_right started 101 = Ok (-1, started) ∧
  handle_attack dice started 101 2 = Ok (-1, set_rng started 4) ∧
  ∃ g', handle_heal dice started 101 2 = Ok (-1, g') ∧
        board g' = board started ∧ dead g' = dead started ∧
        objs g' = <[101 := Entity.set_potions p1 0]> (objs started).
Proof.
  assert (Hloc : Board.belongs (board started) 101 = true) by (vm_compute; reflexivity).
  assert (Ha : objs started !! 101 = Some p1) by (vm_compute; reflexivity).
  destruct (penalty_outcomes dice started 101 p1 Hloc Ha) as [Htarget Hmove].
  assert (Hann1 : announce started [101] = Ok tt) by (vm_compute; reflexivity).
  assert (Hl : Board.loc (board started) !! 101 = Some (0, 0))
    by (vm_compute; reflexivity).
  destruct (Hmove Hann1 0 0 Hl) as (Hup & _ & _ & Hright).
  assert (Hidx : index_to_agent started !! 2 = Some 202) by (vm_compute; reflexivity).
  assert (Hann : announce started [101; 202] = Ok tt) by (vm_compute; reflexivity).
  assert (Ht : objs started !! 202 = Some e2) by (vm_compute; reflexivity).
  destruct (Htarget 2 202 e2 Hidx Hann Ht) as (reach & Hnear & _ & Hatt & _ & Hheal).
  vm_compute in Hnear. injection Hnear as <-.
  split_and!.
  - apply Hup. left. vm_compute. reflexivity.
  - apply Hright. right. apply (bool_decide_unpack _). vm_compute. exact I.
  - apply Hatt; reflexivity.
  - eexists. split; [apply Hheal; [vm_compute; reflexivity|by right]|].
    split_and!; reflexivity.
Defined.

(** C5 as stated fails for a heal that is wasted: the healer has a potion,
    the target is out of reach, the reward is -1 - and the potion is gone. *)
Lemma heal_out_of_reach_spends_potion :
  let out := value (0, blank) (handle_heal dice started 101 2) in
  Board.near (board started) 101 202 = Ok false ∧
  handle_heal dice started 101 2 = Ok out ∧
  out.1 = -1 ∧
  Entity.potions <$> objs started !! 101 = Some 1 ∧
  Entity.potions <$> objs out.2 !! 101 = Some 0 ∧
  objs out.2 ≠ objs started.
Proof.
  intros out.
  assert (H1 : Entity.potions <$> objs started !! 101 = Some 1)
    by (vm_compute; reflexivity).
  assert (H0 : Entity.potions <$> objs out.2 !! 101 = Some 0)
    by (vm_compute; reflexivity).
  split_and!; [vm_compute; reflexivity|vm_compute; reflexivity|
               vm_compute; reflexivity|exact H1|exact H0|].
  intros Heq. rewrite Heq, H1 in H0. discriminate H0.
Qed.

End HandlerExamples.

(** ** Game: reset *)

Section Reset.
Import Game.
Variable shuffle : list Z → nat → list Z * nat.
Hypothesis shuffle_perm : ∀ l k, (shuffle l k).1 ≡ₚ l.

Lemma place_all_app (b : Board.t) (l1 l2 : list (Z * (Z * Z))) :
  place_all b (l1 ++ l2) = (b1 ← place_all b l1; place_all b1 l2).
Proof.
  revert b. induction l1 as [|[e [x y]] l1 IH]; intros b; simpl; [done|].
  destruct (Board.add b e x y) as [b1|]; simpl; [apply IH|done].
Qed.

Lemma place_all_spec (l : list (Z * (Z * Z))) (b b' : Board.t) :
  Board.inv b → NoDup l.*1 → (∀ e, e ∈ l.*1 → Board.loc b !! e = None) →
  place_all b l = Ok b' →
  Board.inv b' ∧ Board.rows b' = Board.rows b ∧ Board.cols b' = Board.cols b ∧
  ∀ e p, Board.loc b' !! e = Some p ↔ (e, p) ∈ l ∨ Board.loc b !! e = Some p.
Proof.
  revert b. induction l as [|[e0 [x y]] l IH]; intros b Hinv Hnd Hfresh; simpl.
  - intros [= <-]. split_and!; try done. intros e p. rewrite elem_of_nil. tauto.
  - intros (b1 & Hadd & Hrest)%bind_Ok.
    apply NoDup_cons in Hnd as [He0 Hnd].
    assert (Hl0 : Board.loc b !! e0 = None).
    { apply Hfresh. simpl. apply list_elem_of_here. }
    assert (Hb : Board.belongs b e0 = false) by by apply contains_false.
    destruct (board_add_inv _ _ _ _ _ Hinv Hb Hadd) as (Hinv1 & _ & Hr1 & Hc1).
    apply board_add_Ok in Hadd as (_ & _ & Hb1).
    assert (Hloc1 : Board.loc b1 = <[e0 := (x, y)]> (Board.loc b)) by by subst b1.
    assert (Hfresh1 : ∀ e, e ∈ l.*1 → Board.loc b1 !! e = None).
    { intros e He. rewrite Hloc1, lookup_insert_ne by (by intros ->).
      apply Hfresh. simpl. by apply list_elem_of_further. }
    destruct (IH b1 Hinv1 Hnd Hfresh1 Hrest) as (Hinv' & Hr' & Hc' & Hloc).
    split_and!; [done|congruence|congruence|].
    intros e p. rewrite Hloc, Hloc1, elem_of_cons.
    destruct (decide (e = e0)) as [->|Hne].
    + rewrite lookup_insert_eq, Hl0. split.
      * intros [?|[= <-]]; [tauto|]. by left; left.
      * intros [[[= <-]|?]|?]; [by right|by left|done].
    + rewrite lookup_insert_ne by done. split.
      * intros [?|?]; tauto.
      * intros [[[= -> _]|?]|?]; [done|by left|by right].
Qed.

Lemma init_registering (r c : Z) (s : bool) (h : gmap Z Entity.t) (k : nat) (g : t) :
  init r c s h k = Ok g → registering g ∧ objs g = h.
Proof.
  intros (b & Hb & ->)%game_init_Ok. split; [|done]. split; simpl.
  - done.
  - split_and!; [done|apply NoDup_nil_2|done].
  - by intros e ?%elem_of_nil.
  - eauto.
  - intros i a. by rewrite lookup_empty.
Qed.

Lemma add_registering (g g' : t) (agent x y : Z) (label : string) :
  registering g → add g agent x y label = Ok g' →
  registering g' ∧ objs g' = objs g.
Proof.
  intros [[Hdim Hn] (Hval & Hnd & Hpos) Hidx (b0 & Hb0 & Hplace) Htargets]
         (_ & Hfresh & b & Hb & ->)%game_add_Ok.
  split; [|done].
  assert (Hfresh' : agent ∉ (initial_position g).*1) by by rewrite Hpos.
  split; simpl.
  - split; [done|]. rewrite od_set_fresh, length_app by done. simpl. lia.
  - rewrite !od_set_fresh by done. rewrite !fmap_app. simpl.
    split_and!; [by rewrite Hval| |by rewrite Hpos].
    apply NoDup_app. split_and!; [done| |apply NoDup_singleton].
    intros e He ->%list_elem_of_singleton. done.
  - rewrite od_set_fresh, fmap_app by done. simpl.
    intros e [He| ->%list_elem_of_singleton]%elem_of_app.
    + destruct (Hidx e He) as (i & Hi & Hir). exists i.
      rewrite lookup_insert_ne by (by intros ->). split; [done|lia].
    + exists (n_agents g). rewrite lookup_insert_eq. split; [done|lia].
  - exists b0. split; [done|].
    rewrite od_set_fresh, place_all_app by done. rewrite Hplace. ret.
    simpl. by rewrite Hb.
  - intros i a. destruct (decide (n_agents g = i)) as [<-|Hi].
    + rewrite lookup_insert_eq. intros [= <-]. apply (proj1 (od_set_keys _ _ _)).
    + rewrite lookup_insert_ne by done. intros Ha%Htargets.
      by apply (proj2 (od_set_keys _ _ _)).
Qed.

Lemma add_all_registering (regs : list (Z * Z * Z * string)) (g g' : t) :
  registering g → add_all regs g = Ok g' → registering g' ∧ objs g' = objs g.
Proof.
  revert g. induction regs as [|[[[agent x] y] label] regs IH]; intros g Hg; simpl.
  - by intros [= <-].
  - intros (g1 & Hadd & Hall)%bind_Ok.
    destruct (add_registering _ _ _ _ _ _ Hg Hadd) as [Hg1 Ho1].
    destruct (IH g1 Hg1 Hall) as [Hg' Ho']. split; [done|congruence].
Qed.

Lemma reset_registering (g1 g : t) :
  registering g1 → same_registry g g1 → agents g ≠ [] →
  (∀ e, e ∈ (agents g).*1 → is_Some (objs g !! e)) →
  ∃ st first g' k,
    reset shuffle g = Ok (st, first, g') ∧
    g' = set_board (set_dead (set_rng (set_order g (order g')) k) ∅) (board g') ∧
    order g' ≡ₚ (agents g).*1 ∧ first ∈ order g' ∧
    Board.inv (board g') ∧
    ∀ e p, Board.loc (board g') !! e = Some p ↔ (e, p) ∈ initial_position g.
Proof.
  intros [[Hdim Hn] (Hval & Hnd & Hpos) Hidx (b0 & Hb0 & Hplace) _]
         (Hr & Hc & Hag & Hip & Hai & Hna & Hcd & _) Hne Halloc.
  rewrite <- Hr, <- Hc in Hb0. rewrite <- Hip in Hplace, Hpos. rewrite <- Hag in *.
  rewrite <- Hai in Hidx. rewrite <- Hna in *. rewrite <- Hcd in Hdim. clear Hag Hip Hai.
  unfold reset, initiative.
  pose proof (shuffle_perm (agents g).*2 (rng g)) as Hperm.
  destruct (shuffle (agents g).*2 (rng g)) as [sh k] eqn:Hsh. simpl in Hperm.
  rewrite Hval in Hperm. simpl rows. simpl cols. rewrite Hb0. ret. simpl.
  rewrite Hplace. ret.
  destruct (board_init_Ok _ _ _ Hb0) as (Hinv0 & Hg0 & Hr0 & Hc0).
  assert (Hloc0 : Board.loc b0 = ∅).
  { unfold Board.init in Hb0. destruct ((rows g <? 0) || (cols g <? 0)); [done|].
    by injection Hb0 as <-. }
  assert (Hdims : 0 ≤ rows g ∧ 0 ≤ cols g).
  { unfold Board.init in Hb0.
    destruct ((rows g <? 0) || (cols g <? 0)) eqn:E; [done|].
    apply orb_false_iff in E. rewrite !Z.ltb_ge in E. done. }
  destruct (place_all_spec (initial_position g) b0 (board g1) Hinv0)
    as (Hinv & Hrows & Hcols & Hloc); [by rewrite Hpos| |done|].
  { intros e _. by rewrite Hloc0. }
  destruct sh as [|first rest].
  { apply Permutation_nil_l in Hperm. destruct (agents g); [done|discriminate]. }
  unfold pop. simpl. ret.
  set (g4 := set_order _ (rest ++ [first])).
  assert (Hrot : rest ++ [first] ≡ₚ (agents g).*1).
  { rewrite <- Hperm. by rewrite (Permutation_app_comm rest [first]). }
  destruct (generate_state_ok g4 first) as [st Hst]; simpl; try lia; try done.
  - apply Forall_forall. intros e He. rewrite Hrot in He.
    assert (e ∈ (initial_position g).*1) as ((e' & p) & -> & Hp)%list_elem_of_fmap
      by by rewrite Hpos.
    simpl in He. destruct p as [x y].
    assert (Hl : Board.loc (board g1) !! e' = Some (x, y)) by (apply Hloc; by left).
    destruct (Board.inv_bounds _ Hinv _ _ _ Hl) as [Hx Hy].
    destruct (Hidx e' He) as (i & Hi & Hir).
    exists x, y, i. simpl. split_and!; try done; try lia. by apply Halloc.
  - apply Halloc. rewrite <- Hperm. apply list_elem_of_here.
  - rewrite Hst. ret. exists st, first, g4, k.
    split_and!; try done.
    + apply elem_of_app. right. apply list_elem_of_here.
    + intros e p. simpl. rewrite Hloc, Hloc0, lookup_empty. split; [|tauto].
      by intros [?|?].
Qed.

(** C10.  In a game whose entities were registered by [add] on a fresh
    [Game], at least one of them, all of them in the store, and whatever
    the board, the order, the dead set and the entities have become since:
    [reset] returns; it leaves the store, hence every entity's hit points,
    potions and alive flag, exactly as it was; it empties the dead set;
    the new order is a permutation of all registered entities and the new
    board has every one of them at its initial position.  In particular an
    entity that was killed earlier (not alive, hit points at most zero) is
    back on the board and in the order while still not alive. *)
Theorem reset_keeps_entities (r c : Z) (s : bool) (h : gmap Z Entity.t) (k : nat)
    (regs : list (Z * Z * Z * string)) (g0 g1 g : t) :
  init r c s h k = Ok g0 →
  add_all regs g0 = Ok g1 →
  regs ≠ [] →
  same_registry g g1 →
  (∀ e, e ∈ (agents g).*1 → is_Some (objs g !! e)) →
  ∃ st first g',
    reset shuffle g = Ok (st, first, g') ∧
    objs g' = objs g ∧
    dead g' = ∅ ∧
    order g' ≡ₚ (agents g).*1 ∧
    first ∈ order g' ∧
    same_registry g' g ∧
    (∀ e p, Board.loc (board g') !! e = Some p ↔ (e, p) ∈ initial_position g) ∧
    (∀ e ent, e ∈ (agents g).*1 → objs g !! e = Some ent →
       Entity.alive ent = false → Entity.hp ent ≤ 0 →
       ∃ p, (e, p) ∈ initial_position g ∧
            Board.loc (board g') !! e = Some p ∧ e ∈ order g' ∧
            ∃ ent', objs g' !! e = Some ent' ∧ Entity.alive ent' = false ∧
                    Entity.hp ent' = Entity.hp ent ∧
                    Entity.potions ent' = Entity.potions ent).
Proof.
  intros Hinit Hall Hregs Hsame Halloc.
  destruct (init_registering _ _ _ _ _ _ Hinit) as [Hg0 _].
  destruct (add_all_registering _ _ _ Hg0 Hall) as [Hg1 _].
  assert (Hne : agents g ≠ []).
  { destruct Hsame as (_ & _ & -> & _). intros Hnil.
    pose proof (add_all_count _ _ _ Hall) as Hcount.
    destruct Hg1 as [[_ Hn] _ _ _ _]. rewrite Hn, Hnil in Hcount.
    apply game_init_Ok in Hinit as (? & _ & ->). simpl in Hcount.
    destruct regs; [done|simpl in Hcount; lia]. }
  destruct (reset_registering g1 g Hg1 Hsame Hne Halloc)
    as (st & first & g' & k' & Hreset & Hg' & Hperm & Hfirst & Hinv & Hloc).
  exists st, first, g'. rewrite Hg'. simpl.
  split_and!; try done.
  - by rewrite <- Hg'.
  - intros e ent He Hent Halive Hhp.
    destruct Hg1 as [_ (_ & _ & Hpos) _ _ _]. destruct Hsame as (_ & _ & Hag & Hip & _).
    rewrite <- Hag, <- Hip in Hpos.
    assert (e ∈ (initial_position g).*1) as ((e' & p) & -> & Hp)%list_elem_of_fmap
      by by rewrite Hpos.
    exists p. split_and!; [done|by apply Hloc|by rewrite Hperm|].
    exists ent. done.
Qed.

End Reset.

Section ResetExamples.
Import Game Scenario.

Lemma reversal_perm (l : list Z) (k : nat) : (reversal l k).1 ≡ₚ l.
Proof. simpl. symmetry. apply Permutation_rev. Qed.

Lemma reset_keeps_entities_witness :
  Entity.alive <$> objs aftermath !! 101 = Some false ∧
  101 ∈ dead aftermath ∧
  Board.belongs (board aftermath) 101 = false ∧
  ∃ st first g',
    reset reversal aftermath = Ok (st, first, g') ∧
    objs g' = objs aftermath ∧
    dead g' = ∅ ∧
    Board.loc (board g') !! 101 = Some (0, 0) ∧
    101 ∈ order g'.
Proof.
  assert (H0 : init 3 3 false store 0 = Ok blank) by reflexivity.
  assert (H1 : add_all registrations blank = Ok registered)
    by (vm_compute; reflexivity).
  assert (H2 : registrations ≠ []) by discriminate.
  assert (H3 : same_registry aftermath registered)
    by (repeat split; vm_compute; reflexivity).
  assert (H4 : ∀ e, e ∈ (agents aftermath).*1 → is_Some (objs aftermath !! e)).
  { apply Forall_forall. apply (bool_decide_unpack _). vm_compute. exact I. }
  destruct (reset_keeps_entities reversal reversal_perm 3 3 false store 0
              registrations blank registered aftermath H0 H1 H2 H3 H4)
    as (st & first & g' & Hreset & Hobjs & Hdead & Hperm & _ & _ & Hloc & _).
  split_and!.
  - vm_compute. reflexivity.
  - apply (bool_decide_unpack _). vm_compute. exact I.
  - vm_compute. reflexivity.
  - exists st, first, g'. split_and!; [exact Hreset|exact Hobjs|exact Hdead| |].
    + apply Hloc. apply (bool_decide_unpack _). vm_compute. exact I.
    + rewrite Hperm. apply (bool_decide_unpack _). vm_compute. exact I.
Defined.

End ResetExamples.

(** ** Game: the states of an episode *)

Section Episode.
Import Game.
Variable entropy : nat → Z.

Lemma same_registry_refl (g : t) : same_registry g g.
Proof. by repeat split. Qed.

Lemma list_remove_Ok (x : Z) (l l' : list Z) :
  list_remove x l = Ok l' → l ≡ₚ x :: l'.
Proof.
  revert l'. induction l as [|y l IH]; intros l'; simpl; [done|].
  case_bool_decide as Hy.
  - intros [= <-]. by subst y.
  - intros (l1 & Hl1 & [= <-])%bind_Ok. rewrite (IH _ Hl1). apply Permutation_swap.
Qed.

Lemma handle_attack_frame (g g' : t) (agent action r : Z) :
  handle_attack entropy g agent action = Ok (r, g') →
  same_registry g' g ∧
  (same_arena g' g ∨
   ∃ target order1 b1,
     list_remove target (order g) = Ok order1 ∧
     Board.remove (board g) target = Ok b1 ∧
     board g' = b1 ∧ order g' = order1 ∧ dead g' = {[ target ]} ∪ dead g).
Proof.
  unfold handle_attack. intros H.
  apply bind_Ok in H as (target & _ & H).
  apply bind_Ok in H as (u & _ & H).
  apply bind_Ok in H as (a & _ & H).
  apply bind_Ok in H as (tg & _ & H).
  apply bind_Ok in H as ([attack k1] & _ & H).
  apply bind_Ok in H as (reach & _ & H).
  apply bind_Ok in H as ([damage k2] & _ & H). cbv zeta in H.
  destruct (bool_decide (target ∈ dead (set_rng g k2)));
    [injection H as <- <-; split; [by repeat split|by left]|].
  destruct (negb reach); [injection H as <- <-; split; [by repeat split|by left]|].
  destruct (bool_decide (Entity.ac tg ≤ attack));
    [|injection H as <- <-; split; [by repeat split|by left]].
  apply bind_Ok in H as (reward & _ & H).
  destruct (negb _); [|injection H as <- <-; split; [by repeat split|by left]].
  apply bind_Ok in H as (order1 & Hrem & H).
  apply bind_Ok in H as (b1 & Hb1 & [= <- <-]).
  split; [by repeat split|]. right. exists target, order1, b1. done.
Qed.

Lemma handle_heal_frame (g g' : t) (agent action r : Z) :
  handle_heal entropy g agent action = Ok (r, g') →
  same_registry g' g ∧ same_arena g' g.
Proof.
  unfold handle_heal. intros H.
  apply bind_Ok in H as (target & _ & H).
  apply bind_Ok in H as (u & _ & H).
  apply bind_Ok in H as (reach & _ & H).
  apply bind_Ok in H as (a & _ & H).
  apply bind_Ok in H as ([[points a1] k] & _ & H). cbv zeta in H.
  apply bind_Ok in H as (tg & _ & H).
  destruct (points =? 0); [injection H as <- <-; by repeat split|].
  destruct (negb (Entity.is_alive tg)); [injection H as <- <-; by repeat split|].
  destruct (negb reach); [injection H as <- <-; by repeat split|].
  apply bind_Ok in H as (reward & _ & [= <- <-]). by repeat split.
Qed.

Lemma handle_dir_frame (g g' : t) (agent r : Z) (dest : Z → Z → Z * Z) :
  handle_dir g agent dest = Ok (r, g') →
  same_registry g' g ∧ order g' = order g ∧ dead g' = dead g ∧
  (board g' = board g ∨
   ∃ x y xf yf, Board.move (board g) x y xf yf = Ok (board g')).
Proof.
  unfold handle_dir. intros H.
  apply bind_Ok in H as (u & _ & H).
  apply bind_Ok in H as ([x y] & _ & H). cbv zeta in H.
  apply bind_Ok in H as (ok & _ & H).
  destruct ok.
  - apply bind_Ok in H as (b & Hb & [= <- <-]). simpl.
    split_and!; [by repeat split|done|done|]. right. eauto.
  - injection H as <- <-. split_and!; [by repeat split|done|done|by left].
Qed.

Lemma board_move_belongs (b b' : Board.t) (x y xf yf e : Z) :
  Board.inv b → Board.move b x y xf yf = Ok b' →
  Board.belongs b' e = Board.belongs b e.
Proof.
  intros Hinv Hmove.
  apply (board_move_Ok _ _ _ _ _ _ Hinv) in Hmove as (eid & He & _ & _ & ->).
  pose proof (proj2 (Board.inv_inverse b Hinv _ _) He) as Hl.
  unfold Board.belongs, contains. simpl. apply bool_decide_ext.
  destruct (decide (e = eid)) as [->|Hne].
  - rewrite lookup_insert_eq, Hl. split; eauto.
  - by rewrite lookup_insert_ne, lookup_delete_ne.
Qed.

Lemma episode_ok_arena (g g' : t) :
  same_registry g' g → same_arena g' g → episode_ok g → episode_ok g'.
Proof.
  intros (_ & _ & Hag & _ & _ & _ & _ & Hita) (Hb & Ho & Hd) [H1 H2 H3 H4 H5].
  split; rewrite ?Hb, ?Ho, ?Hd, ?Hag, ?Hita; done.
Qed.

Lemma episode_ok_kill (g g' : t) (target : Z) (order1 : list Z) (b1 : Board.t) :
  same_registry g' g →
  list_remove target (order g) = Ok order1 →
  Board.remove (board g) target = Ok b1 →
  board g' = b1 → order g' = order1 → dead g' = {[ target ]} ∪ dead g →
  episode_ok g → episode_ok g'.
Proof.
  intros (_ & _ & Hag & _ & _ & _ & _ & Hita) Hrem%list_remove_Ok Hb1 Hb Ho Hd
         [H1 H2 H3 H4 H5].
  assert (Hnd : (target ∉ order1) ∧ NoDup order1).
  { rewrite Hrem in H2. by apply NoDup_cons in H2. }
  destruct (board_remove_inv _ _ _ H1 Hb1) as (Hinv1 & _).
  apply (board_remove_Ok _ _ _ H1) in Hb1 as (x & y & Hl & Hb1).
  split; rewrite ?Hb, ?Ho, ?Hd, ?Hag, ?Hita; try done; try tauto.
  - intros e He.
    assert (e ≠ target) by (intros ->; tauto).
    assert (Hin : e ∈ order g) by (rewrite Hrem; by apply list_elem_of_further).
    apply H3, contains_true in Hin as [p Hp]. apply contains_true. exists p.
    subst b1. simpl. by rewrite lookup_delete_ne.
  - intros e He Hdead. apply not_elem_of_union in Hdead as [Hne Hdead].
    apply not_elem_of_singleton in Hne.
    pose proof (H4 e He Hdead) as Hin. rewrite Hrem in Hin.
    by apply elem_of_cons in Hin as [?|?].
Qed.

Lemma episode_ok_move (g g' : t) (x y xf yf : Z) :
  same_registry g' g → order g' = order g → dead g' = dead g →
  Board.move (board g) x y xf yf = Ok (board g') →
  episode_ok g → episode_ok g'.
Proof.
  intros (_ & _ & Hag & _ & _ & _ & _ & Hita) Ho Hd Hmove [H1 H2 H3 H4 H5].
  destruct (board_move_inv _ _ _ _ _ _ H1 Hmove) as (Hinv1 & _).
  split; rewrite ?Ho, ?Hd, ?Hag, ?Hita; try done.
  intros e He. rewrite (board_move_belongs _ _ _ _ _ _ e H1 Hmove). by apply H3.
Qed.

Lemma apply_action_episode_ok (g g1 : t) (agent action r : Z) (st : tensor) :
  episode_ok g → apply_action entropy g agent action = Ok (st, r, g1) →
  episode_ok g1 ∧ same_registry g1 g.
Proof.
  intros Hg H. unfold apply_action in H.
  apply bind_Ok in H as ([r' g'] & Hh & H).
  apply bind_Ok in H as (st' & _ & [= _ _ <-]).
  assert (Hdir : ∀ dest, handle_dir g agent dest = Ok (r', g') →
                         episode_ok g' ∧ same_registry g' g).
  { intros dest (Hreg & Ho & Hd & [Hb|(x & y & xf & yf & Hmove)])%handle_dir_frame.
    - split; [|done]. by apply (episode_ok_arena g g').
    - split; [|done]. by apply (episode_ok_move g g' x y xf yf). }
  destruct ((0 <=? action) && (action <? n_agents g)).
  { apply handle_attack_frame in Hh
      as (Hreg & [Har|(t & o1 & b1 & Hrem & Hb1 & Hb & Ho & Hd)]).
    - split; [|done]. by apply (episode_ok_arena g g').
    - split; [|done]. by apply (episode_ok_kill g g' t o1 b1). }
  destruct ((n_agents g <=? action) && (action <? 2 * n_agents g)).
  { apply handle_heal_frame in Hh as (Hreg & Har).
    split; [|done]. by apply (episode_ok_arena g g'). }
  destruct (action =? 2 * n_agents g); [by apply (Hdir _ Hh)|].
  destruct (action =? 2 * n_agents g + 1); [by apply (Hdir _ Hh)|].
  destruct (action =? 2 * n_agents g + 2); [by apply (Hdir _ Hh)|].
  destruct (action =? 2 * n_agents g + 3); [by apply (Hdir _ Hh)|done].
Qed.

(** Every step of an episode keeps the state well formed. *)
Lemma step_episode_ok (g g' : t) (agent action : Z) (res : step_result) :
  episode_ok g → step entropy g agent action = Ok (res, g') →
  episode_ok g' ∧ same_registry g' g.
Proof.
  intros Hg H. unfold step in H.
  apply bind_Ok in H as ([[st r] g1] & Hact & H).
  apply bind_Ok in H as (d & _ & H).
  apply bind_Ok in H as ([next g2] & Hpop & H).
  apply bind_Ok in H as (ns & _ & [= _ <-]).
  destruct (apply_action_episode_ok g g1 agent action r st Hg Hact) as [Hg1 Hreg].
  apply pop_Ok in Hpop as (rest & Horder & ->).
  split; [|done].
  destruct Hg1 as [H1 H2 H3 H4 H5]. rewrite Horder in H2, H3, H4.
  assert (Hperm : rest ++ [next] ≡ₚ next :: rest)
    by by rewrite (Permutation_app_comm rest [next]).
  split; simpl; try done.
  - by rewrite Hperm.
  - intros e He. apply H3. by rewrite <- Hperm.
  - intros e He Hd. rewrite Hperm. by apply H4.
Qed.

Lemma play_episode_ok (moves : list (Z * Z)) (g g' : t) :
  episode_ok g → play entropy g moves = Ok g' →
  episode_ok g' ∧ same_registry g' g.
Proof.
  revert g. induction moves as [|[agent action] moves IH]; intros g Hg; simpl.
  - intros [= <-]. split; [done|apply same_registry_refl].
  - intros ([res g1] & Hstep & Hplay)%bind_Ok. simpl in Hplay.
    destruct (step_episode_ok _ _ _ _ _ Hg Hstep) as [Hg1 Hreg1].
    destruct (IH g1 Hg1 Hplay) as [Hg' Hreg']. split; [done|].
    destruct Hreg1 as (? & ? & ? & ? & ? & ? & ? & ?).
    destruct Hreg' as (? & ? & ? & ? & ? & ? & ? & ?).
    repeat split; congruence.
Qed.

(** In such a state the target of an attack that is not in the dead set is
    in the order and on the board, and the acting entity of the order is on
    the board. *)
Lemma episode_living_target (g : t) (action target : Z) :
  episode_ok g → index_to_agent g !! action = Some target → target ∉ dead g →
  target ∈ order g ∧ Board.belongs (board g) target = true ∧ Board.inv (board g).
Proof.
  intros [H1 H2 H3 H4 H5] Hidx Hdead.
  assert (Hin : target ∈ order g) by (apply H4; [by apply (H5 action)|done]).
  split_and!; [done|by apply H3|done].
Qed.

End Episode.

Section EpisodeStart.
Import Game.
Variable shuffle : list Z → nat → list Z * nat.
Hypothesis shuffle_perm : ∀ l k, (shuffle l k).1 ≡ₚ l.

(** [reset] starts every episode in a well-formed state. *)
Lemma reset_episode_ok (r c : Z) (s : bool) (h : gmap Z Entity.t) (k : nat)
    (regs : list (Z * Z * Z * string)) (g0 g1 g g' : t) (st : tensor) (first : Z) :
  init r c s h k = Ok g0 →
  add_all regs g0 = Ok g1 →
  same_registry g g1 →
  (∀ e, e ∈ (agents g).*1 → is_Some (objs g !! e)) →
  reset shuffle g = Ok (st, first, g') →
  episode_ok g' ∧ same_registry g' g.
Proof.
  intros Hinit Hall Hsame Halloc Hreset.
  destruct (init_registering _ _ _ _ _ _ Hinit) as [Hg0 _].
  destruct (add_all_registering _ _ _ Hg0 Hall) as [Hg1 _].
  assert (Hne : agents g ≠ []).
  { intros Hnil. unfold reset, initiative in Hreset. rewrite Hnil in Hreset.
    pose proof (shuffle_perm [] (rng g)) as Hperm. simpl in Hreset.
    destruct (shuffle [] (rng g)) as [sh k']. simpl in Hperm.
    apply Permutation_nil_r in Hperm. subst sh.
    apply bind_Ok in Hreset as (b0 & _ & Hreset).
    apply bind_Ok in Hreset as (b & _ & Hreset).
    by apply bind_Ok in Hreset as ([a g4] & Hpop & _). }
  destruct (reset_registering shuffle shuffle_perm g1 g Hg1 Hsame Hne Halloc)
    as (st0 & first0 & g0' & k' & Hreset0 & Hg' & Hperm & Hfirst & Hinv & Hloc).
  rewrite Hreset0 in Hreset. injection Hreset as _ _ <-.
  destruct Hg1 as [_ (_ & Hnd & Hpos) _ _ Htargets].
  destruct Hsame as (Hr & Hc & Hag & Hip & Hai & Hna & Hcd & Hita).
  rewrite <- Hag in Hnd, Hpos, Htargets. rewrite <- Hip in Hpos.
  rewrite <- Hita in Htargets.
  assert (Hag' : agents g0' = agents g) by (by rewrite Hg').
  assert (Hita' : index_to_agent g0' = index_to_agent g) by (by rewrite Hg').
  split; [|rewrite Hg'; by repeat split].
  split; rewrite ?Hag', ?Hita'; try done.
  - by rewrite Hperm.
  - intros e He. rewrite Hperm, <- Hpos in He.
    apply list_elem_of_fmap in He as ((e' & p) & -> & Hp).
    apply contains_true. exists p. by apply Hloc.
  - intros e He _. by rewrite Hperm.
Qed.

End EpisodeStart.

(** * Further properties of the code *)

(** ** Board: lookups, occupancy, round trips *)

Section BoardLookups.
Import Board.

Lemma query_Ok (b : t) (e : Z) (p : Z * Z) :
  query b e = Ok p ↔ loc b !! e = Some p.
Proof.
  split; [|apply query_Some]. unfold query, getitem.
  intros (u & _ & H)%bind_Ok. destruct (loc b !! e); [congruence|done].
Qed.

Lemma lquery_Ok (b : t) (x y e : Z) :
  lquery b x y = Ok e ↔ ents b !! (x, y) = Some e.
Proof.
  unfold lquery, getitem. split.
  - intros (u & _ & H)%bind_Ok. destruct (ents b !! (x, y)); [congruence|done].
  - intros He.
    assert (contains (ents b) (x, y) = true) as -> by (apply contains_true; eauto).
    simpl. by rewrite He.
Qed.

(** X1.  On a consistent board, [add] of a handle that is not on the board
    followed by [remove] of that handle gives back exactly the board one
    started from; in between, [query] finds the cell, [lquery] finds the
    handle and [belongs] is true. *)
Theorem board_add_remove_roundtrip (b b1 : t) (e x y : Z) :
  inv b → belongs b e = false → add b e x y = Ok b1 →
  query b1 e = Ok (x, y) ∧ lquery b1 x y = Ok e ∧ belongs b1 e = true ∧
  remove b1 e = Ok b.
Proof.
  intros Hinv Hfresh Hadd.
  destruct (board_add_inv _ _ _ _ _ Hinv Hfresh Hadd) as (Hinv1 & _).
  apply contains_false in Hfresh.
  apply board_add_Ok in Hadd as (Hin & Hfree & ->).
  assert (Hcell : ents b !! (x, y) = None).
  { apply eq_None_not_Some. by rewrite <- (inv_grid b Hinv). }
  split_and!.
  - apply query_Ok. simpl. apply lookup_insert_eq.
  - apply lquery_Ok. simpl. apply lookup_insert_eq.
  - apply contains_true. simpl. rewrite lookup_insert_eq. eauto.
  - apply (board_remove_Ok _ _ _ Hinv1). exists x, y. simpl.
    split; [apply lookup_insert_eq|].
    rewrite !delete_insert_id by done. destruct b. simpl in *. f_equal.
    apply set_eq. intros p. rewrite elem_of_difference, elem_of_union,
      elem_of_singleton. simpl in Hfree.
    destruct (decide (p = (x, y))) as [->|]; [|tauto].
    split; [done|by intros [_ ?]].
Qed.

(** X2.  On a consistent board, removing a handle and adding it again at the
    cell it occupied also gives back exactly the board one started from. *)
Theorem board_remove_add_roundtrip (b b1 : t) (e x y : Z) :
  inv b → query b e = Ok (x, y) → remove b e = Ok b1 →
  belongs b1 e = false ∧ free b1 x y = Ok true ∧ add b1 e x y = Ok b.
Proof.
  intros Hinv Hl%query_Ok Hrem.
  apply (board_remove_Ok _ _ _ Hinv) in Hrem as (x' & y' & Hl' & ->).
  rewrite Hl in Hl'. injection Hl' as <- <-.
  pose proof (proj1 (inv_inverse b Hinv _ _) Hl) as He.
  destruct (inv_bounds b Hinv _ _ _ Hl) as [Hx Hy].
  assert (Hin : inbounds b x y = true) by by apply inbounds_true.
  assert (Hfree : free {| grid := grid b ∖ {[(x, y)]}; rows := rows b;
                          cols := cols b; ents := delete (x, y) (ents b);
                          loc := delete e (loc b) |} x y = Ok true).
  { apply free_Ok. split; [done|]. simpl. rewrite bool_decide_eq_false_2; [done|].
    rewrite elem_of_difference, elem_of_singleton. tauto. }
  split_and!.
  - apply contains_false. simpl. apply lookup_delete_eq.
  - done.
  - apply board_add_Ok. split_and!; [done| |].
    + simpl. rewrite elem_of_difference, elem_of_singleton. tauto.
    + simpl. rewrite !insert_delete_id by done. destruct b. simpl in *. f_equal.
      assert (Hg : (x, y) ∈ grid0) by (apply (inv_grid _ Hinv); simpl; eauto).
      apply set_eq. intros p. rewrite elem_of_union, elem_of_singleton,
        elem_of_difference, elem_of_singleton.
      destruct (decide (p = (x, y))) as [->|]; tauto.
Qed.

(** X3.  On a consistent board [query] and [lquery] are inverse lookups:
    [query(e)] returns the cell [(x, y)] exactly when [lquery(x, y)] returns
    [e]; [query] fails its assertion exactly for a handle that is not on the
    board, and a cell found by [query] is within the bounds. *)
Theorem board_query_lquery (b : t) (e x y : Z) :
  inv b →
  (query b e = Ok (x, y) ↔ lquery b x y = Ok e) ∧
  (query b e = Raise AssertionError ↔ belongs b e = false) ∧
  (query b e = Ok (x, y) → inbounds b x y = true ∧ belongs b e = true).
Proof.
  intros Hinv. split_and!.
  - rewrite query_Ok, lquery_Ok. apply (inv_inverse b Hinv).
  - unfold query, belongs, getitem. destruct (contains (loc b) e) eqn:Hc; simpl.
    + apply contains_true in Hc as [p ->]. split; discriminate.
    + done.
  - intros Hl%query_Ok. split.
    + apply inbounds_true. by apply (inv_bounds b Hinv e).
    + apply contains_true. eauto.
Qed.

(** X4.  Occupancy of a cell.  Outside the bounds [free] and [used] both
    fail their assertion (a negative index never wraps around).  Inside the
    bounds both return, [free] is the negation of [used], and on a
    consistent board [used] is true exactly when [lquery] finds an entity in
    the cell, which [query] then maps back to the cell. *)
Theorem board_cell_status (b : t) (x y : Z) :
  inv b →
  (inbounds b x y = false →
     free b x y = Raise AssertionError ∧ used b x y = Raise AssertionError) ∧
  (inbounds b x y = true →
     ∃ u, used b x y = Ok u ∧ free b x y = Ok (negb u) ∧
          (u = true ↔ ∃ e, lquery b x y = Ok e ∧ query b e = Ok (x, y)) ∧
          (u = false ↔ lquery b x y = Raise AssertionError)).
Proof.
  intros Hinv. split.
  - intros Hout. unfold used, free. by rewrite Hout.
  - intros Hin. exists (bool_decide ((x, y) ∈ grid b)). split_and!.
    + by apply used_Ok.
    + by apply free_Ok.
    + rewrite bool_decide_eq_true, (inv_grid b Hinv). split.
      * intros [e He]. exists e. split; [by apply lquery_Ok|].
        by apply query_Ok, (inv_inverse b Hinv).
      * intros (e & He%lquery_Ok & _). eauto.
    + rewrite bool_decide_eq_false, (inv_grid b Hinv). unfold lquery, getitem.
      destruct (contains (ents b) (x, y)) eqn:Hc; simpl.
      * apply contains_true in Hc as [e He]. rewrite He. split; [|done].
        intros Hn. destruct Hn. eauto.
      * apply contains_false in Hc. rewrite Hc. split; [done|].
        intros _ [? ?]. done.
Qed.

End BoardLookups.

Section BoardMoves.
Import Board.

Lemma query_same_loc (b b' : t) (e : Z) :
  loc b' !! e = loc b !! e → query b' e = query b e.
Proof. unfold query, contains, getitem. by intros ->. Qed.

Lemma board_move_back (b b' : t) (x y xf yf : Z) :
  inv b → move b x y xf yf = Ok b' → move b' xf yf x y = Ok b.
Proof.
  intros Hinv Hmove.
  destruct (board_move_inv _ _ _ _ _ _ Hinv Hmove) as (Hinv' & _).
  apply (board_move_Ok _ _ _ _ _ _ Hinv) in Hmove as (e & He & Hinf & Hfree & Hb').
  pose proof (proj2 (inv_inverse b Hinv _ _) He) as Hl.
  destruct (inv_bounds b Hinv _ _ _ Hl) as [Hx Hy].
  assert (Hg : (x, y) ∈ grid b) by (apply (inv_grid b Hinv); eauto).
  assert (Hne : (x, y) ≠ (xf, yf)) by (intros [= <- <-]; done).
  assert (Hcell : ents b !! (xf, yf) = None).
  { apply eq_None_not_Some. by rewrite <- (inv_grid b Hinv). }
  apply (board_move_Ok _ _ _ _ _ _ Hinv'). exists e. subst b'. simpl.
  split_and!.
  - apply lookup_insert_eq.
  - by apply inbounds_true.
  - rewrite elem_of_union, elem_of_singleton, elem_of_difference,
      elem_of_singleton. intros [?|[_ ?]]; done.
  - rewrite (delete_insert_id (delete (x, y) (ents b)))
      by (by rewrite lookup_delete_ne).
    rewrite insert_delete_id by done.
    rewrite delete_insert_eq, delete_delete_eq, insert_delete_id by done.
    destruct b. simpl in *. f_equal.
    apply set_eq. intros p.
    rewrite elem_of_union, elem_of_singleton, elem_of_difference,
      elem_of_union, elem_of_singleton, elem_of_difference, !elem_of_singleton.
    destruct (decide (p = (x, y))) as [->|]; [tauto|].
    destruct (decide (p = (xf, yf))) as [->|]; tauto.
Qed.

(** X5.  A successful [move] on a consistent board takes the entity found
    by [lquery] at the source cell to the target cell, frees the source
    cell, leaves the cell of every other handle as it was, and is undone
    exactly by the move back. *)
Theorem board_move_roundtrip (b b' : t) (x y xf yf : Z) :
  inv b → move b x y xf yf = Ok b' →
  ∃ e, lquery b x y = Ok e ∧
       query b' e = Ok (xf, yf) ∧ lquery b' xf yf = Ok e ∧
       free b' x y = Ok true ∧
       (∀ e', e' ≠ e → query b' e' = query b e') ∧
       move b' xf yf x y = Ok b.
Proof.
  intros Hinv Hmove.
  pose proof (board_move_back _ _ _ _ _ _ Hinv Hmove) as Hback.
  apply (board_move_Ok _ _ _ _ _ _ Hinv) in Hmove as (e & He & Hinf & Hfree & Hb').
  pose proof (proj2 (inv_inverse b Hinv _ _) He) as Hl.
  destruct (inv_bounds b Hinv _ _ _ Hl) as [Hx Hy].
  assert (Hg : (x, y) ∈ grid b) by (apply (inv_grid b Hinv); eauto).
  assert (Hne : (x, y) ≠ (xf, yf)) by (intros [= <- <-]; done).
  exists e. split_and!.
  - by apply lquery_Ok.
  - apply query_Ok. subst b'. simpl. apply lookup_insert_eq.
  - apply lquery_Ok. subst b'. simpl. apply lookup_insert_eq.
  - apply free_Ok. subst b'. split; [by apply inbounds_true|]. simpl.
    rewrite bool_decide_eq_false_2; [done|].
    rewrite elem_of_union, elem_of_singleton, elem_of_difference, elem_of_singleton.
    intros [?|[_ ?]]; done.
  - intros e' Hne'. apply query_same_loc. subst b'. simpl.
    by rewrite lookup_insert_ne, lookup_delete_ne.
  - done.
Qed.

(** X6.  For two distinct handles that are on the board, [near] is true
    exactly when the Manhattan distance of their cells is 1: the four
    orthogonal neighbours count, diagonal neighbours and the own cell do
    not; on a consistent board the two cells are different. *)
Theorem near_is_manhattan (b : t) (e1 e2 x1 y1 x2 y2 : Z) :
  query b e1 = Ok (x1, y1) → query b e2 = Ok (x2, y2) → e1 ≠ e2 →
  near b e1 e2 = Ok (bool_decide (Z.abs (x1 - x2) + Z.abs (y1 - y2) = 1)) ∧
  (inv b → (x1, y1) ≠ (x2, y2)).
Proof.
  intros H1%query_Ok H2%query_Ok Hne. split.
  - rewrite (near_on_board b e1 e2 x1 y1 x2 y2 H1 H2 Hne). f_equal.
    repeat case_bool_decide; simpl; try reflexivity; lia.
  - intros Hinv [= <- <-].
    apply (inv_inverse b Hinv) in H1, H2. congruence.
Qed.

(** X7.  On a consistent board a call of [add], [remove] or [move] that
    fails, fails one of the assertions of the code: the dictionary and array
    accesses behind the assertions never raise [KeyError] or [IndexError].
    [remove] fails only for a handle that is not on the board, [add] only
    for a cell out of bounds or occupied. *)
Theorem board_failure_is_assertion (b : t) (o : op) (ex : exn) :
  inv b → apply b o = Raise ex →
  ex = AssertionError ∧
  match o with
  | Add _ x y => inbounds b x y = false ∨ (x, y) ∈ grid b
  | Remove e => belongs b e = false
  | Move x y xf yf =>
      inbounds b x y = false ∨ inbounds b xf yf = false ∨
      (x, y) ∉ grid b ∨ (xf, yf) ∈ grid b
  end.
Proof.
  intros Hinv. destruct o as [e x y|e|x y xf yf]; simpl.
  - intros Hfail. destruct (inbounds b x y) eqn:Hin.
    + destruct (decide ((x, y) ∈ grid b)) as [Hocc|Hfree].
      * split; [|by right]. unfold add in Hfail.
        rewrite (proj2 (free_Ok b x y _) (conj Hin eq_refl)) in Hfail.
        rewrite bool_decide_eq_true_2 in Hfail by done. simpl in Hfail. congruence.
      * rewrite (proj2 (board_add_Ok b e x y _) (conj Hin (conj Hfree eq_refl)))
          in Hfail. discriminate.
    + split; [|by left]. unfold add, free in Hfail. rewrite Hin in Hfail.
      simpl in Hfail. congruence.
  - intros Hfail. destruct (belongs b e) eqn:Hb.
    + apply contains_true in Hb as [[x y] Hl].
      rewrite (proj2 (board_remove_Ok b e _ Hinv)) in Hfail by eauto. discriminate.
    + split; [|done]. unfold remove in Hfail. unfold belongs in Hb.
      rewrite Hb in Hfail. simpl in Hfail. congruence.
  - intros Hfail. unfold move in Hfail.
    destruct (inbounds b x y) eqn:Hin; simpl in Hfail;
      [|split; [congruence|by left]].
    destruct (inbounds b xf yf) eqn:Hinf; simpl in Hfail;
      [|split; [congruence|by right; left]].
    destruct (decide ((x, y) ∈ grid b)) as [Hocc|Hfree]; cycle 1.
    { split; [|by right; right; left].
      assert (contains (ents b) (x, y) = false) as Hc.
      { apply contains_false, eq_None_not_Some. by rewrite <- (inv_grid b Hinv). }
      rewrite Hc in Hfail. simpl in Hfail. congruence. }
    destruct (decide ((xf, yf) ∈ grid b)) as [Hoccf|Hfreef].
    { split; [|by right; right; right].
      pose proof Hocc as [e He]%(inv_grid b Hinv).
      assert (contains (ents b) (x, y) = true) as Hc
        by (apply contains_true; eauto).
      rewrite Hc in Hfail. simpl in Hfail.
      rewrite (proj2 (used_Ok b x y _) (conj Hin eq_refl)) in Hfail.
      rewrite bool_decide_eq_true_2 in Hfail by done. simpl in Hfail.
      rewrite (proj2 (free_Ok b xf yf _) (conj Hinf eq_refl)) in Hfail.
      rewrite bool_decide_eq_true_2 in Hfail by done. simpl in Hfail.
      congruence. }
    exfalso. pose proof Hocc as [e He]%(inv_grid b Hinv).
    assert (Hok : move b x y xf yf =
      Ok {| grid := {[ (xf, yf) ]} ∪ grid b ∖ {[ (x, y) ]};
            rows := rows b; cols := cols b;
            ents := <[(xf, yf) := e]> (delete (x, y) (ents b));
            loc := <[e := (xf, yf)]> (delete e (loc b)) |}).
    { apply (board_move_Ok _ _ _ _ _ _ Hinv). exists e. done. }
    unfold move in Hok. rewrite Hin, Hinf in Hok. simpl in Hok.
    rewrite Hok in Hfail. discriminate.
Qed.

End BoardMoves.

(** ** Dice and potions *)

Section DiceBounds.
Variable entropy : nat → Z.

Lemma roll_from_bounds (dice : Z) (n k : nat) :
  1 ≤ dice →
  ∃ v, Utils.roll_from entropy dice n k = Ok (v, (k + n)%nat) ∧
       Z.of_nat n ≤ v ≤ Z.of_nat n * dice.
Proof.
  intros Hd. revert k. induction n as [|n IH]; intros k.
  - exists 0. simpl. rewrite Nat.add_0_r. split; [done|lia].
  - destruct (randint_range entropy 1 dice k Hd) as (v1 & Hv1 & Hr1).
    destruct (IH (S k)) as (v2 & Hv2 & Hr2).
    exists (v1 + v2). cbn -[Utils.randint]. rewrite Hv1. ret. rewrite Hv2. ret.
    replace (S k + n)%nat with (k + S n)%nat by lia. split; [done|nia].
Qed.

(** X8.  [roll(dice, n)] with a die of at least one side takes [n] draws
    and returns a sum between [n] and [n * dice] (0 for [n <= 0], without
    any draw); with a die of less than one side and [n >= 1] it raises
    [ValueError]. *)
Theorem roll_bounds (dice n : Z) (k : nat) :
  (1 ≤ dice →
     ∃ v, Utils.roll entropy dice n k = Ok (v, (k + Z.to_nat n)%nat) ∧
          Z.max 0 n ≤ v ≤ Z.max 0 n * dice) ∧
  (dice < 1 → 1 ≤ n → Utils.roll entropy dice n k = Raise ValueError) ∧
  (n ≤ 0 → Utils.roll entropy dice n k = Ok (0, k)).
Proof.
  unfold Utils.roll. split_and!.
  - intros Hd. destruct (roll_from_bounds dice (Z.to_nat n) k Hd) as (v & Hv & Hr).
    exists v. split; [done|]. lia.
  - intros Hd Hn. destruct (Z.to_nat n) as [|m] eqn:Em; [lia|].
    cbn -[Utils.randint]. unfold Utils.randint.
    by assert ((dice <? 1) = true) as -> by (apply Z.ltb_lt; lia).
  - intros Hn. by assert (Z.to_nat n = 0%nat) as -> by lia.
Qed.

(** X9.  The dice of an entity: the attack score is the attack modifier
    plus 1 to 20 and takes one draw, the damage is the damage modifier plus
    2 to 12 and takes two draws; in particular an entity with a damage
    modifier of at least -2 never deals negative damage. *)
Theorem entity_rolls (e : Entity.t) (k : nat) :
  (∃ v, Entity.roll_attack entropy e k = Ok (v, S k) ∧
        Entity.amod e + 1 ≤ v ≤ Entity.amod e + 20) ∧
  (∃ v, Entity.roll_damage entropy e k = Ok (v, S (S k)) ∧
        Entity.dmod e + 2 ≤ v ≤ Entity.dmod e + 12 ∧
        (-2 ≤ Entity.dmod e → 0 ≤ v)).
Proof.
  split.
  - destruct (roll_attack_value entropy e k) as (v & _ & Hr & ->).
    eexists. split; [done|lia].
  - destruct (roll_damage_value entropy e k) as (v & _ & Hr & ->).
    eexists. split; [done|lia].
Qed.

(** X10.  [use_potion] returns 0 exactly when the entity holds no potion,
    and then changes nothing and takes no draw; otherwise it returns 4 to
    10 points, takes two draws and one potion.  It never touches the hit
    points or the alive flag, and a potion count that is not negative
    stays so. *)
Theorem use_potion_cases (e : Entity.t) (k : nat) :
  ∃ points e' k',
    Entity.use_potion entropy e k = Ok (points, e', k') ∧
    (points = 0 ↔ Entity.potions e ≤ 0) ∧
    (Entity.potions e ≤ 0 → e' = e ∧ k' = k) ∧
    (0 < Entity.potions e →
       4 ≤ points ≤ 10 ∧ k' = S (S k) ∧
       Entity.potions e' = Entity.potions e - 1) ∧
    Entity.hp e' = Entity.hp e ∧ Entity.alive e' = Entity.alive e ∧
    Entity.max_hp e' = Entity.max_hp e ∧ Entity.kind e' = Entity.kind e ∧
    (0 ≤ Entity.potions e → 0 ≤ Entity.potions e').
Proof.
  destruct (decide (Entity.potions e ≤ 0)) as [Hp|Hp].
  - exists 0, e, k. rewrite (use_potion_none entropy e k Hp).
    split_and!; try done; lia.
  - destruct (use_potion_some entropy e k) as (v & _ & Hr & ->); [lia|].
    eexists _, _, _. split; [done|]. simpl. split_and!; try done; try lia.
Qed.

End DiceBounds.

(** ** Game: what the handlers do to the state *)

Section HandlerInversion.
Import Game.
Variable entropy : nat → Z.

Ltac ret_in H := cbn [mbind result_bind] in H.

Lemma getitem_Ok `{Countable K} {V} (d : gmap K V) (k : K) (v : V) :
  getitem d k = Ok v → d !! k = Some v.
Proof. unfold getitem. destruct (d !! k); [congruence|done]. Qed.

Lemma deref_Ok (g : t) (r : Z) (e : Entity.t) :
  deref g r = Ok e → objs g !! r = Some e.
Proof. unfold deref. destruct (objs g !! r); [congruence|done]. Qed.

Lemma attack_reward_factor (agent target : Z) (a tg : Entity.t) (d : Z) :
  (if bool_decide (target = agent) then Ok (-2 * d)
   else if Entity.ally a tg then Ok (- d)
   else if negb (Entity.ally a tg) then Ok d
   else Raise UnboundLocalError)
  = Ok (attack_factor agent target a tg * d).
Proof.
  unfold attack_factor, Entity.ally.
  destruct (bool_decide (target = agent)); [done|].
  destruct (bool_decide (Entity.kind a = Entity.kind tg)); simpl; f_equal; lia.
Qed.

Lemma handle_attack_inv (g g' : t) (agent action r : Z) :
  handle_attack entropy g agent action = Ok (r, g') →
  ∃ target a tg damage,
    index_to_agent g !! action = Some target ∧
    objs g !! agent = Some a ∧ objs g !! target = Some tg ∧
    Entity.dmod a + 2 ≤ damage ≤ Entity.dmod a + 12 ∧
    let g0 := set_rng g (S (S (S (rng g)))) in
    let tg1 := Entity.take_damage tg damage in
    let g1 := set_objs g0 (<[target := tg1]> (objs g)) in
    let reward := attack_factor agent target a tg * damage in
    (g' = g0 ∧ r = -1) ∨
    (g' = g1 ∧ r = reward ∧ (target ∉ dead g) ∧ Entity.alive tg1 = true) ∨
    ((target ∉ dead g) ∧ Entity.alive tg1 = false ∧
     ∃ order1 b1,
       list_remove target (order g) = Ok order1 ∧
       Board.remove (board g) target = Ok b1 ∧
       g' = set_board (set_order (set_dead g1 ({[ target ]} ∪ dead g)) order1) b1 ∧
       r = reward * 2).
Proof.
  unfold handle_attack. intros H.
  apply bind_Ok in H as (target & Hidx%getitem_Ok & H).
  apply bind_Ok in H as (u & _ & H).
  apply bind_Ok in H as (a & Ha%deref_Ok & H).
  apply bind_Ok in H as (tg & Ht%deref_Ok & H).
  destruct (roll_attack_value entropy a (rng g)) as (d20 & _ & _ & Hatt).
  destruct (roll_damage_value entropy a (S (rng g))) as (r6 & _ & Hr6 & Hdmg).
  rewrite Hatt in H. ret_in H.
  apply bind_Ok in H as (reach & _ & H).
  rewrite Hdmg in H. ret_in H. cbv zeta in H. simpl dead in H.
  rewrite attack_reward_factor in H. ret_in H.
  exists target, a, tg, (r6 + Entity.dmod a).
  split_and!; [done|done|done|lia|lia|]. cbv zeta.
  case_bool_decide as Hdead; [injection H as <- <-; by left|].
  destruct (negb reach); [injection H as <- <-; by left|].
  case_bool_decide as Hhit; [|injection H as <- <-; by left].
  unfold Entity.is_alive in H.
  destruct (Entity.alive (Entity.take_damage tg (r6 + Entity.dmod a))) eqn:Halive;
    cbn [negb] in H.
  - injection H as <- <-. right; left. done.
  - apply bind_Ok in H as (order1 & Hrem & H).
    apply bind_Ok in H as (b1 & Hb1 & [= <- <-]).
    right; right. split_and!; [done|done|]. exists order1, b1. done.
Qed.

Lemma handle_heal_inv (g g' : t) (agent action r : Z) :
  handle_heal entropy g agent action = Ok (r, g') →
  ∃ target a points a1 k tg,
    index_to_agent g !! action = Some target ∧
    objs g !! agent = Some a ∧
    Entity.use_potion entropy a (rng g) = Ok (points, a1, k) ∧
    let g1 := set_rng (set_objs g (<[agent := a1]> (objs g))) k in
    objs g1 !! target = Some tg ∧
    ((g' = g1 ∧ r = -1) ∨
     (g' = set_objs g1 (<[target := Entity.heal tg points]> (objs g1)) ∧
      points ≠ 0 ∧ Entity.alive tg = true ∧
      Board.near (board g) agent target = Ok true ∧
      (r = points ∨ r = - points))).
Proof.
  unfold handle_heal. intros H.
  apply bind_Ok in H as (target & Hidx%getitem_Ok & H).
  apply bind_Ok in H as (u & _ & H).
  apply bind_Ok in H as (reach & Hnear & H).
  apply bind_Ok in H as (a & Ha%deref_Ok & H).
  apply bind_Ok in H as ([[points a1] k] & Hpot & H). cbv zeta in H.
  apply bind_Ok in H as (tg & Ht%deref_Ok & H).
  exists target, a, points, a1, k, tg. split_and!; [done|done|done|done|].
  destruct (points =? 0) eqn:Hp; [injection H as <- <-; by left|].
  unfold Entity.is_alive in H.
  destruct (Entity.alive tg) eqn:Halive; simpl in H;
    [|injection H as <- <-; by left].
  destruct reach; simpl in H; [|injection H as <- <-; by left].
  apply bind_Ok in H as (reward & Hrew & [= <- <-]).
  right. split_and!; [done|by apply Z.eqb_neq|done|done|].
  destruct (bool_decide (target = agent)); [left; congruence|].
  destruct (Entity.ally a1 tg); simpl in Hrew; [left|right]; congruence.
Qed.

Lemma handle_dir_inv (g g' : t) (agent r : Z) (dest : Z → Z → Z * Z) :
  handle_dir g agent dest = Ok (r, g') →
  ∃ x y, Board.query (board g) agent = Ok (x, y) ∧
    ((r = -1 ∧ g' = g ∧
      (Board.inbounds (board g) (dest x y).1 (dest x y).2 = false ∨
       Board.free (board g) (dest x y).1 (dest x y).2 = Ok false)) ∨
     (r = 0 ∧ ∃ b, Board.move (board g) x y (dest x y).1 (dest x y).2 = Ok b ∧
                   g' = set_board g b)).
Proof.
  unfold handle_dir. intros H.
  apply bind_Ok in H as (u & _ & H).
  apply bind_Ok in H as ([x y] & Hq & H). cbv zeta in H.
  exists x, y. split; [done|].
  destruct (Board.inbounds (board g) (dest x y).1 (dest x y).2) eqn:Hin.
  - apply bind_Ok in H as (ok & Hfree & H). destruct ok.
    + apply bind_Ok in H as (b & Hb & [= <- <-]). right. eauto.
    + injection H as <- <-. left. eauto.
  - ret_in H. injection H as <- <-. left. eauto.
Qed.

End HandlerInversion.

(** ** Game: the entities in the course of a game *)

Section Stores.
Import Game.
Variable entropy : nat → Z.

Lemma evolves_refl (e : Entity.t) : evolves e e.
Proof. unfold evolves. split_and!; (done || lia). Qed.

Lemma evolves_trans (e1 e2 e3 : Entity.t) :
  evolves e1 e2 → evolves e2 e3 → evolves e1 e3.
Proof.
  unfold evolves. intros (? & ? & ? & ? & ? & ? & ?) (? & ? & ? & ? & ? & ? & ?).
  split_and!; (congruence || lia).
Qed.

Lemma evolves_take_damage (e : Entity.t) (d : Z) :
  evolves e (Entity.take_damage e d).
Proof. unfold evolves. simpl. split_and!; (done || lia). Qed.

Lemma evolves_heal (e : Entity.t) (p : Z) : evolves e (Entity.heal e p).
Proof.
  unfold evolves, Entity.heal. destruct (Entity.alive e); simpl;
    split_and!; (done || lia).
Qed.

Lemma store_insert_evolves (h : gmap Z Entity.t) (t : Z) (ent ent' : Entity.t) :
  h !! t = Some ent → evolves ent ent' →
  ∀ e, option_Forall2 evolves (h !! e) (<[t := ent']> h !! e).
Proof.
  intros Ht Hev e. destruct (decide (e = t)) as [->|Hne].
  - rewrite lookup_insert_eq, Ht. by constructor.
  - rewrite lookup_insert_ne by done.
    destruct (h !! e); constructor. apply evolves_refl.
Qed.

Lemma store_evolves_refl (h : gmap Z Entity.t) (e : Z) :
  option_Forall2 evolves (h !! e) (h !! e).
Proof. destruct (h !! e); constructor. apply evolves_refl. Qed.

Lemma store_evolves_trans (h1 h2 h3 : gmap Z Entity.t) :
  (∀ e, option_Forall2 evolves (h1 !! e) (h2 !! e)) →
  (∀ e, option_Forall2 evolves (h2 !! e) (h3 !! e)) →
  ∀ e, option_Forall2 evolves (h1 !! e) (h3 !! e).
Proof.
  intros H12 H23 e. specialize (H12 e). specialize (H23 e).
  destruct H12 as [a b Hab|]; inversion H23 as [b' c Hbc|]; subst; constructor.
  by apply (evolves_trans a b c).
Qed.

Lemma use_potion_evolves (a a1 : Entity.t) (k k' : nat) (points : Z) :
  Entity.use_potion entropy a k = Ok (points, a1, k') →
  evolves a a1 ∧ (points = 0 ∨ 4 ≤ points ≤ 10) ∧
  Entity.hp a1 = Entity.hp a ∧ Entity.alive a1 = Entity.alive a ∧
  (0 ≤ Entity.potions a → 0 ≤ Entity.potions a1).
Proof.
  intros Hpot. destruct (decide (Entity.potions a ≤ 0)) as [Hp|Hp].
  - rewrite (use_potion_none entropy a k Hp) in Hpot. injection Hpot as <- <- <-.
    split_and!; [apply evolves_refl|by left|done|done|done].
  - destruct (use_potion_some entropy a k) as (v & _ & Hr & Heq); [lia|].
    rewrite Heq in Hpot. injection Hpot as <- <- <-.
    split_and!; [|right; lia|done|done|simpl; lia].
    unfold evolves. simpl. split_and!; (done || lia).
Qed.

Lemma handle_attack_store (g g' : t) (agent action r : Z) :
  handle_attack entropy g agent action = Ok (r, g') →
  ∃ target a tg damage,
    objs g !! agent = Some a ∧ objs g !! target = Some tg ∧
    Entity.dmod a + 2 ≤ damage ≤ Entity.dmod a + 12 ∧
    (objs g' = objs g ∨
     objs g' = <[target := Entity.take_damage tg damage]> (objs g)).
Proof.
  intros (target & a & tg & damage & _ & Ha & Ht & Hd & Hcase)%handle_attack_inv.
  exists target, a, tg, damage. split_and!; [done|done|lia|lia|].
  destruct Hcase as [[-> _]|[(-> & _)|(_ & _ & o1 & b1 & _ & _ & -> & _)]];
    [by left|by right|by right].
Qed.

Lemma handle_heal_store (g g' : t) (agent action r : Z) :
  handle_heal entropy g agent action = Ok (r, g') →
  ∃ target a points a1 k tg,
    objs g !! agent = Some a ∧
    Entity.use_potion entropy a (rng g) = Ok (points, a1, k) ∧
    <[agent := a1]> (objs g) !! target = Some tg ∧
    (objs g' = <[agent := a1]> (objs g) ∨
     objs g' = <[target := Entity.heal tg points]> (<[agent := a1]> (objs g))).
Proof.
  intros (target & a & points & a1 & k & tg & _ & Ha & Hpot & Ht & Hcase)
    %handle_heal_inv.
  exists target, a, points, a1, k, tg. split_and!; [done|done|done|].
  destruct Hcase as [[-> _]|(-> & _)]; [by left|by right].
Qed.

Lemma handle_dir_store (g g' : t) (agent r : Z) (dest : Z → Z → Z * Z) :
  handle_dir g agent dest = Ok (r, g') → objs g' = objs g.
Proof.
  intros (x & y & _ & [(_ & -> & _)|(_ & b & _ & ->)])%handle_dir_inv; done.
Qed.

(** What one resolved action does to the store: nothing, or one of the
    three updates of entity.py. *)
Lemma apply_action_store (g g1 : t) (agent action r : Z) (st : tensor) :
  apply_action entropy g agent action = Ok (st, r, g1) →
  objs g1 = objs g ∨
  (∃ target a tg damage,
     objs g !! agent = Some a ∧ objs g !! target = Some tg ∧
     Entity.dmod a + 2 ≤ damage ≤ Entity.dmod a + 12 ∧
     objs g1 = <[target := Entity.take_damage tg damage]> (objs g)) ∨
  (∃ target a points a1 k tg,
     objs g !! agent = Some a ∧
     Entity.use_potion entropy a (rng g) = Ok (points, a1, k) ∧
     <[agent := a1]> (objs g) !! target = Some tg ∧
     (objs g1 = <[agent := a1]> (objs g) ∨
      objs g1 = <[target := Entity.heal tg points]> (<[agent := a1]> (objs g)))).
Proof.
  intros H. unfold apply_action in H.
  apply bind_Ok in H as ([r' g'] & Hh & H).
  apply bind_Ok in H as (st' & _ & [= _ _ <-]).
  destruct ((0 <=? action) && (action <? n_agents g)).
  { apply handle_attack_store in Hh as (t & a & tg & d & Ha & Ht & Hd & [->| ->]);
      [by left|]. right; left. exists t, a, tg, d. done. }
  destruct ((n_agents g <=? action) && (action <? 2 * n_agents g)).
  { apply handle_heal_store in Hh as (t & a & p & a1 & k & tg & Ha & Hp & Ht & Hc).
    right; right. exists t, a, p, a1, k, tg. done. }
  destruct (action =? 2 * n_agents g); [left; by apply handle_dir_store in Hh|].
  destruct (action =? 2 * n_agents g + 1); [left; by apply handle_dir_store in Hh|].
  destruct (action =? 2 * n_agents g + 2); [left; by apply handle_dir_store in Hh|].
  destruct (action =? 2 * n_agents g + 3); [left; by apply handle_dir_store in Hh|].
  done.
Qed.

Lemma apply_action_evolves (g g1 : t) (agent action r : Z) (st : tensor) :
  apply_action entropy g agent action = Ok (st, r, g1) →
  ∀ e, option_Forall2 evolves (objs g !! e) (objs g1 !! e).
Proof.
  intros [->|[(t & a & tg & d & Ha & Ht & Hd & ->)
             |(t & a & p & a1 & k & tg & Ha & Hp & Ht & Hc)]]%apply_action_store.
  - apply store_evolves_refl.
  - apply (store_insert_evolves _ _ tg); [done|apply evolves_take_damage].
  - destruct (use_potion_evolves _ _ _ _ _ Hp) as (Hev & _).
    pose proof (store_insert_evolves _ _ _ _ Ha Hev) as H1.
    destruct Hc as [->| ->]; [done|].
    apply (store_evolves_trans _ _ _ H1).
    apply (store_insert_evolves _ _ tg); [done|apply evolves_heal].
Qed.

Lemma step_objs (g g' : t) (agent action : Z) (res : step_result) :
  step entropy g agent action = Ok (res, g') →
  ∃ st r g1, apply_action entropy g agent action = Ok (st, r, g1) ∧
             objs g' = objs g1 ∧ order g' ≡ₚ order g1 ∧
             (done res = true ↔ same_faction g1 (order g1)).
Proof.
  intros H. unfold step in H.
  apply bind_Ok in H as ([[st r] g1] & Hact & H).
  apply bind_Ok in H as (d & Hd & H).
  apply bind_Ok in H as ([next g2] & Hpop & H).
  apply bind_Ok in H as (ns & _ & [= <- <-]).
  apply pop_Ok in Hpop as (rest & Horder & ->).
  exists st, r, g1. split_and!; [done|done| |by apply all_ally_same_faction].
  simpl. rewrite Horder. by rewrite (Permutation_app_comm rest [next]).
Qed.

Lemma apply_action_order (g g1 : t) (agent action r : Z) (st : tensor) :
  apply_action entropy g agent action = Ok (st, r, g1) →
  ∀ e, e ∈ order g1 → e ∈ order g.
Proof.
  intros H. unfold apply_action in H.
  apply bind_Ok in H as ([r' g'] & Hh & H).
  apply bind_Ok in H as (st' & _ & [= _ _ <-]).
  assert (Hdir : ∀ dest, handle_dir g agent dest = Ok (r', g') →
                         ∀ e, e ∈ order g' → e ∈ order g).
  { intros dest (_ & -> & _)%handle_dir_frame. done. }
  destruct ((0 <=? action) && (action <? n_agents g)).
  { apply handle_attack_frame in Hh
      as (_ & [(_ & -> & _)|(t & o1 & b1 & Hrem%list_remove_Ok & _ & _ & -> & _)]);
      [done|].
    intros e He. rewrite Hrem. by apply list_elem_of_further. }
  destruct ((n_agents g <=? action) && (action <? 2 * n_agents g)).
  { apply handle_heal_frame in Hh as (_ & (_ & -> & _)). done. }
  destruct (action =? 2 * n_agents g); [by apply (Hdir _ Hh)|].
  destruct (action =? 2 * n_agents g + 1); [by apply (Hdir _ Hh)|].
  destruct (action =? 2 * n_agents g + 2); [by apply (Hdir _ Hh)|].
  destruct (action =? 2 * n_agents g + 3); [by apply (Hdir _ Hh)|done].
Qed.

(** X11.  Once a step has reported [done], the step after it reports it
    too, and so does every later one: an action never adds an entity to the order and never changes the
    kind of an entity, so an order of one faction stays of one faction. *)
Theorem done_is_stable (g g1 g2 : t) (agent action agent' action' : Z)
    (res res' : step_result) :
  step entropy g agent action = Ok (res, g1) →
  done res = true →
  step entropy g1 agent' action' = Ok (res', g2) →
  done res' = true.
Proof.
  intros (st & r & ga & Hact & Hobjs & Hperm & Hdone)%step_objs Hd
         (st' & r' & gb & Hact' & _ & _ & Hdone')%step_objs.
  apply Hdone'. apply Hdone in Hd as [k Hk]. exists k. intros x Hx.
  apply (apply_action_order _ _ _ _ _ _ Hact') in Hx.
  pose proof (apply_action_evolves _ _ _ _ _ _ Hact' x) as Hev.
  rewrite Hperm in Hx. destruct (Hk x Hx) as (e & He & Hkind).
  rewrite Hobjs, He in Hev. inversion Hev as [? e' Hee' E1 E2|]; subst.
  exists e'. split; [done|]. destruct Hee' as (_ & -> & _). done.
Qed.

End Stores.

Section Health.
Import Game.
Variable entropy : nat → Z.

Lemma ages_refl (e : Entity.t) : ages e e.
Proof. split; [apply evolves_refl|done]. Qed.

Lemma ages_trans (e1 e2 e3 : Entity.t) : ages e1 e2 → ages e2 e3 → ages e1 e3.
Proof.
  intros [H12 D12] [H23 D23]. split; [by apply (evolves_trans e1 e2 e3)|auto].
Qed.

Lemma store_insert_ages (h : gmap Z Entity.t) (t : Z) (ent ent' : Entity.t) :
  h !! t = Some ent → ages ent ent' →
  ∀ e, option_Forall2 ages (h !! e) (<[t := ent']> h !! e).
Proof.
  intros Ht Hev e. destruct (decide (e = t)) as [->|Hne].
  - rewrite lookup_insert_eq, Ht. by constructor.
  - rewrite lookup_insert_ne by done.
    destruct (h !! e); constructor. apply ages_refl.
Qed.

Lemma store_ages_trans (h1 h2 h3 : gmap Z Entity.t) :
  (∀ e, option_Forall2 ages (h1 !! e) (h2 !! e)) →
  (∀ e, option_Forall2 ages (h2 !! e) (h3 !! e)) →
  ∀ e, option_Forall2 ages (h1 !! e) (h3 !! e).
Proof.
  intros H12 H23 e. specialize (H12 e). specialize (H23 e).
  destruct H12 as [a b Hab|]; inversion H23 as [b' c Hbc|]; subst; constructor.
  by apply (ages_trans a b c).
Qed.

Lemma store_health_insert (g : t) (h : gmap Z Entity.t) (t : Z) (ent : Entity.t) :
  (∀ e x, h !! e = Some x →
          Entity.health_ok x ∧ -2 ≤ Entity.dmod x ∧ 0 ≤ Entity.potions x) →
  Entity.health_ok ent ∧ -2 ≤ Entity.dmod ent ∧ 0 ≤ Entity.potions ent →
  ∀ e x, <[t := ent]> h !! e = Some x →
         Entity.health_ok x ∧ -2 ≤ Entity.dmod x ∧ 0 ≤ Entity.potions x.
Proof.
  intros Hh Hent e x. destruct (decide (e = t)) as [->|Hne].
  - rewrite lookup_insert_eq. by intros [= <-].
  - rewrite lookup_insert_ne by done. apply Hh.
Qed.

Lemma apply_action_health (g g1 : t) (agent action r : Z) (st : tensor) :
  store_health g → apply_action entropy g agent action = Ok (st, r, g1) →
  store_health g1 ∧ ∀ e, option_Forall2 ages (objs g !! e) (objs g1 !! e).
Proof.
  unfold store_health. intros Hg
    [Heq|[(t & a & tg & d & Ha & Ht & Hd & Heq)
         |(t & a & p & a1 & k & tg & Ha & Hp & Ht & Hc)]]%apply_action_store.
  - rewrite Heq. split; [done|]. intros e. destruct (objs g !! e); constructor.
    apply ages_refl.
  - destruct (Hg _ _ Ha) as (_ & Hda & _). destruct (Hg _ _ Ht) as (Hht & Hdt & Hpt).
    assert (0 ≤ d) by lia. rewrite Heq. split.
    + apply (store_health_insert g); [done|].
      split_and!; [by apply take_damage_health|done|done].
    + apply (store_insert_ages _ _ tg); [done|]. split; [apply evolves_take_damage|].
      apply (apply_stays_dead tg (Entity.TakeDamage d)); done.
  - destruct (Hg _ _ Ha) as (Hha & Hda & Hpa).
    destruct (use_potion_evolves _ _ _ _ _ _ Hp) as (Hev & Hpts & Hhp & Hal & Hpot).
    assert (Ha1 : Entity.health_ok a1 ∧ -2 ≤ Entity.dmod a1 ∧ 0 ≤ Entity.potions a1).
    { destruct Hev as (Hm & _ & _ & Hd & _). destruct Hha as [H1 H2].
      split_and!; [split; congruence|lia|by apply Hpot]. }
    pose proof (store_health_insert g _ agent a1 Hg Ha1) as Hg1.
    assert (Hages1 : ages a a1) by (split; [done|congruence]).
    pose proof (store_insert_ages _ _ _ _ Ha Hages1) as H1.
    destruct Hc as [Heq|Heq]; rewrite Heq; [done|].
    destruct (Hg1 _ _ Ht) as (Hht & Hdt & Hpt).
    assert (0 ≤ p) by lia. split.
    + apply (store_health_insert g); [done|].
      split_and!; [by apply heal_health| |].
      * unfold Entity.heal. by destruct (Entity.alive tg).
      * unfold Entity.heal. by destruct (Entity.alive tg).
    + apply (store_ages_trans _ _ _ H1).
      apply (store_insert_ages _ _ tg); [done|]. split; [apply evolves_heal|].
      apply (apply_stays_dead tg (Entity.Heal p)); done.
Qed.

(** X12.  In a game whose entities are all in good health (hit points at
    most the maximum, alive exactly when they are positive), none with a
    damage modifier below -2 or a negative potion count, every sequence of
    steps keeps all that; no entity enters or leaves the store; maximum hit
    points, kind, modifiers, armor class and ranged flag of an entity never
    change, its potions never increase, and an entity that is not alive is
    never revived. *)
Theorem play_keeps_health (moves : list (Z * Z)) (g g' : t) :
  store_health g → play entropy g moves = Ok g' →
  store_health g' ∧ ∀ e, option_Forall2 ages (objs g !! e) (objs g' !! e).
Proof.
  revert g. induction moves as [|[agent action] moves IH]; intros g Hg; simpl.
  - intros [= <-]. split; [done|]. intros e. destruct (objs g !! e); constructor.
    apply ages_refl.
  - intros ([res g1] & Hstep & Hplay)%bind_Ok. simpl in Hplay.
    apply step_objs in Hstep as (st & r & ga & Hact & Hobjs & _ & _).
    destruct (apply_action_health _ _ _ _ _ _ Hg Hact) as [Hga Hages].
    assert (Hg1 : store_health g1).
    { unfold store_health. rewrite Hobjs. apply Hga. }
    destruct (IH g1 Hg1 Hplay) as [Hg' Hages']. split; [done|].
    apply (store_ages_trans _ (objs g1)); [by rewrite Hobjs|done].
Qed.

End Health.

(** ** Game: the bookkeeping of an episode *)

Section Census.
Import Game.
Variable entropy : nat → Z.
Variable shuffle : list Z → nat → list Z * nat.
Hypothesis shuffle_perm : ∀ l k, (shuffle l k).1 ≡ₚ l.

Lemma census_arena (g g' : t) :
  same_registry g' g → same_arena g' g → census_ok g → census_ok g'.
Proof.
  intros (_ & _ & _ & _ & _ & Hn & _) (Hb & Ho & Hd) [H1 H2 H3].
  split; rewrite ?Hb, ?Ho, ?Hd, ?Hn; done.
Qed.

Lemma census_kill (g g' : t) (target : Z) (order1 : list Z) (b1 : Board.t) :
  same_registry g' g → target ∉ dead g →
  list_remove target (order g) = Ok order1 →
  Board.remove (board g) target = Ok b1 →
  board g' = b1 → order g' = order1 → dead g' = {[ target ]} ∪ dead g →
  episode_ok g → census_ok g → census_ok g'.
Proof.
  intros (_ & _ & _ & _ & _ & Hn & _) Hdead Hrem%list_remove_Ok Hb1 Hb Ho Hd
         [E1 E2 _ _ _] [H1 H2 H3].
  assert (Hnd : (target ∉ order1) ∧ NoDup order1).
  { rewrite Hrem in E2. by apply NoDup_cons in E2. }
  apply (board_remove_Ok _ _ _ E1) in Hb1 as (x & y & Hl & Hb1).
  split; rewrite ?Hb, ?Ho, ?Hd, ?Hn.
  - rewrite <- H1, Hrem. simpl.
    rewrite size_union by (apply disjoint_singleton_l; done).
    rewrite size_singleton. lia.
  - intros e He. apply not_elem_of_union. split.
    + apply not_elem_of_singleton. intros ->. tauto.
    + apply H2. rewrite Hrem. by apply list_elem_of_further.
  - intros e [p Hp]%contains_true. subst b1. simpl in Hp.
    destruct (decide (e = target)) as [->|Hne]; [by rewrite lookup_delete_eq in Hp|].
    rewrite lookup_delete_ne in Hp by done.
    assert (Hin : e ∈ order g) by (apply H3, contains_true; eauto).
    rewrite Hrem in Hin. by apply elem_of_cons in Hin as [?|?].
Qed.

Lemma census_move (g g' : t) (x y xf yf : Z) :
  same_registry g' g → order g' = order g → dead g' = dead g →
  Board.move (board g) x y xf yf = Ok (board g') →
  episode_ok g → census_ok g → census_ok g'.
Proof.
  intros (_ & _ & _ & _ & _ & Hn & _) Ho Hd Hmove [E1 _ _ _ _] [H1 H2 H3].
  split; rewrite ?Ho, ?Hd, ?Hn; try done.
  intros e He. apply H3. by rewrite <- (board_move_belongs _ _ _ _ _ _ e E1 Hmove).
Qed.

Lemma apply_action_census (g g1 : t) (agent action r : Z) (st : tensor) :
  episode_ok g → census_ok g →
  apply_action entropy g agent action = Ok (st, r, g1) → census_ok g1.
Proof.
  intros Hg Hc H. unfold apply_action in H.
  apply bind_Ok in H as ([r' g'] & Hh & H).
  apply bind_Ok in H as (st' & _ & [= _ _ <-]).
  assert (Hdir : ∀ dest, handle_dir g agent dest = Ok (r', g') → census_ok g').
  { intros dest (Hreg & Ho & Hd & [Hb|(x & y & xf & yf & Hmove)])%handle_dir_frame.
    - by apply (census_arena g g').
    - by apply (census_move g g' x y xf yf). }
  destruct ((0 <=? action) && (action <? n_agents g)).
  { pose proof (handle_attack_frame _ _ _ _ _ _ Hh) as [Hreg _].
    apply handle_attack_inv in Hh
      as (t & a & tg & d & _ & _ & _ & _ &
          [[-> _]|[(-> & _)|(Hdead & _ & o1 & b1 & Hrem & Hb1 & -> & _)]]).
    - by apply (census_arena g).
    - by apply (census_arena g).
    - by apply (census_kill g _ t o1 b1). }
  destruct ((n_agents g <=? action) && (action <? 2 * n_agents g)).
  { apply handle_heal_frame in Hh as (Hreg & Har). by apply (census_arena g g'). }
  destruct (action =? 2 * n_agents g); [by apply (Hdir _ Hh)|].
  destruct (action =? 2 * n_agents g + 1); [by apply (Hdir _ Hh)|].
  destruct (action =? 2 * n_agents g + 2); [by apply (Hdir _ Hh)|].
  destruct (action =? 2 * n_agents g + 3); [by apply (Hdir _ Hh)|done].
Qed.

Lemma step_census (g g' : t) (agent action : Z) (res : step_result) :
  episode_ok g → census_ok g → step entropy g agent action = Ok (res, g') →
  census_ok g'.
Proof.
  intros Hg Hc H. unfold step in H.
  apply bind_Ok in H as ([[st r] g1] & Hact & H).
  apply bind_Ok in H as (d & _ & H).
  apply bind_Ok in H as ([next g2] & Hpop & H).
  apply bind_Ok in H as (ns & _ & [= _ <-]).
  destruct (apply_action_census g g1 agent action r st Hg Hc Hact) as [H1 H2 H3].
  apply pop_Ok in Hpop as (rest & Horder & ->).
  rewrite Horder in H1, H2, H3.
  assert (Hperm : rest ++ [next] ≡ₚ next :: rest)
    by by rewrite (Permutation_app_comm rest [next]).
  split; simpl.
  - by rewrite Hperm.
  - intros e He. apply H2. by rewrite <- Hperm.
  - intros e He. rewrite Hperm. by apply H3.
Qed.

Lemma play_census (moves : list (Z * Z)) (g g' : t) :
  episode_ok g → census_ok g → play entropy g moves = Ok g' → census_ok g'.
Proof.
  revert g. induction moves as [|[agent action] moves IH]; intros g Hg Hc; simpl.
  - by intros [= <-].
  - intros ([res g1] & Hstep & Hplay)%bind_Ok. simpl in Hplay.
    destruct (step_episode_ok entropy _ _ _ _ _ Hg Hstep) as [Hg1 _].
    apply (IH g1 Hg1); [|done]. by apply (step_census g g1 agent action res).
Qed.

Lemma reset_census (r c : Z) (s : bool) (h : gmap Z Entity.t) (k : nat)
    (regs : list (Z * Z * Z * string)) (g0 g1 g g' : t) (st : tensor) (first : Z) :
  init r c s h k = Ok g0 →
  add_all regs g0 = Ok g1 →
  same_registry g g1 →
  (∀ e, e ∈ (agents g).*1 → is_Some (objs g !! e)) →
  reset shuffle g = Ok (st, first, g') →
  census_ok g'.
Proof.
  intros Hinit Hall Hsame Halloc Hreset.
  destruct (init_registering _ _ _ _ _ _ Hinit) as [Hg0 _].
  destruct (add_all_registering _ _ _ Hg0 Hall) as [Hg1 _].
  assert (Hne : agents g ≠ []).
  { intros Hnil. unfold reset, initiative in Hreset. rewrite Hnil in Hreset.
    pose proof (shuffle_perm [] (rng g)) as Hperm. simpl in Hreset.
    destruct (shuffle [] (rng g)) as [sh k']. simpl in Hperm.
    apply Permutation_nil_r in Hperm. subst sh.
    apply bind_Ok in Hreset as (b0 & _ & Hreset).
    apply bind_Ok in Hreset as (b & _ & Hreset).
    by apply bind_Ok in Hreset as ([a g4] & Hpop & _). }
  destruct (reset_registering shuffle shuffle_perm g1 g Hg1 Hsame Hne Halloc)
    as (st0 & first0 & g0' & k' & Hreset0 & Hg' & Hperm & Hfirst & Hinv & Hloc).
  rewrite Hreset0 in Hreset. injection Hreset as _ _ <-.
  destruct Hg1 as [[_ Hn] (_ & _ & Hpos) _ _ _].
  destruct Hsame as (_ & _ & Hag & Hip & _ & Hna & _).
  rewrite <- Hag, <- Hna in Hn. rewrite <- Hag, <- Hip in Hpos.
  assert (Hn' : n_agents g0' = n_agents g) by (by rewrite Hg').
  assert (Hd' : dead g0' = ∅) by (by rewrite Hg').
  split; rewrite ?Hn', ?Hd'.
  - rewrite Hperm, size_empty, Hn, length_fmap. lia.
  - intros e _. apply not_elem_of_empty.
  - intros e [p Hp%Hloc]%contains_true. rewrite Hperm, <- Hpos.
    apply list_elem_of_fmap. by exists (e, p).
Qed.

(** X13.  Every state of an episode - the state [reset] leaves in a game
    registered by [add] on a fresh [Game], and every state reached from it
    by steps - is well formed: the board is consistent, the order has no
    repetition and only entities that are on the board, every registered
    entity outside the dead set is in the order, and rows, columns,
    registered agents, initial positions, indices and their number are
    still what the registration made them. *)
Theorem episode_well_formed (r c : Z) (s : bool) (h : gmap Z Entity.t) (k : nat)
    (regs : list (Z * Z * Z * string)) (moves : list (Z * Z))
    (g0 g1 g g2 g3 : t) (st : tensor) (first : Z) :
  init r c s h k = Ok g0 →
  add_all regs g0 = Ok g1 →
  same_registry g g1 →
  (∀ e, e ∈ (agents g).*1 → is_Some (objs g !! e)) →
  reset shuffle g = Ok (st, first, g2) →
  play entropy g2 moves = Ok g3 →
  episode_ok g3 ∧ same_registry g3 g1.
Proof.
  intros Hinit Hall Hsame Halloc Hreset Hplay.
  destruct (reset_episode_ok shuffle shuffle_perm _ _ _ _ _ _ _ _ _ _ _ _
              Hinit Hall Hsame Halloc Hreset) as [Hg2 Hreg2].
  destruct (play_episode_ok entropy _ _ _ Hg2 Hplay) as [Hg3 Hreg3].
  split; [done|].
  destruct Hsame as (? & ? & ? & ? & ? & ? & ? & ?).
  destruct Hreg2 as (? & ? & ? & ? & ? & ? & ? & ?).
  destruct Hreg3 as (? & ? & ? & ? & ? & ? & ? & ?).
  repeat split; congruence.
Qed.

(** X14.  In every state of an episode the entities in the order and the
    entities in the dead set add up to the registered entities: their
    numbers sum to [n_agents], no entity of the order is in the dead set,
    and every entity on the board is in the order. *)
Theorem episode_census (r c : Z) (s : bool) (h : gmap Z Entity.t) (k : nat)
    (regs : list (Z * Z * Z * string)) (moves : list (Z * Z))
    (g0 g1 g g2 g3 : t) (st : tensor) (first : Z) :
  init r c s h k = Ok g0 →
  add_all regs g0 = Ok g1 →
  same_registry g g1 →
  (∀ e, e ∈ (agents g).*1 → is_Some (objs g !! e)) →
  reset shuffle g = Ok (st, first, g2) →
  play entropy g2 moves = Ok g3 →
  Z.of_nat (length (order g3)) + Z.of_nat (size (dead g3)) = Z.of_nat (length regs) ∧
  (∀ e, e ∈ order g3 → e ∉ dead g3) ∧
  (∀ e, Board.belongs (board g3) e = true ↔ e ∈ order g3).
Proof.
  intros Hinit Hall Hsame Halloc Hreset Hplay.
  destruct (reset_episode_ok shuffle shuffle_perm _ _ _ _ _ _ _ _ _ _ _ _
              Hinit Hall Hsame Halloc Hreset) as [Hg2 Hreg2].
  pose proof (reset_census _ _ _ _ _ _ _ _ _ _ _ _
                Hinit Hall Hsame Halloc Hreset) as Hc2.
  destruct (play_episode_ok entropy _ _ _ Hg2 Hplay) as [Hg3 Hreg3].
  destruct (play_census _ _ _ Hg2 Hc2 Hplay) as [H1 H2 H3].
  split_and!; [|done|].
  - rewrite H1. destruct Hreg3 as (_ & _ & _ & _ & _ & -> & _).
    destruct Hreg2 as (_ & _ & _ & _ & _ & -> & _).
    destruct Hsame as (_ & _ & _ & _ & _ & -> & _).
    rewrite (add_all_count _ _ _ Hall).
    apply game_init_Ok in Hinit as (? & _ & ->). simpl. lia.
  - intros e. split; [apply H3|]. by apply (ep_seated g3 Hg3).
Qed.

End Census.

(** ** Game: the content of the observation *)

Section Observation.
Import Game.

Lemma encode_agent_cell (g : t) (c : Z) (s : tensor) (e : Z) :
  shape s = (rows g, cols g, n_agents g, cell_dim g) → cell_dim g = 5 →
  seated g e → is_Some (objs g !! c) →
  encode_agent g c s e =
    Ok {| shape := shape s; ones := {[ cell_of g c e ]} ∪ ones s |}.
Proof.
  intros Hs Hdim (x & y & i & Hl & Hx & Hy & Hi & Hir & [ee He]) [ec Hc].
  unfold encode_agent, cell_of. cbv zeta. rewrite (query_Some _ _ _ Hl). ret.
  unfold getitem. rewrite Hl, Hi, He, Hc. ret.
  assert (Hset : ∀ cat, 0 ≤ cat < 5 →
            tensor_set s x y i cat =
              Ok {| shape := shape s; ones := {[ (x, y, i, cat) ]} ∪ ones s |}).
  { intros cat Hcat. unfold tensor_set. rewrite Hs.
    rewrite (np_index_in _ _ Hx), (np_index_in _ _ Hy). ret.
    rewrite (np_index_in _ _ Hir). ret.
    rewrite (np_index_in (cell_dim g) cat) by lia. by ret. }
  unfold category. case_bool_decide; [apply Hset; lia|].
  unfold deref. rewrite He, Hc. ret.
  destruct (Entity.ranged ee), (Entity.ally ee ec); simpl; apply Hset; lia.
Qed.

Lemma encode_agents_cells (g : t) (c : Z) (l : list Z) (s : tensor) :
  shape s = (rows g, cols g, n_agents g, cell_dim g) → cell_dim g = 5 →
  Forall (seated g) l → is_Some (objs g !! c) →
  encode_agents g c s l =
    Ok {| shape := shape s; ones := list_to_set (cell_of g c <$> l) ∪ ones s |}.
Proof.
  intros Hs Hdim Hl Hc. revert s Hs.
  induction Hl as [|e l He Hl IH]; intros s Hs; simpl.
  - destruct s as [sh on]. simpl. do 2 f_equal. by rewrite (left_id_L ∅ (∪)).
  - rewrite (encode_agent_cell g c s e Hs Hdim He Hc). ret.
    rewrite IH by done. simpl. do 2 f_equal.
    rewrite (assoc_L (∪)), (comm_L (∪) (list_to_set _) {[ _ ]}). done.
Qed.

Lemma generate_state_cells (g : t) (c : Z) :
  playable g → is_Some (objs g !! c) →
  generate_state g c =
    Ok {| shape := (rows g, cols g, n_agents g, 5);
          ones := list_to_set (cell_of g c <$> order g) |}.
Proof.
  intros (Hr & Hc & Hn & Hdim & Hseated) Hcur. unfold generate_state, zeros.
  assert ((rows g <? 0) || (cols g <? 0) || (n_agents g <? 0) || (cell_dim g <? 0)
          = false) as ->.
  { rewrite !orb_false_iff, !Z.ltb_ge. lia. }
  ret. rewrite encode_agents_cells by done. simpl. rewrite Hdim.
  do 2 f_equal. by rewrite (right_id_L ∅ (∪)).
Qed.

(** X15.  The observation of a state whose order is seated, seen by an
    entity of the store: [generate_state] returns a tensor of shape
    (rows, cols, n_agents, 5) whose ones are exactly the entries
    (x, y, index, category) of the entities of the order, at their
    position on the board, with their registered index and their category
    (0 the observer, 1 and 2 a melee and a ranged entity of its kind, 3
    and 4 a melee and a ranged entity of the other kind).  When the board
    is consistent and the order has no repetition, the tensor holds as
    many ones as the order has entities, and a cell of the board holds at
    most one of them. *)
Theorem generate_state_content (g : t) (c : Z) (oc : Entity.t) :
  playable g → objs g !! c = Some oc →
  ∃ s, generate_state g c = Ok s ∧
    shape s = (rows g, cols g, n_agents g, 5) ∧
    (∀ x y i k, (x, y, i, k) ∈ ones s ↔
       ∃ e a, e ∈ order g ∧ Board.query (board g) e = Ok (x, y) ∧
              agent_index g !! e = Some i ∧ objs g !! e = Some a ∧
              k = category a oc (bool_decide (e = c))) ∧
    (Board.inv (board g) → NoDup (order g) →
       size (ones s) = length (order g) ∧
       ∀ x y i k i' k', (x, y, i, k) ∈ ones s → (x, y, i', k') ∈ ones s →
                        i = i' ∧ k = k').
Proof.
  intros Hplay Hc. rewrite generate_state_cells by eauto.
  destruct Hplay as (_ & _ & _ & _ & Hseated).
  rewrite Forall_forall in Hseated.
  assert (Hcell : ∀ x y i k, (x, y, i, k) ∈ cell_of g c <$> order g ↔
            ∃ e a, e ∈ order g ∧ Board.query (board g) e = Ok (x, y) ∧
                   agent_index g !! e = Some i ∧ objs g !! e = Some a ∧
                   k = category a oc (bool_decide (e = c))).
  { intros x y i k. rewrite list_elem_of_fmap. split.
    - intros (e & Heq & He). exists e.
      destruct (Hseated e He) as (x' & y' & i' & Hl & _ & _ & Hi & _ & [a Ha]).
      unfold cell_of in Heq. rewrite Hl, Hi, Ha, Hc in Heq.
      injection Heq as -> -> -> ->. exists a. by rewrite query_Ok.
    - intros (e & a & He & Hl%query_Ok & Hi & Ha & ->). exists e. split; [|done].
      unfold cell_of. by rewrite Hl, Hi, Ha, Hc. }
  eexists. split; [done|]. simpl. split; [done|]. split.
  { intros x y i k. by rewrite elem_of_list_to_set. }
  intros Hinv Hnd.
  assert (Hsame : ∀ e e' x y, Board.query (board g) e = Ok (x, y) →
            Board.query (board g) e' = Ok (x, y) → e = e').
  { intros e e' x y Hl%query_Ok Hl'%query_Ok.
    apply (Board.inv_inverse _ Hinv) in Hl, Hl'. congruence. }
  split.
  - rewrite size_list_to_set, length_fmap; [done|].
    apply NoDup_fmap_2_strong; [|done].
    intros e e' He He' Heq.
    destruct (Hseated e He) as (x & y & i & Hl & _ & _ & Hi & _ & [a Ha]).
    destruct (Hseated e' He') as (x' & y' & i' & Hl' & _ & _ & Hi' & _ & [a' Ha']).
    unfold cell_of in Heq. rewrite Hl, Hi, Ha, Hl', Hi', Ha', Hc in Heq.
    injection Heq as -> -> _ _.
    apply (Hsame e e' x' y'); by apply query_Some.
  - intros x y i k i' k'.
    rewrite !elem_of_list_to_set, !Hcell.
    intros (e & a & _ & Hq & Hi & Ha & ->) (e' & a' & _ & Hq' & Hi' & Ha' & ->).
    assert (e = e') as <- by by apply (Hsame e e' x y).
    split; congruence.
Qed.

End Observation.

(** ** Game: a step of an episode returns *)

Section Liveness.
Import Game.
Variable entropy : nat → Z.

Lemma same_wiring_refl (g : t) : same_wiring g g.
Proof. split; [apply same_registry_refl|]. by split_and!. Qed.

Lemma wired_next (g g' : t) : same_wiring g' g → wired g → wired g'.
Proof.
  intros ((Hr & Hc & Hag & _ & Hai & Hn & Hcd & Hita) & Hs & Hl & Hbr & Hbc & Hst & Ho)
         [W1 W2 W3 W4 W5 W6].
  split; rewrite ?Hr, ?Hc, ?Hag, ?Hai, ?Hn, ?Hcd, ?Hita, ?Hs, ?Hl, ?Hbr, ?Hbc;
    try done.
  - intros e He. by apply Hst, W4.
  - intros e He. by apply W6, Ho.
Qed.

Lemma insert_keeps_store (h : gmap Z Entity.t) (t : Z) (ent : Entity.t) (e : Z) :
  is_Some (h !! e) → is_Some (<[t := ent]> h !! e).
Proof.
  intros He. destruct (decide (e = t)) as [->|Hne].
  - rewrite lookup_insert_eq. eauto.
  - by rewrite lookup_insert_ne.
Qed.

Lemma handle_attack_wiring (g g' : t) (agent action r : Z) :
  Board.inv (board g) → handle_attack entropy g agent action = Ok (r, g') →
  same_wiring g' g.
Proof.
  intros Hinv H. pose proof (handle_attack_frame _ _ _ _ _ _ H) as [Hreg _].
  split; [done|]. clear Hreg.
  apply handle_attack_inv in H
    as (t & a & tg & d & _ & _ & _ & _ &
        [[-> _]|[(-> & _)|(_ & _ & o1 & b1 & Hrem & Hb1 & -> & _)]]); simpl.
  - by split_and!.
  - split_and!; try done. intros e. apply insert_keeps_store.
  - apply (board_remove_inv _ _ _ Hinv) in Hb1 as (_ & _ & Hrows & Hcols).
    apply list_remove_Ok in Hrem.
    split_and!; try done.
    + intros e. apply insert_keeps_store.
    + intros e He. rewrite Hrem. by apply list_elem_of_further.
Qed.

Lemma handle_heal_wiring (g g' : t) (agent action r : Z) :
  handle_heal entropy g agent action = Ok (r, g') → same_wiring g' g.
Proof.
  intros H. pose proof (handle_heal_frame _ _ _ _ _ _ H) as [Hreg _].
  split; [done|]. clear Hreg.
  apply handle_heal_inv in H
    as (t & a & p & a1 & k & tg & _ & _ & _ & _ & [[-> _]|(-> & _)]); simpl.
  - split_and!; try done. intros e. apply insert_keeps_store.
  - split_and!; try done. intros e He. by do 2 apply insert_keeps_store.
Qed.

Lemma handle_dir_wiring (g g' : t) (agent r : Z) (dest : Z → Z → Z * Z) :
  Board.inv (board g) → handle_dir g agent dest = Ok (r, g') → same_wiring g' g.
Proof.
  intros Hinv H. pose proof (handle_dir_frame _ _ _ _ _ H) as [Hreg _].
  split; [done|]. clear Hreg.
  apply handle_dir_inv in H
    as (x & y & _ & [(_ & -> & _)|(_ & b & Hmove & ->)]); simpl.
  - by split_and!.
  - apply (board_move_inv _ _ _ _ _ _ Hinv) in Hmove as (_ & _ & Hrows & Hcols).
    by split_and!.
Qed.

Lemma handle_attack_ready (g g' : t) (agent action r : Z) :
  episode_ok g → wired g → handle_attack entropy g agent action = Ok (r, g') →
  episode_ok g' ∧ wired g'.
Proof.
  intros Hg Hw H. split.
  - apply handle_attack_frame in H
      as (Hreg & [Har|(t & o1 & b1 & Hrem & Hb1 & Hb & Ho & Hd)]).
    + by apply (episode_ok_arena g g').
    + by apply (episode_ok_kill g g' t o1 b1).
  - apply (wired_next g); [|done].
    apply (handle_attack_wiring g g' agent action r); [apply Hg|done].
Qed.

Lemma handle_heal_ready (g g' : t) (agent action r : Z) :
  episode_ok g → wired g → handle_heal entropy g agent action = Ok (r, g') →
  episode_ok g' ∧ wired g'.
Proof.
  intros Hg Hw H. split.
  - apply handle_heal_frame in H as (Hreg & Har). by apply (episode_ok_arena g g').
  - apply (wired_next g); [|done]. by apply (handle_heal_wiring g g' agent action r).
Qed.

Lemma handle_dir_ready (g g' : t) (agent r : Z) (dest : Z → Z → Z * Z) :
  episode_ok g → wired g → handle_dir g agent dest = Ok (r, g') →
  episode_ok g' ∧ wired g'.
Proof.
  intros Hg Hw H. split.
  - apply handle_dir_frame in H
      as (Hreg & Ho & Hd & [Hb|(x & y & xf & yf & Hmove)]).
    + by apply (episode_ok_arena g g').
    + by apply (episode_ok_move g g' x y xf yf).
  - apply (wired_next g); [|done].
    apply (handle_dir_wiring g g' agent r dest); [apply Hg|done].
Qed.

Lemma ready_seated (g : t) (e : Z) :
  episode_ok g → wired g → e ∈ order g → seated g e.
Proof.
  intros [E1 _ E3 _ _] [(_ & _ & _ & _ & Hbr & Hbc) W2 _ W4 _ W6] He.
  pose proof (E3 e He) as [[x y] Hl]%contains_true.
  destruct (Board.inv_bounds _ E1 _ _ _ Hl) as [Hx Hy].
  destruct (W2 e (W6 e He)) as (i & Hi & Hir).
  exists x, y, i. rewrite <- Hbr, <- Hbc. split_and!; try done; try lia.
  apply W4, W6, He.
Qed.

Lemma ready_playable (g : t) : episode_ok g → wired g → playable g.
Proof.
  intros Hg Hw. destruct (wr_dims g Hw) as (Hr & Hc & Hn & Hcd & _).
  split_and!; try done. apply Forall_forall. intros e He.
  by apply ready_seated.
Qed.

Lemma labels_of_total (m : gmap Z string) (ids : list Z) :
  (∀ e, e ∈ ids → is_Some (m !! e)) → ∃ ls, labels_of m ids = Ok ls.
Proof.
  induction ids as [|i ids IH]; intros Hall; simpl; [by eauto|].
  destruct (Hall i) as [l Hl]; [apply list_elem_of_here|].
  unfold getitem. rewrite Hl. ret.
  destruct IH as [ls ->]; [|ret; by eauto].
  intros e He. apply Hall. by apply list_elem_of_further.
Qed.

Lemma announce_total (g : t) (ids : list Z) :
  wired g → (∀ e, e ∈ ids → e ∈ (agents g).*1) → announce g ids = Ok tt.
Proof.
  intros Hw Hids. unfold announce. destruct (silence g) eqn:Hs; [done|].
  destruct (labels_of_total (label_map g) ids) as [ls ->]; [|done].
  intros e He. apply (wr_labels g Hw Hs). by apply Hids.
Qed.

Lemma handle_attack_total (g : t) (agent action : Z) :
  episode_ok g → wired g → agent ∈ order g → 0 ≤ action < n_agents g →
  ∃ r g', handle_attack entropy g agent action = Ok (r, g').
Proof.
  intros Hg Hw Hagent Hact.
  destruct (wr_actions g Hw action Hact) as (target & Hidx & Htarget).
  pose proof (wr_order g Hw agent Hagent) as Hreg.
  destruct (wr_store g Hw agent Hreg) as [a Ha].
  destruct (wr_store g Hw target Htarget) as [tg Htg].
  unfold handle_attack. rewrite (getitem_Some _ _ _ Hidx). ret.
  rewrite announce_total; [|done|]; cycle 1.
  { intros e [->|[->|[]%elem_of_nil]%elem_of_cons]%elem_of_cons; done. }
  ret. rewrite (deref_Some _ _ _ Ha), (deref_Some _ _ _ Htg). ret.
  destruct (roll_attack_value entropy a (rng g)) as (d20 & _ & _ & Hatt).
  destruct (roll_damage_value entropy a (S (rng g))) as (r6 & _ & Hr6 & Hdmg).
  rewrite Hatt. ret.
  assert (Hreach : ∃ reach, reachable g a agent target = Ok reach).
  { unfold reachable. destruct (Entity.ranged a); [by eauto|].
    apply near_total. by apply (ep_seated g Hg). }
  destruct Hreach as [reach ->]. ret. rewrite Hdmg. ret. cbv zeta. simpl dead.
  rewrite attack_reward_factor. ret.
  case_bool_decide as Hdead; [by eauto|].
  destruct (negb reach); [by eauto|].
  case_bool_decide as Hhit; [|by eauto].
  unfold Entity.is_alive.
  destruct (Entity.alive (Entity.take_damage tg (r6 + Entity.dmod a))); cbn [negb];
    [by eauto|].
  simpl order. simpl board.
  destruct (episode_living_target g action target Hg Hidx Hdead)
    as (Hin & Hon & Hinv).
  destruct (list_remove_elem target (order g) Hin) as (o1 & -> & _). ret.
  apply contains_true in Hon as [[x y] Hl].
  assert (Hrem : ∃ b1, Board.remove (board g) target = Ok b1).
  { eexists. apply (board_remove_Ok _ _ _ Hinv). exists x, y. split; [done|reflexivity]. }
  destruct Hrem as [b1 ->]. ret. eauto.
Qed.

Lemma handle_heal_total (g : t) (agent action : Z) :
  episode_ok g → wired g → agent ∈ order g → 0 ≤ action < n_agents g →
  ∃ r g', handle_heal entropy g agent action = Ok (r, g').
Proof.
  intros Hg Hw Hagent Hact.
  destruct (wr_actions g Hw action Hact) as (target & Hidx & Htarget).
  pose proof (wr_order g Hw agent Hagent) as Hreg.
  destruct (wr_store g Hw agent Hreg) as [a Ha].
  unfold handle_heal. rewrite (getitem_Some _ _ _ Hidx). ret.
  rewrite announce_total; [|done|]; cycle 1.
  { intros e [->|[->|[]%elem_of_nil]%elem_of_cons]%elem_of_cons; done. }
  ret.
  destruct (near_total (board g) agent target) as [reach ->];
    [by apply (ep_seated g Hg)|].
  ret. rewrite (deref_Some _ _ _ Ha). ret.
  assert (Hpot : ∃ p a1 k, Entity.use_potion entropy a (rng g) = Ok (p, a1, k)).
  { destruct (Z_le_gt_dec (Entity.potions a) 0) as [Hp|Hp].
    - rewrite use_potion_none by done. eauto.
    - destruct (use_potion_some entropy a (rng g)) as (v & _ & _ & ->); [lia|]. eauto. }
  destruct Hpot as (p & a1 & k & ->). ret. cbv zeta.
  assert (Htg : is_Some (<[agent := a1]> (objs g) !! target))
    by apply insert_keeps_store, (wr_store g Hw target Htarget).
  destruct Htg as [tg Htg]. unfold deref at 1. simpl objs. rewrite Htg. ret.
  destruct (p =? 0); [by eauto|].
  destruct (negb (Entity.is_alive tg)); [by eauto|].
  destruct (negb reach); [by eauto|].
  destruct (bool_decide (target = agent)); [ret; by eauto|].
  destruct (Entity.ally a1 tg); simpl; ret; by eauto.
Qed.

Lemma handle_dir_total (g : t) (agent : Z) (dest : Z → Z → Z * Z) :
  episode_ok g → wired g → agent ∈ order g →
  ∃ r g', handle_dir g agent dest = Ok (r, g').
Proof.
  intros Hg Hw Hagent.
  pose proof (wr_order g Hw agent Hagent) as Hreg.
  pose proof (ep_board g Hg) as Hinv.
  apply (ep_seated g Hg), contains_true in Hagent as [[x y] Hl].
  unfold handle_dir.
  rewrite announce_total; [|done|]; cycle 1.
  { intros e [->|[]%elem_of_nil]%elem_of_cons; done. }
  ret. rewrite (query_Some _ _ _ Hl). ret. cbv zeta.
  destruct (Board.inbounds (board g) (dest x y).1 (dest x y).2) eqn:Hin;
    [|ret; by eauto].
  rewrite (proj2 (free_Ok _ _ _ _) (conj Hin eq_refl)). ret.
  case_bool_decide as Hfree; simpl; [by eauto|].
  assert (Hmove : ∃ b, Board.move (board g) x y (dest x y).1 (dest x y).2 = Ok b).
  { eexists. apply (board_move_Ok _ _ _ _ _ _ Hinv). exists agent.
    split_and!; [by apply (Board.inv_inverse _ Hinv)|done|done|reflexivity]. }
  destruct Hmove as [b ->]. ret. eauto.
Qed.

Lemma apply_action_ready (g g1 : t) (agent action r : Z) (st : tensor) :
  episode_ok g → wired g →
  apply_action entropy g agent action = Ok (st, r, g1) →
  episode_ok g1 ∧ wired g1.
Proof.
  intros Hg Hw H. unfold apply_action in H.
  apply bind_Ok in H as ([r' g'] & Hh & H).
  apply bind_Ok in H as (st' & _ & [= _ _ <-]).
  destruct ((0 <=? action) && (action <? n_agents g));
    [by apply (handle_attack_ready g g' agent action r')|].
  destruct ((n_agents g <=? action) && (action <? 2 * n_agents g));
    [by apply (handle_heal_ready g g' agent (action - n_agents g) r')|].
  destruct (action =? 2 * n_agents g); [by apply (handle_dir_ready _ _ _ _ _ Hg Hw Hh)|].
  destruct (action =? 2 * n_agents g + 1);
    [by apply (handle_dir_ready _ _ _ _ _ Hg Hw Hh)|].
  destruct (action =? 2 * n_agents g + 2);
    [by apply (handle_dir_ready _ _ _ _ _ Hg Hw Hh)|].
  destruct (action =? 2 * n_agents g + 3);
    [by apply (handle_dir_ready _ _ _ _ _ Hg Hw Hh)|done].
Qed.

Lemma apply_action_total (g : t) (agent action : Z) :
  episode_ok g → wired g → agent ∈ order g →
  0 ≤ action < 2 * n_agents g + 4 →
  ∃ st r g1, apply_action entropy g agent action = Ok (st, r, g1).
Proof.
  intros Hg Hw Hagent Hact.
  assert (Hh : ∃ r g',
    (if (0 <=? action) && (action <? n_agents g) then
       handle_attack entropy g agent action
     else if (n_agents g <=? action) && (action <? 2 * n_agents g) then
       handle_heal entropy g agent (action - n_agents g)
     else if action =? 2 * n_agents g then handle_up g agent
     else if action =? 2 * n_agents g + 1 then handle_down g agent
     else if action =? 2 * n_agents g + 2 then handle_left g agent
     else if action =? 2 * n_agents g + 3 then handle_right g agent
     else Raise ValueError) = Ok (r, g') ∧ episode_ok g' ∧ wired g').
  { destruct ((0 <=? action) && (action <? n_agents g)) eqn:E1.
    { apply andb_true_iff in E1 as [?%Z.leb_le ?%Z.ltb_lt].
      destruct (handle_attack_total g agent action) as (r & g' & Hres); [done..|lia|].
      exists r, g'. split; [done|]. by apply (handle_attack_ready g g' agent action r). }
    destruct ((n_agents g <=? action) && (action <? 2 * n_agents g)) eqn:E2.
    { apply andb_true_iff in E2 as [?%Z.leb_le ?%Z.ltb_lt].
      destruct (handle_heal_total g agent (action - n_agents g)) as (r & g' & Hres);
        [done..|lia|].
      exists r, g'. split; [done|].
      by apply (handle_heal_ready g g' agent (action - n_agents g) r). }
    assert (Hdir : ∀ dest, ∃ r g', handle_dir g agent dest = Ok (r, g') ∧
                                   episode_ok g' ∧ wired g').
    { intros dest. destruct (handle_dir_total g agent dest) as (r & g' & Hres); [done..|].
      exists r, g'. split; [done|]. by apply (handle_dir_ready g g' agent r dest). }
    destruct (Z.eqb_spec action (2 * n_agents g)); [apply Hdir|].
    destruct (Z.eqb_spec action (2 * n_agents g + 1)); [apply Hdir|].
    destruct (Z.eqb_spec action (2 * n_agents g + 2)); [apply Hdir|].
    destruct (Z.eqb_spec action (2 * n_agents g + 3)); [apply Hdir|].
    apply andb_false_iff in E1, E2.
    rewrite Z.leb_gt, Z.ltb_ge in E1. rewrite Z.leb_gt, Z.ltb_ge in E2. lia. }
  destruct Hh as (r & g' & Hh & Hg' & Hw').
  unfold apply_action. rewrite Hh. ret.
  destruct (ready_playable g' Hg' Hw') as (Hr & Hc & Hn & Hcd & Hseated).
  destruct (generate_state_ok g' agent) as [s ->]; try done.
  - apply (wr_store g' Hw').
    assert (Hag : agents g' = agents g).
    { clear -Hh Hg.
      assert (same_registry g' g) as (_ & _ & ? & _); [|done].
      destruct ((0 <=? action) && (action <? n_agents g));
        [by apply handle_attack_frame in Hh as [? _]|].
      destruct ((n_agents g <=? action) && (action <? 2 * n_agents g));
        [by apply handle_heal_frame in Hh as [? _]|].
      destruct (action =? 2 * n_agents g); [by apply handle_dir_frame in Hh as [? _]|].
      destruct (action =? 2 * n_agents g + 1);
        [by apply handle_dir_frame in Hh as [? _]|].
      destruct (action =? 2 * n_agents g + 2);
        [by apply handle_dir_frame in Hh as [? _]|].
      destruct (action =? 2 * n_agents g + 3);
        [by apply handle_dir_frame in Hh as [? _]|done]. }
    rewrite Hag. by apply (wr_order g Hw).
  - ret. eauto.
Qed.

End Liveness.

Section EpisodeLiveness.
Import Game.
Variable entropy : nat → Z.
Variable shuffle : list Z → nat → list Z * nat.
Hypothesis shuffle_perm : ∀ l k, (shuffle l k).1 ≡ₚ l.

Lemma apply_action_order_change (g g1 : t) (agent action r : Z) (st : tensor) :
  apply_action entropy g agent action = Ok (st, r, g1) →
  order g1 = order g ∨
  ∃ target, index_to_agent g !! action = Some target ∧
            list_remove target (order g) = Ok (order g1).
Proof.
  intros H. unfold apply_action in H.
  apply bind_Ok in H as ([r' g'] & Hh & H).
  apply bind_Ok in H as (st' & _ & [= _ _ <-]).
  assert (Hdir : ∀ dest, handle_dir g agent dest = Ok (r', g') →
                         order g' = order g).
  { by intros dest (_ & Ho & _)%handle_dir_frame. }
  destruct ((0 <=? action) && (action <? n_agents g)).
  { apply handle_attack_inv in Hh
      as (t & a & tg & d & Hidx & _ & _ & _ &
          [[-> _]|[(-> & _)|(_ & _ & o1 & b1 & Hrem & _ & -> & _)]]);
      [by left|by left|].
    right. exists t. done. }
  destruct ((n_agents g <=? action) && (action <? 2 * n_agents g)).
  { apply handle_heal_frame in Hh as (_ & _ & Ho & _). by left. }
  destruct (action =? 2 * n_agents g); [left; by apply (Hdir _ Hh)|].
  destruct (action =? 2 * n_agents g + 1); [left; by apply (Hdir _ Hh)|].
  destruct (action =? 2 * n_agents g + 2); [left; by apply (Hdir _ Hh)|].
  destruct (action =? 2 * n_agents g + 3); [left; by apply (Hdir _ Hh)|done].
Qed.

Lemma pop_ready (g : t) (next : Z) (rest : list Z) :
  order g = next :: rest → episode_ok g → wired g →
  episode_ok (set_order g (rest ++ [next])) ∧ wired (set_order g (rest ++ [next])).
Proof.
  intros Horder [H1 H2 H3 H4 H5] [W1 W2 W3 W4 W5 W6].
  rewrite Horder in H2, H3, H4, W6.
  assert (Hperm : rest ++ [next] ≡ₚ next :: rest)
    by by rewrite (Permutation_app_comm rest [next]).
  split; split; simpl; try done.
  - by rewrite Hperm.
  - intros e He. apply H3. by rewrite <- Hperm.
  - intros e He Hd. rewrite Hperm. by apply H4.
  - intros e He. apply W6. by rewrite <- Hperm.
Qed.

Lemma step_ready (g g' : t) (agent action : Z) (res : step_result) :
  episode_ok g → wired g → step entropy g agent action = Ok (res, g') →
  episode_ok g' ∧ wired g'.
Proof.
  intros Hg Hw H. unfold step in H.
  apply bind_Ok in H as ([[st r] g1] & Hact & H).
  apply bind_Ok in H as (d & _ & H).
  apply bind_Ok in H as ([next g2] & Hpop & H).
  apply bind_Ok in H as (ns & _ & [= _ <-]).
  destruct (apply_action_ready entropy g g1 agent action r st Hg Hw Hact) as [Hg1 Hw1].
  apply pop_Ok in Hpop as (rest & Horder & ->).
  by apply pop_ready.
Qed.

Lemma play_ready (moves : list (Z * Z)) (g g' : t) :
  episode_ok g → wired g → play entropy g moves = Ok g' →
  episode_ok g' ∧ wired g'.
Proof.
  revert g. induction moves as [|[agent action] moves IH]; intros g Hg Hw; simpl.
  - by intros [= <-].
  - intros ([res g1] & Hstep & Hplay)%bind_Ok. simpl in Hplay.
    destruct (step_ready _ _ _ _ _ Hg Hw Hstep) as [Hg1 Hw1].
    by apply (IH g1).
Qed.

Lemma step_returns (g : t) (agent action : Z) :
  episode_ok g → wired g → agent ∈ order g →
  0 ≤ action < 2 * n_agents g + 4 →
  (∃ res g', step entropy g agent action = Ok (res, g')) ∨
  (order g = [agent] ∧ index_to_agent g !! action = Some agent ∧
   step entropy g agent action = Raise AssertionError).
Proof.
  intros Hg Hw Hagent Hact.
  destruct (apply_action_total entropy g agent action Hg Hw Hagent Hact)
    as (st & r & g1 & Happ).
  destruct (apply_action_ready entropy g g1 agent action r st Hg Hw Happ)
    as [Hg1 Hw1].
  unfold step. rewrite Happ. ret.
  destruct (all_ally_total g1 (order_pairs g1)) as [d ->].
  { intros x y [Hx Hy]%elem_of_order_pairs.
    split; apply (wr_store g1 Hw1), (wr_order g1 Hw1); done. }
  ret. destruct (order g1) as [|next rest] eqn:Horder.
  - right. rewrite (pop_empty g1 Horder). ret.
    destruct (apply_action_order_change _ _ _ _ _ _ Happ)
      as [Ho|(target & Hidx & Hrem%list_remove_Ok)].
    + rewrite Horder in Ho. rewrite <- Ho in Hagent. by apply elem_of_nil in Hagent.
    + rewrite Horder in Hrem. symmetry in Hrem.
      apply Permutation_length_1_inv in Hrem.
      rewrite Hrem in Hagent. apply list_elem_of_singleton in Hagent as ->.
      done.
  - left. rewrite (proj2 (pop_Ok g1 _ next) (ex_intro _ rest (conj Horder eq_refl))).
    ret.
    destruct (pop_ready g1 next rest Horder Hg1 Hw1) as [Hg2 Hw2].
    destruct (ready_playable _ Hg2 Hw2) as (Hr & Hc & Hn & Hcd & Hseated).
    destruct (generate_state_ok (set_order g1 (rest ++ [next])) next) as [s ->];
      try done.
    + apply (wr_store _ Hw2), (wr_order _ Hw2). simpl.
      apply elem_of_app. right. apply list_elem_of_here.
    + ret. eauto.
Qed.

Lemma place_all_size (l : list (Z * (Z * Z))) (b b' : Board.t) :
  place_all b l = Ok b' →
  Board.rows b' = Board.rows b ∧ Board.cols b' = Board.cols b.
Proof.
  revert b. induction l as [|[e [x y]] l IH]; intros b; simpl.
  - by intros [= <-].
  - intros (b1 & (_ & _ & ->)%board_add_Ok & Hrest)%bind_Ok.
    by apply IH in Hrest.
Qed.

Lemma reset_inv (g g' : t) (st : tensor) (first : Z) :
  reset shuffle g = Ok (st, first, g') →
  0 ≤ rows g ∧ 0 ≤ cols g ∧
  Board.rows (board g') = rows g ∧ Board.cols (board g') = cols g ∧
  silence g' = silence g ∧ label_map g' = label_map g ∧ objs g' = objs g ∧
  order g' ≡ₚ (agents g).*2.
Proof.
  unfold reset, initiative. pose proof (shuffle_perm (agents g).*2 (rng g)) as Hperm.
  destruct (shuffle (agents g).*2 (rng g)) as [sh k']. simpl in Hperm. simpl.
  intros (b0 & Hb0 & H)%bind_Ok.
  apply bind_Ok in H as (b & Hb & H).
  apply bind_Ok in H as ([a g4] & Hpop & H).
  apply bind_Ok in H as (s & _ & [= _ _ <-]).
  apply pop_Ok in Hpop as (rest & Horder & ->). simpl in *.
  apply place_all_size in Hb as [Hrows Hcols].
  assert (Hnn : 0 ≤ rows g ∧ 0 ≤ cols g).
  { unfold Board.init in Hb0.
    destruct ((rows g <? 0) || (cols g <? 0)) eqn:E; [done|].
    apply orb_false_iff in E as [?%Z.ltb_ge ?%Z.ltb_ge]. lia. }
  apply board_init_Ok in Hb0 as (_ & _ & Hr0 & Hc0).
  split_and!; try done; try lia; try congruence.
  rewrite <- Hperm, Horder. by rewrite (Permutation_app_comm rest [a]).
Qed.

Lemma add_wiring (g g' : t) (agent x y : Z) (label : string) :
  add g agent x y label = Ok g' →
  0 ≤ n_agents g →
  (∀ i, 0 ≤ i < n_agents g →
        ∃ a, index_to_agent g !! i = Some a ∧ a ∈ (agents g).*1) →
  (∀ e, e ∈ (agents g).*1 → is_Some (label_map g !! e)) →
  0 ≤ n_agents g' ∧
  (∀ i, 0 ≤ i < n_agents g' →
        ∃ a, index_to_agent g' !! i = Some a ∧ a ∈ (agents g').*1) ∧
  (∀ e, e ∈ (agents g').*1 → is_Some (label_map g' !! e)) ∧
  silence g' = silence g.
Proof.
  intros (_ & Hfresh & b & _ & ->)%game_add_Ok Hn Hidx Hlab. simpl.
  rewrite (od_set_fresh _ _ _ Hfresh), fmap_app. simpl.
  split_and!; [lia| | |done].
  - intros i Hi. destruct (decide (i = n_agents g)) as [->|Hne].
    + exists agent. rewrite lookup_insert_eq. split; [done|].
      apply elem_of_app. right. apply list_elem_of_here.
    + destruct (Hidx i) as (a & Ha & Hin); [lia|].
      exists a. rewrite lookup_insert_ne by done. split; [done|].
      apply elem_of_app. by left.
  - intros e [He|He%list_elem_of_singleton]%elem_of_app; [|subst e].
    + destruct (decide (e = agent)) as [->|Hne]; [by rewrite lookup_insert_eq|].
      rewrite lookup_insert_ne by done. by apply Hlab.
    + by rewrite lookup_insert_eq.
Qed.

Lemma add_all_wiring (regs : list (Z * Z * Z * string)) (g g' : t) :
  add_all regs g = Ok g' →
  0 ≤ n_agents g →
  (∀ i, 0 ≤ i < n_agents g →
        ∃ a, index_to_agent g !! i = Some a ∧ a ∈ (agents g).*1) →
  (∀ e, e ∈ (agents g).*1 → is_Some (label_map g !! e)) →
  0 ≤ n_agents g' ∧
  (∀ i, 0 ≤ i < n_agents g' →
        ∃ a, index_to_agent g' !! i = Some a ∧ a ∈ (agents g').*1) ∧
  (∀ e, e ∈ (agents g').*1 → is_Some (label_map g' !! e)).
Proof.
  revert g. induction regs as [|[[[agent x] y] label] regs IH]; intros g; simpl.
  - by intros [= <-].
  - intros (g1 & Hadd & Hrest)%bind_Ok Hn Hidx Hlab.
    destruct (add_wiring _ _ _ _ _ _ Hadd Hn Hidx Hlab) as (Hn1 & Hidx1 & Hlab1 & _).
    by apply (IH g1).
Qed.

Lemma reset_ready (r c : Z) (s : bool) (h : gmap Z Entity.t) (k : nat)
    (regs : list (Z * Z * Z * string)) (g0 g1 g g' : t) (st : tensor) (first : Z) :
  init r c s h k = Ok g0 →
  add_all regs g0 = Ok g1 →
  same_registry g g1 → label_map g = label_map g1 →
  (∀ e, e ∈ (agents g).*1 → is_Some (objs g !! e)) →
  reset shuffle g = Ok (st, first, g') →
  episode_ok g' ∧ wired g'.
Proof.
  intros Hinit Hall Hsame Hlabels Halloc Hreset.
  destruct (reset_episode_ok shuffle shuffle_perm _ _ _ _ _ _ _ _ _ _ _ _
              Hinit Hall Hsame Halloc Hreset) as [Hg' Hreg'].
  split; [done|].
  destruct (init_registering _ _ _ _ _ _ Hinit) as [Hg0 _].
  destruct (add_all_registering _ _ _ Hg0 Hall) as [[[Hcd Hlen] (H21 & _) Hindex _ _] _].
  destruct (add_all_wiring _ _ _ Hall) as (Hn & Hidx & Hlab).
  { apply game_init_Ok in Hinit as (? & _ & ->). done. }
  { apply game_init_Ok in Hinit as (? & _ & ->). simpl. lia. }
  { apply game_init_Ok in Hinit as (? & _ & ->). simpl. by intros e ?%elem_of_nil. }
  destruct (reset_inv _ _ _ _ Hreset)
    as (Hr & Hc & Hbr & Hbc & Hsil & Hlm & Hobjs & Horder).
  destruct Hreg' as (Hr' & Hc' & Hag' & _ & Hai' & Hn' & Hcd' & Hita').
  destruct Hsame as (_ & _ & Hag & _ & Hai & Hna & Hcdg & Hita).
  split; rewrite ?Hr', ?Hc', ?Hag', ?Hai', ?Hn', ?Hcd', ?Hita', ?Hbr, ?Hbc,
                 ?Hlm, ?Hobjs.
  - rewrite Hna, Hcdg. by split_and!.
  - rewrite Hag, Hai, Hna. apply Hindex.
  - rewrite Hag, Hita, Hna. apply Hidx.
  - done.
  - intros _. rewrite Hag, Hlabels. apply Hlab.
  - intros e He. rewrite Horder, Hag, H21 in He. by rewrite Hag.
Qed.

(** X16.  A step of an episode returns.  In the state [reset] leaves in a
    game registered by [add] on a fresh [Game], with every registered
    entity in the store, and in every state reached from it by steps: a
    step by an entity of the order with an action in [0, 2 * n_agents + 4)
    raises nothing and returns its result.  The one exception is the
    entity that is alone in the order and attacks itself: when that attack
    kills it the order is empty and [step] fails the assertion of [pop]. *)
Theorem episode_step_returns (r c : Z) (s : bool) (h : gmap Z Entity.t) (k : nat)
    (regs : list (Z * Z * Z * string)) (moves : list (Z * Z))
    (g0 g1 g g2 g3 : t) (st : tensor) (first agent action : Z) :
  init r c s h k = Ok g0 →
  add_all regs g0 = Ok g1 →
  same_registry g g1 → label_map g = label_map g1 →
  (∀ e, e ∈ (agents g).*1 → is_Some (objs g !! e)) →
  reset shuffle g = Ok (st, first, g2) →
  play entropy g2 moves = Ok g3 →
  agent ∈ order g3 → 0 ≤ action < 2 * n_agents g3 + 4 →
  (∃ res g4, step entropy g3 agent action = Ok (res, g4)) ∨
  (order g3 = [agent] ∧ index_to_agent g3 !! action = Some agent ∧
   step entropy g3 agent action = Raise AssertionError).
Proof.
  intros Hinit Hall Hsame Hlabels Halloc Hreset Hplay Hagent Hact.
  destruct (reset_ready _ _ _ _ _ _ _ _ _ _ _ _
              Hinit Hall Hsame Hlabels Halloc Hreset) as [Hg2 Hw2].
  destruct (play_ready _ _ _ Hg2 Hw2 Hplay) as [Hg3 Hw3].
  by apply step_returns.
Qed.

End EpisodeLiveness.

(** ** Game: the rotation of the order *)

Section Rotation.
Import Game.

Lemma set_order_id (g : t) : set_order g (order g) = g.
Proof. by destruct g. Qed.

Lemma pop_many_app (l1 l2 : list Z) (g : t) :
  order g = l1 ++ l2 →
  pop_many (length l1) g = Ok (l1, set_order g (l2 ++ l1)).
Proof.
  revert l2 g. induction l1 as [|a l1 IH]; intros l2 g Ho; simpl.
  - rewrite app_nil_r. simpl in Ho. by rewrite <- Ho, set_order_id.
  - rewrite (proj2 (pop_Ok g _ a) (ex_intro _ (l1 ++ l2) (conj Ho eq_refl))). ret.
    rewrite (IH (l2 ++ [a]) (set_order g ((l1 ++ l2) ++ [a]))).
    + ret. unfold set_order. simpl. by rewrite <- app_assoc.
    + simpl. by rewrite <- app_assoc.
Qed.

(** X17.  The order is a round robin: [n] calls of [pop] in a row, [n] at
    most the length of the order, return its first [n] entities in turn
    and leave the order rotated by [n], the rest of the state untouched;
    after as many calls as the order has entities every entity has had
    one turn and the state is the one before the calls. *)
Theorem pop_round_robin (g : t) (n : nat) :
  (n ≤ length (order g))%nat →
  pop_many n g =
    Ok (take n (order g), set_order g (drop n (order g) ++ take n (order g))) ∧
  pop_many (length (order g)) g = Ok (order g, g).
Proof.
  intros Hn. split.
  - rewrite <- (length_take_le (order g) n) at 1 by done.
    apply pop_many_app. by rewrite take_drop.
  - rewrite (pop_many_app (order g) [] g) by by rewrite app_nil_r.
    simpl. by rewrite set_order_id.
Qed.

End Rotation.

(** ** Game: moves *)

Section Moves.
Import Game.

Lemma set_board_back (g : t) (b : Board.t) :
  set_board (set_board g b) (board g) = g.
Proof. by destruct g. Qed.

Lemma handle_dir_back (g g1 : t) (agent x y : Z) (dest dest' : Z → Z → Z * Z) :
  Board.inv (board g) → Board.query (board g) agent = Ok (x, y) →
  dest' (dest x y).1 (dest x y).2 = (x, y) →
  handle_dir g agent dest = Ok (0, g1) →
  Board.query (board g1) agent = Ok (dest x y) ∧
  handle_dir g1 agent dest' = Ok (0, g).
Proof.
  intros Hinv Hq Hdest H.
  assert (Hann : announce g [agent] = Ok tt).
  { unfold handle_dir in H. by apply bind_Ok in H as ([] & Hann & _). }
  apply handle_dir_inv in H as (x' & y' & Hq' & [(Hr & _)|(_ & b & Hmove & ->)]);
    [done|].
  rewrite Hq in Hq'. injection Hq' as <- <-.
  pose proof (board_move_back _ _ _ _ _ _ Hinv Hmove) as Hback.
  destruct (board_move_inv _ _ _ _ _ _ Hinv Hmove) as (Hinv' & _).
  apply query_Ok in Hq.
  pose proof Hmove as Hm.
  apply (board_move_Ok _ _ _ _ _ _ Hinv) in Hm as (e & He & _ & _ & Hb).
  apply (Board.inv_inverse _ Hinv) in Hq. rewrite Hq in He. injection He as <-.
  assert (Hq1 : Board.query b agent = Ok (dest x y)).
  { apply query_Some. subst b. simpl. rewrite lookup_insert_eq.
    by destruct (dest x y). }
  split; [done|].
  pose proof Hback as Hm.
  apply (board_move_Ok _ _ _ _ _ _ Hinv') in Hm as (_ & _ & Hin & Hfree & _).
  unfold handle_dir.
  change (announce (set_board g b) [agent]) with (announce g [agent]).
  rewrite Hann. ret. simpl board. rewrite Hq1. ret.
  destruct (dest x y) as [xf yf] eqn:Hd. simpl in *. cbv zeta.
  rewrite Hdest. simpl. rewrite Hin.
  rewrite (proj2 (free_Ok _ _ _ _) (conj Hin eq_refl)). ret.
  rewrite bool_decide_eq_false_2 by done. simpl.
  rewrite Hback. ret. by rewrite set_board_back.
Qed.

(** X18.  A move that succeeds (reward 0) takes the entity one cell up
    (row - 1), down (row + 1), left (column - 1) or right (column + 1),
    and the opposite move then succeeds too and restores the state of the
    game exactly. *)
Theorem move_there_and_back (g g1 : t) (agent x y : Z) :
  Board.inv (board g) → Board.query (board g) agent = Ok (x, y) →
  (handle_up g agent = Ok (0, g1) →
     Board.query (board g1) agent = Ok (x - 1, y) ∧
     handle_down g1 agent = Ok (0, g)) ∧
  (handle_down g agent = Ok (0, g1) →
     Board.query (board g1) agent = Ok (x + 1, y) ∧
     handle_up g1 agent = Ok (0, g)) ∧
  (handle_left g agent = Ok (0, g1) →
     Board.query (board g1) agent = Ok (x, y - 1) ∧
     handle_right g1 agent = Ok (0, g)) ∧
  (handle_right g agent = Ok (0, g1) →
     Board.query (board g1) agent = Ok (x, y + 1) ∧
     handle_left g1 agent = Ok (0, g)).
Proof.
  intros Hinv Hq. unfold handle_up, handle_down, handle_left, handle_right.
  split_and!; intros H.
  - apply (handle_dir_back g g1 agent x y (λ x y, (x - 1, y)) (λ x y, (x + 1, y))
             Hinv Hq); [|done]. simpl. f_equal. lia.
  - apply (handle_dir_back g g1 agent x y (λ x y, (x + 1, y)) (λ x y, (x - 1, y))
             Hinv Hq); [|done]. simpl. f_equal. lia.
  - apply (handle_dir_back g g1 agent x y (λ x y, (x, y - 1)) (λ x y, (x, y + 1))
             Hinv Hq); [|done]. simpl. f_equal. lia.
  - apply (handle_dir_back g g1 agent x y (λ x y, (x, y + 1)) (λ x y, (x, y - 1))
             Hinv Hq); [|done]. simpl. f_equal. lia.
Qed.

End Moves.

(** ** Player: the actions it chooses and what the game makes of them *)

Section PlayerActions.
Import Game.
Variable lower : string → string.
Variable int : string → option Z.
Variable entropy : nat → Z.

Lemma read_key_skips (junk rest : list string) (key : string) :
  Forall (λ l, lower l ∉ Player.VALID_INPUTS) junk →
  lower key ∈ Player.VALID_INPUTS →
  Player.read_key lower (junk ++ key :: rest) = Player.Answer (lower key) rest.
Proof.
  intros Hjunk Hkey. induction Hjunk as [|l junk Hl _ IH]; simpl.
  - by rewrite bool_decide_eq_true_2.
  - by rewrite bool_decide_eq_false_2.
Qed.

Lemma read_key_valid (lines rest : list string) (ain : string) :
  Player.read_key lower lines = Player.Answer ain rest →
  ain ∈ Player.VALID_INPUTS.
Proof.
  induction lines as [|l lines IH]; simpl; [done|].
  case_bool_decide; [|done]. by intros [= <- _].
Qed.

Lemma read_target_skips (n : Z) (skipped rest : list string) (line : string)
    (target : Z) :
  Forall (λ l, ∃ v, int l = Some v ∧ ¬ (0 ≤ v < n)) skipped →
  int line = Some target → 0 ≤ target < n →
  Player.read_target int n (skipped ++ line :: rest) = Player.Answer target rest.
Proof.
  intros Hskip Hline Ht. induction Hskip as [|l skipped (v & Hv & Hout) _ IH]; simpl.
  - rewrite Hline.
    assert ((0 <=? target) && (target <? n) = true) as ->; [|done].
    apply andb_true_iff. rewrite Z.leb_le, Z.ltb_lt. lia.
  - rewrite Hv.
    assert ((0 <=? v) && (v <? n) = false) as ->; [|done].
    apply andb_false_iff. rewrite Z.leb_gt, Z.ltb_ge. lia.
Qed.

Lemma read_target_range (n : Z) (lines rest : list string) (target : Z) :
  Player.read_target int n lines = Player.Answer target rest → 0 ≤ target < n.
Proof.
  induction lines as [|l lines IH]; simpl; [done|].
  destruct (int l) as [v|]; [|done].
  destruct ((0 <=? v) && (v <? n)) eqn:E; [|done].
  intros [= <- _]. apply andb_true_iff in E. rewrite Z.leb_le, Z.ltb_lt in E. lia.
Qed.

Lemma resolved_by_attack (g : t) (agent a : Z) :
  0 ≤ a < n_agents g →
  resolved_by entropy g agent a (handle_attack entropy g agent a).
Proof.
  intros Ha. unfold resolved_by, apply_action.
  assert ((0 <=? a) && (a <? n_agents g) = true) as ->; [|done].
  apply andb_true_iff. rewrite Z.leb_le, Z.ltb_lt. lia.
Qed.

Lemma resolved_by_heal (g : t) (agent a : Z) :
  n_agents g ≤ a < 2 * n_agents g → 0 ≤ n_agents g →
  resolved_by entropy g agent a (handle_heal entropy g agent (a - n_agents g)).
Proof.
  intros Ha Hn. unfold resolved_by, apply_action.
  assert ((0 <=? a) && (a <? n_agents g) = false) as ->.
  { apply andb_false_iff. rewrite Z.leb_gt, Z.ltb_ge. lia. }
  assert ((n_agents g <=? a) && (a <? 2 * n_agents g) = true) as ->; [|done].
  apply andb_true_iff. rewrite Z.leb_le, Z.ltb_lt. lia.
Qed.

Lemma resolved_by_move (g : t) (agent : Z) :
  0 ≤ n_agents g →
  resolved_by entropy g agent (2 * n_agents g) (handle_up g agent) ∧
  resolved_by entropy g agent (2 * n_agents g + 1) (handle_down g agent) ∧
  resolved_by entropy g agent (2 * n_agents g + 2) (handle_left g agent) ∧
  resolved_by entropy g agent (2 * n_agents g + 3) (handle_right g agent).
Proof.
  intros Hn. unfold resolved_by, apply_action.
  assert (Hout : ∀ a, 2 * n_agents g ≤ a →
            (0 <=? a) && (a <? n_agents g) = false ∧
            (n_agents g <=? a) && (a <? 2 * n_agents g) = false).
  { intros a Ha. split; apply andb_false_iff; rewrite Z.leb_gt, Z.ltb_ge; lia. }
  split_and!.
  - destruct (Hout (2 * n_agents g)) as [-> ->]; [lia|]. by rewrite Z.eqb_refl.
  - destruct (Hout (2 * n_agents g + 1)) as [-> ->]; [lia|].
    rewrite (proj2 (Z.eqb_neq _ _)) by lia. by rewrite Z.eqb_refl.
  - destruct (Hout (2 * n_agents g + 2)) as [-> ->]; [lia|].
    rewrite !(proj2 (Z.eqb_neq (2 * n_agents g + 2) _)) by lia.
    by rewrite Z.eqb_refl.
  - destruct (Hout (2 * n_agents g + 3)) as [-> ->]; [lia|].
    rewrite !(proj2 (Z.eqb_neq (2 * n_agents g + 3) _)) by lia.
    by rewrite Z.eqb_refl.
Qed.

(** X19.  The keys of [get_manual_action] and what the game makes of the
    action they give, for a player built for a game of [n_agents]
    entities (its [action_dim] is 4 + 2 * n_agents).  Lines that are not
    one of w, a, s, d, q, e once lowered are skipped.  The key w gives
    [action_dim - 1], which [apply_action] resolves by [handle_right]; s
    gives [action_dim - 2], resolved by [handle_left]; a gives
    [action_dim - 3], resolved by [handle_down]; d gives
    [action_dim - 4], resolved by [handle_up].  After q or e the targets
    outside [0, n_agents) are skipped; q with the target t gives t,
    resolved by [handle_attack] on t; e gives [n_agents + t], resolved by
    [handle_heal] on t. *)
Theorem manual_action_dispatch (p : Entity.t) (g : t) (agent : Z)
    (junk rest : list string) (key : string) :
  Entity.action_dim p = 4 + 2 * Entity.n_agents p →
  Entity.n_agents p = n_agents g → 0 ≤ n_agents g →
  Forall (λ l, lower l ∉ Player.VALID_INPUTS) junk →
  (lower key = "w" →
     Player.get_manual_action lower int p (junk ++ key :: rest)
       = Player.Answer (Some (Entity.action_dim p - 1)) rest ∧
     resolved_by entropy g agent (Entity.action_dim p - 1) (handle_right g agent)) ∧
  (lower key = "s" →
     Player.get_manual_action lower int p (junk ++ key :: rest)
       = Player.Answer (Some (Entity.action_dim p - 2)) rest ∧
     resolved_by entropy g agent (Entity.action_dim p - 2) (handle_left g agent)) ∧
  (lower key = "a" →
     Player.get_manual_action lower int p (junk ++ key :: rest)
       = Player.Answer (Some (Entity.action_dim p - 3)) rest ∧
     resolved_by entropy g agent (Entity.action_dim p - 3) (handle_down g agent)) ∧
  (lower key = "d" →
     Player.get_manual_action lower int p (junk ++ key :: rest)
       = Player.Answer (Some (Entity.action_dim p - 4)) rest ∧
     resolved_by entropy g agent (Entity.action_dim p - 4) (handle_up g agent)) ∧
  (∀ skipped line rest' target,
     rest = skipped ++ line :: rest' →
     Forall (λ l, ∃ v, int l = Some v ∧ ¬ (0 ≤ v < n_agents g)) skipped →
     int line = Some target → 0 ≤ target < n_agents g →
     (lower key = "q" →
        Player.get_manual_action lower int p (junk ++ key :: rest)
          = Player.Answer (Some target) rest' ∧
        resolved_by entropy g agent target
          (handle_attack entropy g agent target)) ∧
     (lower key = "e" →
        Player.get_manual_action lower int p (junk ++ key :: rest)
          = Player.Answer (Some (n_agents g + target)) rest' ∧
        resolved_by entropy g agent (n_agents g + target)
          (handle_heal entropy g agent target))).
Proof.
  intros Hdim Hn Hnn Hjunk.
  destruct (resolved_by_move g agent Hnn) as (Hup & Hdown & Hleft & Hright).
  assert (Hkey : ∀ k, k ∈ Player.VALID_INPUTS → lower key = k →
            Player.read_key lower (junk ++ key :: rest) = Player.Answer k rest).
  { intros k Hk <-. by apply read_key_skips. }
  unfold Player.get_manual_action.
  split_and!.
  - intros Hk. rewrite (Hkey "w") by (done || apply (bool_decide_unpack _); done).
    simpl. split; [done|]. by replace (Entity.action_dim p - 1)
      with (2 * n_agents g + 3) by lia.
  - intros Hk. rewrite (Hkey "s") by (done || apply (bool_decide_unpack _); done).
    simpl. split; [done|]. by replace (Entity.action_dim p - 2)
      with (2 * n_agents g + 2) by lia.
  - intros Hk. rewrite (Hkey "a") by (done || apply (bool_decide_unpack _); done).
    simpl. split; [done|]. by replace (Entity.action_dim p - 3)
      with (2 * n_agents g + 1) by lia.
  - intros Hk. rewrite (Hkey "d") by (done || apply (bool_decide_unpack _); done).
    simpl. split; [done|]. by replace (Entity.action_dim p - 4)
      with (2 * n_agents g) by lia.
  - intros skipped line rest' target -> Hskip Hline Ht.
    assert (Htarget : Player.read_target int (Entity.n_agents p)
                        (skipped ++ line :: rest') = Player.Answer target rest').
    { rewrite Hn. by apply read_target_skips. }
    split.
    + intros Hk. rewrite (Hkey "q") by (done || apply (bool_decide_unpack _); done).
      simpl. rewrite Htarget. split; [done|]. by apply resolved_by_attack.
    + intros Hk. rewrite (Hkey "e") by (done || apply (bool_decide_unpack _); done).
      simpl. rewrite Htarget, Hn. split; [done|].
      pose proof (resolved_by_heal g agent (n_agents g + target)) as Hheal.
      replace (n_agents g + target - n_agents g) with target in Hheal by lia.
      apply Hheal; lia.
Qed.

Lemma get_manual_action_range (p : Entity.t) (lines rest : list string)
    (oa : option Z) :
  Entity.action_dim p = 4 + 2 * Entity.n_agents p → 0 ≤ Entity.n_agents p →
  Player.get_manual_action lower int p lines = Player.Answer oa rest →
  ∃ a, oa = Some a ∧ 0 ≤ a < Entity.action_dim p.
Proof.
  intros Hdim Hn. unfold Player.get_manual_action.
  destruct (Player.read_key lower lines) as [ain rest0|] eqn:Hkey; [|done].
  apply read_key_valid in Hkey.
  repeat (case_bool_decide;
          [try (intros [= <- _]; eexists; split; [done|lia])|]).
  - destruct (Player.read_target int (Entity.n_agents p) rest0)
      as [target rest1|] eqn:Ht; [|done].
    apply read_target_range in Ht. intros [= <- _]. eexists. split; [done|lia].
  - destruct (Player.read_target int (Entity.n_agents p) rest0)
      as [target rest1|] eqn:Ht; [|done].
    apply read_target_range in Ht. intros [= <- _]. eexists. split; [done|lia].
  - exfalso. unfold Player.VALID_INPUTS in Hkey.
    repeat (apply elem_of_cons in Hkey as [?|Hkey]; [done|]).
    by apply elem_of_nil in Hkey.
Qed.

(** X20.  The action a player chooses is one the game decodes.  With the
    strategy 'manual' or 'random', whenever [get_action] returns, the
    action lies in [0, action_dim), the range [apply_action] accepts for
    a game of [n_agents] entities; the strategy 'random' always returns,
    takes one draw and reads no line.  With any other strategy
    ('nearest' and 'flee' included) [get_action] returns None, takes no
    draw and reads no line. *)
Theorem get_action_range (p : Player.t) (lines : list string) (k : nat) :
  Entity.action_dim (Player.entity p) = 4 + 2 * Entity.n_agents (Player.entity p) →
  0 ≤ Entity.n_agents (Player.entity p) →
  (Player.strategy p = "manual" →
     ∀ oa k' rest,
       Player.get_action lower int entropy p lines k = Player.Answer (oa, k') rest →
       k' = k ∧ ∃ a, oa = Some a ∧ 0 ≤ a < Entity.action_dim (Player.entity p)) ∧
  (Player.strategy p = "random" →
     ∃ a, Player.get_action lower int entropy p lines k
            = Player.Answer (Some a, S k) lines ∧
          0 ≤ a < Entity.action_dim (Player.entity p)) ∧
  (Player.strategy p ≠ "manual" → Player.strategy p ≠ "random" →
     Player.get_action lower int entropy p lines k = Player.Answer (None, k) lines).
Proof.
  intros Hdim Hn. unfold Player.get_action. split_and!.
  - intros ->. simpl. intros oa k' rest.
    destruct (Player.get_manual_action lower int (Player.entity p) lines)
      as [oa0 rest0|] eqn:Hm; [|done].
    intros [= <- <- _]. split; [done|].
    by apply (get_manual_action_range _ _ _ _ Hdim Hn Hm).
  - intros ->. simpl. unfold Player.get_random_action.
    destruct (randint_range entropy 0 (Entity.action_dim (Player.entity p) - 1) k)
      as (v & -> & Hv); [lia|].
    exists v. split; [done|lia].
  - intros Hm Hr.
    rewrite (bool_decide_eq_false_2 _ Hm), (bool_decide_eq_false_2 _ Hr).
    by repeat case_bool_decide.
Qed.

End PlayerActions.

(** ** Further properties on concrete boards and games *)

Section BoardWitnesses.
Import Board Scenario.

Lemma board_pair_inv : inv board_pair.
Proof.
  assert (Hfresh : fresh_adds [Add 1 0 0; Add 2 0 1] board3 = true)
    by (vm_compute; reflexivity).
  by destruct (board_run_inv _ _ _ board3_inv board_pair_run Hfresh) as (? & _).
Qed.

Lemma board_add_remove_roundtrip_witness :
  ∃ b1, add board_pair 3 1 1 = Ok b1 ∧ query b1 3 = Ok (1, 1) ∧
        lquery b1 1 1 = Ok 3 ∧ remove b1 3 = Ok board_pair.
Proof.
  exists (value board3 (add board_pair 3 1 1)).
  assert (Hoff : belongs board_pair 3 = false) by (vm_compute; reflexivity).
  assert (Hadd : add board_pair 3 1 1 = Ok (value board3 (add board_pair 3 1 1)))
    by (vm_compute; reflexivity).
  destruct (board_add_remove_roundtrip board_pair _ 3 1 1 board_pair_inv Hoff Hadd)
    as (Hq & Hl & _ & Hr).
  split_and!; [exact Hadd|exact Hq|exact Hl|exact Hr].
Defined.

Lemma board_remove_add_roundtrip_witness :
  ∃ b1, remove board_pair 2 = Ok b1 ∧ belongs b1 2 = false ∧
        free b1 0 1 = Ok true ∧ add b1 2 0 1 = Ok board_pair.
Proof.
  exists (value board3 (remove board_pair 2)).
  assert (Hq : query board_pair 2 = Ok (0, 1)) by (vm_compute; reflexivity).
  assert (Hrem : remove board_pair 2 = Ok (value board3 (remove board_pair 2)))
    by (vm_compute; reflexivity).
  destruct (board_remove_add_roundtrip board_pair _ 2 0 1 board_pair_inv Hq Hrem)
    as (Hoff & Hfree & Hadd).
  split_and!; [exact Hrem|exact Hoff|exact Hfree|exact Hadd].
Defined.

Lemma board_query_lquery_witness :
  lquery board_pair 0 1 = Ok 2 ∧ inbounds board_pair 0 1 = true ∧
  query board_pair 3 = Raise AssertionError.
Proof.
  assert (Hq : query board_pair 2 = Ok (0, 1)) by (vm_compute; reflexivity).
  assert (Hoff : belongs board_pair 3 = false) by (vm_compute; reflexivity).
  destruct (board_query_lquery board_pair 2 0 1 board_pair_inv) as (Hiff & _ & Hin).
  destruct (board_query_lquery board_pair 3 0 0 board_pair_inv) as (_ & Hnone & _).
  split_and!; [by apply Hiff|by apply Hin|by apply Hnone].
Defined.

Lemma board_cell_status_witness :
  (free board_pair 3 0 = Raise AssertionError ∧
   used board_pair 3 0 = Raise AssertionError) ∧
  ∃ u, used board_pair 0 1 = Ok u ∧ free board_pair 0 1 = Ok (negb u).
Proof.
  destruct (board_cell_status board_pair 3 0 board_pair_inv) as (Hout & _).
  destruct (board_cell_status board_pair 0 1 board_pair_inv) as (_ & Hin).
  split.
  - apply Hout. vm_compute. reflexivity.
  - destruct Hin as (u & Hu & Hf & _); [vm_compute; reflexivity|].
    exists u. split; [exact Hu|exact Hf].
Defined.

Lemma board_move_roundtrip_witness :
  ∃ b', move board_pair 0 1 1 1 = Ok b' ∧
        (∃ e, lquery board_pair 0 1 = Ok e ∧ query b' e = Ok (1, 1)) ∧
        query b' 1 = query board_pair 1 ∧
        move b' 1 1 0 1 = Ok board_pair.
Proof.
  exists (value board3 (move board_pair 0 1 1 1)).
  assert (Hmove : move board_pair 0 1 1 1 = Ok (value board3 (move board_pair 0 1 1 1)))
    by (vm_compute; reflexivity).
  destruct (board_move_roundtrip board_pair _ 0 1 1 1 board_pair_inv Hmove)
    as (e & Hl & Hq & _ & _ & Hother & Hback).
  split_and!; [exact Hmove|by exists e| |exact Hback].
  apply Hother. intros <-. vm_compute in Hl. discriminate Hl.
Defined.

Lemma near_is_manhattan_witness :
  near board_pair 1 2 = Ok true.
Proof.
  assert (H1 : query board_pair 1 = Ok (0, 0)) by (vm_compute; reflexivity).
  assert (H2 : query board_pair 2 = Ok (0, 1)) by (vm_compute; reflexivity).
  assert (Hne : (1 : Z) ≠ 2) by discriminate.
  destruct (near_is_manhattan board_pair 1 2 0 0 0 1 H1 H2 Hne) as [Hnear _].
  rewrite Hnear. reflexivity.
Defined.

Lemma board_failure_is_assertion_witness :
  apply board_pair (Add 3 0 1) = Raise AssertionError ∧
  (inbounds board_pair 0 1 = false ∨ (0, 1) ∈ grid board_pair).
Proof.
  assert (H : apply board_pair (Add 3 0 1) = Raise AssertionError)
    by (vm_compute; reflexivity).
  destruct (board_failure_is_assertion board_pair (Add 3 0 1) AssertionError
              board_pair_inv H) as [_ Hcause].
  split; [exact H|exact Hcause].
Defined.

End BoardWitnesses.

Section GameWitnesses.
Import Game Scenario.

Lemma registered_Ok : add_all registrations blank = Ok registered.
Proof. vm_compute. reflexivity. Qed.

Lemma registered_store :
  ∀ e, e ∈ (agents registered).*1 → is_Some (objs registered !! e).
Proof. apply Forall_forall. apply (bool_decide_unpack _). vm_compute. exact I. Qed.

Lemma started_Ok :
  reset reversal registered =
    Ok ((value (no_tensor, 0, blank) (reset reversal registered)).1.1,
        (value (no_tensor, 0, blank) (reset reversal registered)).1.2, started).
Proof. vm_compute. reflexivity. Qed.

Lemma started_ready : episode_ok started ∧ wired started.
Proof.
  apply (reset_ready reversal reversal_perm 3 3 false store 0 registrations
           blank registered registered started _ _
           eq_refl registered_Ok (same_registry_refl _) eq_refl registered_store
           started_Ok).
Qed.

Lemma started_health : store_health started.
Proof.
  intros e ent He.
  assert (Hobjs : objs started = store) by (vm_compute; reflexivity).
  rewrite Hobjs in He. unfold store in He.
  apply lookup_insert_Some in He as [[_ <-]|[_ He]];
    [|apply lookup_insert_Some in He as [[_ <-]|[_ He]];
      [|apply lookup_singleton_Some in He as [_ <-]]];
    (split; [split; [vm_compute; discriminate|reflexivity]|split; vm_compute; discriminate]).
Qed.

Lemma done_is_stable_witness :
  ∃ res res' g2,
    step dice finale 202 0 = Ok (res, aftermath) ∧ done res = true ∧
    step dice aftermath 201 7 = Ok (res', g2) ∧ done res' = true.
Proof.
  exists (value (no_step, blank) (step dice finale 202 0)).1,
         (value (no_step, blank) (step dice aftermath 201 7)).1,
         (value (no_step, blank) (step dice aftermath 201 7)).2.
  assert (H1 : step dice finale 202 0 =
                 Ok ((value (no_step, blank) (step dice finale 202 0)).1, aftermath))
    by (vm_compute; reflexivity).
  assert (Hd : done (value (no_step, blank) (step dice finale 202 0)).1 = true)
    by (vm_compute; reflexivity).
  assert (H2 : step dice aftermath 201 7 =
                 Ok ((value (no_step, blank) (step dice aftermath 201 7)).1,
                     (value (no_step, blank) (step dice aftermath 201 7)).2))
    by (vm_compute; reflexivity).
  split_and!; [exact H1|exact Hd|exact H2|].
  exact (done_is_stable dice finale aftermath _ 202 0 201 7 _ _ H1 Hd H2).
Defined.

Lemma play_keeps_health_witness :
  ∃ g', play dice started [(202, 0); (101, 7)] = Ok g' ∧ store_health g' ∧
        option_Forall2 ages (objs started !! 101) (objs g' !! 101).
Proof.
  exists (value blank (play dice started [(202, 0); (101, 7)])).
  assert (Hplay : play dice started [(202, 0); (101, 7)] =
                    Ok (value blank (play dice started [(202, 0); (101, 7)])))
    by (vm_compute; reflexivity).
  destruct (play_keeps_health dice _ started _ started_health Hplay) as [Hh Hages].
  split_and!; [exact Hplay|exact Hh|exact (Hages 101)].
Defined.

Lemma episode_well_formed_witness :
  ∃ g3, play dice started [(202, 0); (101, 7)] = Ok g3 ∧
        episode_ok g3 ∧ same_registry g3 registered.
Proof.
  exists (value blank (play dice started [(202, 0); (101, 7)])).
  assert (Hplay : play dice started [(202, 0); (101, 7)] =
                    Ok (value blank (play dice started [(202, 0); (101, 7)])))
    by (vm_compute; reflexivity).
  split; [exact Hplay|].
  exact (episode_well_formed dice reversal reversal_perm 3 3 false store 0
           registrations _ blank registered registered started _ _ _
           eq_refl registered_Ok (same_registry_refl _) registered_store
           started_Ok Hplay).
Defined.

Lemma episode_census_witness :
  ∃ g3, play dice finale [(202, 0)] = Ok g3 ∧
        Z.of_nat (length (order g3)) + Z.of_nat (size (dead g3)) = 3 ∧
        (∀ e, Board.belongs (board g3) e = true ↔ e ∈ order g3).
Proof.
  exists (value blank (play dice finale [(202, 0)])).
  assert (Hplay : play dice finale [(202, 0)] =
                    Ok (value blank (play dice finale [(202, 0)])))
    by (vm_compute; reflexivity).
  assert (Hsame : same_registry (set_objs registered (<[101 := loner]> store))
                    registered) by (repeat split).
  assert (Hstore : ∀ e, e ∈ (agents (set_objs registered (<[101 := loner]> store))).*1 →
                        is_Some (objs (set_objs registered (<[101 := loner]> store)) !! e)).
  { apply Forall_forall. apply (bool_decide_unpack _). vm_compute. exact I. }
  assert (Hreset : reset reversal (set_objs registered (<[101 := loner]> store)) =
            Ok ((value (no_tensor, 0, blank)
                   (reset reversal (set_objs registered (<[101 := loner]> store)))).1.1,
                (value (no_tensor, 0, blank)
                   (reset reversal (set_objs registered (<[101 := loner]> store)))).1.2,
                finale)) by (vm_compute; reflexivity).
  destruct (episode_census dice reversal reversal_perm 3 3 false store 0
              registrations _ blank registered _ finale _ _ _
              eq_refl registered_Ok Hsame Hstore Hreset Hplay)
    as (Hcount & _ & Hboard).
  split_and!; [exact Hplay|exact Hcount|exact Hboard].
Defined.

Lemma generate_state_content_witness :
  ∃ s, generate_state started 101 = Ok s ∧
       shape s = (3, 3, 3, 5) ∧
       (0, 0, 0, 0) ∈ ones s ∧ (2, 2, 2, 4) ∈ ones s ∧
       size (ones s) = 3%nat.
Proof.
  destruct started_ready as [Hg Hw].
  assert (Hc : objs started !! 101 = Some p1) by (vm_compute; reflexivity).
  destruct (generate_state_content started 101 p1 (ready_playable _ Hg Hw) Hc)
    as (s & Hs & Hshape & Hones & Hsize).
  exists s. split_and!; [exact Hs|exact Hshape| | |].
  - apply Hones. exists 101, p1. split_and!;
      [apply (bool_decide_unpack _); vm_compute; exact I|
       vm_compute; reflexivity..].
  - apply Hones. exists 202, e2. split_and!;
      [apply (bool_decide_unpack _); vm_compute; exact I|
       vm_compute; reflexivity..].
  - destruct (Hsize (ep_board _ Hg) (ep_nodup _ Hg)) as [-> _].
    vm_compute. reflexivity.
Defined.

Lemma episode_step_returns_witness :
  (∃ res g4, step dice started 101 7 = Ok (res, g4)) ∨
  (order started = [101] ∧ index_to_agent started !! 7 = Some 101 ∧
   step dice started 101 7 = Raise AssertionError).
Proof.
  assert (Hin : 101 ∈ order started)
    by (apply (bool_decide_unpack _); vm_compute; exact I).
  assert (Hact : 0 ≤ 7 < 2 * n_agents started + 4) by (vm_compute; split; [discriminate|reflexivity]).
  exact (episode_step_returns dice reversal reversal_perm 3 3 false store 0
           registrations [] blank registered registered started started _ _ 101 7
           eq_refl registered_Ok (same_registry_refl _) eq_refl registered_store
           started_Ok eq_refl Hin Hact).
Defined.

Lemma pop_round_robin_witness :
  pop_many 2 started =
    Ok (take 2 (order started),
        set_order started (drop 2 (order started) ++ take 2 (order started))) ∧
  take 2 (order started) = [201; 101] ∧
  pop_many 3 started = Ok ([201; 101; 202], started).
Proof.
  assert (Hn : (2 ≤ length (order started))%nat) by (vm_compute; lia).
  destruct (pop_round_robin started 2 Hn) as [H2 Hall].
  split_and!; [exact H2|vm_compute; reflexivity|].
  assert (Ho : order started = [201; 101; 202]) by (vm_compute; reflexivity).
  rewrite Ho in Hall at 1 2. exact Hall.
Defined.

Lemma move_there_and_back_witness :
  ∃ g1, handle_down started 101 = Ok (0, g1) ∧
        Board.query (board g1) 101 = Ok (1, 0) ∧
        handle_up g1 101 = Ok (0, started).
Proof.
  exists (value (0, blank) (handle_down started 101)).2.
  assert (Hq : Board.query (board started) 101 = Ok (0, 0)) by (vm_compute; reflexivity).
  assert (Hdown : handle_down started 101 =
                    Ok (0, (value (0, blank) (handle_down started 101)).2))
    by (vm_compute; reflexivity).
  destruct started_ready as [Hg _].
  destruct (move_there_and_back started (value (0, blank) (handle_down started 101)).2
              101 0 0 (ep_board _ Hg) Hq)
    as (_ & Hthere & _).
  destruct (Hthere Hdown) as [Hq1 Hup].
  split_and!; [exact Hdown|exact Hq1|exact Hup].
Defined.

Lemma manual_action_dispatch_witness :
  Player.get_manual_action lower_w digit p1 ["x"; "W"; "1"]
    = Player.Answer (Some (Entity.action_dim p1 - 1)) ["1"] ∧
  resolved_by dice started 101 (Entity.action_dim p1 - 1) (handle_right started 101) ∧
  Player.get_manual_action lower_w digit p1 ["x"; "e"; "7"; "1"]
    = Player.Answer (Some (n_agents started + 1)) [] ∧
  resolved_by dice started 101 (n_agents started + 1) (handle_heal dice started 101 1).
Proof.
  assert (Hdim : Entity.action_dim p1 = 4 + 2 * Entity.n_agents p1) by reflexivity.
  assert (Hn : Entity.n_agents p1 = n_agents started) by (vm_compute; reflexivity).
  assert (Hnn : 0 ≤ n_agents started) by (vm_compute; discriminate).
  assert (Hjunk : Forall (λ l, lower_w l ∉ Player.VALID_INPUTS) ["x"])
    by (apply (bool_decide_unpack _); vm_compute; exact I).
  destruct (manual_action_dispatch lower_w digit dice p1 started 101 ["x"] ["1"] "W"
              Hdim Hn Hnn Hjunk) as (Hw & _).
  destruct (manual_action_dispatch lower_w digit dice p1 started 101 ["x"] ["7"; "1"] "e"
              Hdim Hn Hnn Hjunk) as (_ & _ & _ & _ & Htarget).
  destruct (Hw eq_refl) as [Hw1 Hw2].
  assert (Hskip : Forall (λ l, ∃ v, digit l = Some v ∧ ¬ (0 ≤ v < n_agents started))
                    ["7"]).
  { constructor; [|constructor].
    exists 7. split; [reflexivity|]. vm_compute. intros [_ H]. discriminate H. }
  assert (Hone : 0 ≤ 1 < n_agents started) by (vm_compute; split; [discriminate|reflexivity]).
  destruct (Htarget ["7"] "1" [] 1 eq_refl Hskip eq_refl Hone) as [_ He].
  destruct (He eq_refl) as [He1 He2].
  split_and!; [exact Hw1|exact Hw2|exact He1|exact He2].
Defined.

Lemma get_action_range_witness :
  (∃ a, Player.get_action lower_w digit dice manual_p1 ["q"; "7"; "2"] 0
          = Player.Answer (Some a, 0%nat) [] ∧
        0 ≤ a < Entity.action_dim p1) ∧
  (∃ a, Player.get_action lower_w digit dice
          {| Player.entity := p1; Player.strategy := "random" |} [] 0
          = Player.Answer (Some a, 1%nat) [] ∧
        0 ≤ a < Entity.action_dim p1).
Proof.
  assert (Hdim : Entity.action_dim p1 = 4 + 2 * Entity.n_agents p1) by reflexivity.
  assert (Hn : 0 ≤ Entity.n_agents p1) by (vm_compute; discriminate).
  destruct (get_action_range lower_w digit dice manual_p1 ["q"; "7"; "2"] 0 Hdim Hn)
    as (Hmanual & _).
  destruct (get_action_range lower_w digit dice
              {| Player.entity := p1; Player.strategy := "random" |} [] 0 Hdim Hn)
    as (_ & Hrandom & _).
  split.
  - destruct (Hmanual eq_refl (Some 2) 0%nat []) as (_ & a & Ha & Hr);
      [vm_compute; reflexivity|].
    injection Ha as <-. exists 2. split; [vm_compute; reflexivity|exact Hr].
  - exact (Hrandom eq_refl).
Defined.

End GameWitnesses.
